(* ===== verification/_CoqProject ===== *)
-Q . S2P
Prelude.v
Lines.v
DeleteLine.v
Records.v
Match.v
Spec.v
World.v
Store.v
Listing.v
Rules.v
Frame.v
Tree.v
Refine.v
Crash.v
Main.v
Session.v
