(* ===== verification/Prelude.v ===== *)
(** * A verification development for the [todo] command-line to-do list

    The program (src/main.cpp, 231 lines of C++) keeps a list of items in one
    plain-text file, the database.  Every non-empty line of the file is a
    record; a record is addressed by its 1-based position among the non-empty
    lines.  One run of the program performs one operation on that file:
    [main] reads the parsed command line, computes the path of the database
    with [getConfPath] and calls one of [initDB], [listDB], [addDB],
    [removeDB], [searchDB], [cleanDB]; [removeDB] calls [delete_line],
    [searchDB] calls [is_match], [initDB] calls [ynPrompt].

    ** The parts of the program and the files that model them

    The files are listed in the order in which they depend on each other.

    - [Prelude] (this file): characters and texts ([list ascii], the bytes of
      a [std::string] or of a file), the newline character, the 32-bit [int]
      range with the checked addition used for [index+1] (line 136), the
      decimal rendering of an [int] that [operator<<] produces (line 113),
      the shared tactics and the hint databases.
    - [Lines]: the line reader.  [getline] is one call of [std::getline] on
      the unread characters of a stream, [getlines] the sequence of lines
      that the loop [while (std::getline(f, line))] of [listDB] and
      [searchDB] (lines 111 and 150) sees.  [plines] is the reference notion
      of a physical line (what [delete_line] counts) and [records] the
      non-empty lines.  Theorems: the loop delivers the physical lines,
      none cut short by its fuel, and [plines] and [unplines] are inverse.
    - [DeleteLine]: the character loop of [delete_line] (lines 204-214) as a
      left fold of [delete_line_step] over the characters read, with the
      state [dl_state] of the two variables [line_no] and [ofs].  Theorems:
      the output has the physical lines of the input with one dropped
      ([drop_line] is the reference), nothing is dropped out of range, and
      [line_no] stays in the [int] range.
    - [Records]: the relation between characters and records.  [encode] is
      the content that calls of [addDB] write, [canonical] the invariant
      of a database written by the program only.  Theorems: on a canonical
      content [delete_line] with [index + 1] deletes record [index];
      deleting and appending keep contents canonical.  On any content,
      canonical or not, [removed_record] says which record [removeDB]
      removes (the one on physical line [index + 1], whatever its number),
      and two examples show where that differs from the record asked for.
      The invariant is the weakest one: every set of contents that [add]
      keeps and on which [remove] deletes the record asked for holds
      canonical contents only ([canonical_weakest]).
    - [Match]: [is_match] (lines 230-232) and [std::string::find].
      Theorems: [find] returns the first occurrence, [is_match] decides
      containment.
    - [Spec]: the contract of the store as the class [RecordStore] (state,
      operations, laws), the reference instance [model] on
      [option (list text)], the rendering of a listing, and the theorems
      that follow from the laws alone for every instance.
    - [World]: the state of the process ([world]: file system, environment,
      standard input, standard output), the monad [prog] of computations
      that return, exit, abort or are undefined, and one primitive for each
      library call of the source ([std::filesystem::exists], [remove],
      [copy], [create_directory], the three ways in which a stream is
      opened, [std::getenv], [std::getchar], [std::cout <<], [exit]).
      [dirname] gives the directory of a path: an entry is created only
      in a directory that exists, and a directory is removed only when
      nothing is in it.  Two computations are equivalent when they run
      alike in every world; [bind], the reading loop and [exec] respect
      the equivalence, and the laws of the monad are stated with it.
    - [Store]: one definition for each function of the source below
      [main], written in [prog] in the order of the statements of the
      source, and for each an equation ([..._run]) that gives outcome and
      final world on each branch.  The theorems at the end are about two
      operations in sequence ([add] then [list], [remove] then [list],
      [add] then [remove] of the new record, which restores the file),
      about [search] with the empty pattern, which is [list], and about
      directories in the way: a directory at the database path, and a
      temporary file of [delete_line] that cannot be written, with which
      [removeDB] loses the database.
    - [Listing]: the reader of the format that [listDB] and [searchDB]
      print, a reference definition with no counterpart in the program.
      Theorems: the output of the program is well formed and reads back
      as the numbered records, so a listing determines the records.
    - [Rules]: the argument that [Frame] and [Tree] share.  [always R c]
      says that every run of [c] relates the world before to the world
      after by [R], which may depend on how the run ends.  The class
      [Primitives] is what a relation has to satisfy: runs can be put in
      sequence, and each primitive has the property when it is allowed
      to print, to throw, to create or to change what is at its path.
      For every such relation each operation of [Store] has [always R]
      under the permissions for what it does, by the rules for [bind],
      conditionals and the reading loop.
    - [Frame]: what holds of every run in every world (the database
      missing, a file or a directory).  [within P c] says that [c] writes
      to paths in [P] only, leaves the environment alone, only adds to
      standard output and only consumes standard input; [survives Q]
      relates two worlds of which the second has every entry of the
      first, except at the paths in [Q].  Both are instances of
      [Primitives], which gives the footprint of each operation and of
      [main]: the database, the temporary file, the configuration
      directory, and paths in the database once [copy] has made a
      directory of it, where nothing that was there is changed.  Two
      more instances are about output and exceptions: the operations
      that print call nothing that throws, and those that throw print
      only before [exit], so that a run that is aborted has printed
      nothing.
    - [Tree]: the file system stays a tree.  [fs_tree] says that every
      entry lies in a directory of the map.  The primitives keep the
      tree: the invariant is an instance of [Primitives], so that every
      operation keeps it.
    - [Refine]: the instance [file_store] of [RecordStore] whose operations
      run the definitions of [Store] on a world, its invariant [file_ok],
      and the refinement theorem: a sequence of commands run by the program
      leaves in the file the records that the same commands leave in
      [model].
    - [Crash]: [delete_line] stopped after some of its four effects on the
      file system, as a run that is killed leaves it.  Theorems: the world
      at each point (the database untouched, then missing with its records
      in the temporary file, then replaced), and the invariant of [Refine]
      at all of them.  A run of [add] that falls between these effects is
      lost or refused ([add_during_remove]): runs are not protected from
      each other.
    - [Main]: [main] (lines 61-80) on a parsed command line [cmdline], and
      for each command the theorem that gives what a run of the whole
      program prints, returns and leaves in the file system, given that
      the configuration directory exists or can be created; what happens
      when it cannot ([main_conf_unusable]); the exit status and the
      footprint of every run.  [after_notify] builds the command line from
      the options that [po::store] kept (lines 52-59): [add] and [search]
      store to the same variable, and with both given the text of [search]
      is what [addDB] appends.
    - [Session]: runs of [main] one after another.  [reachable] is the
      inductive set of worlds that a session reaches from a tree without
      a database in which the configuration directory can be created and
      the temporary file written; the invariant [session_ok] holds in all
      of them and all are trees (by induction on the session); the
      records after a session, what it prints and how each run ends are
      what the list model computes from the command lines and the inputs
      of the runs ([session_refines]), so that no run goes wrong: no
      exception of the library, no undefined behaviour.  [can_reach] is the inductive
      predicate of the worlds from which some session leads into a given
      set: every list of records can be reached from every world of a
      session.  The database grows by the texts of [add] only
      ([session_size]), so that a session that adds fewer than 2 GiB
      keeps the counters of the loops in the range of an [int].

    ** Conventions

    - A text is a [list ascii]; a literal is written [chars "..."], and a
      newline is the character [nl] (code 10).  Path names and the names
      and values of environment variables are [string]s, the keys of
      finite maps.
    - An [int] is a [Z].  The addition [index + 1] of [removeDB] is
      checked: [int_add] returns [None] outside the 32-bit range, and the
      caller has undefined behaviour.  The counters of the loops ([i] in
      [listDB] and [searchDB], [line_no] in [delete_line]) are not: the
      model counts on where the program would overflow.  They stay in the
      range on a file of fewer than [INT_MAX] characters
      ([DeleteLine.delete_line_loop_in_int],
      [Store.listDB_counter_in_int]), so the theorems on these three
      operations, and on [main] and the sessions that run them, are about
      the program on databases below 2 GiB; beyond, the program has
      undefined behaviour that the model does not show.
    - Loops that are not structural carry fuel ([getlines_go],
      [while_getline_go]); the caller passes one more than the number of
      unread characters, each iteration consumes at least one character or
      is the last, and a lemma of [Lines] shows that any larger fuel
      gives the same result ([getlines_go_irrel]).  The loop of [delete_line] is a fold over the
      characters and needs none.
    - The outcome of a computation is [Ret v] (it returned [v]), [Exit n]
      (it called [exit(n)]), [Abort] (an exception of the library left
      [main]) or [Undef] (undefined behaviour: a null pointer given to
      [std::string], a signed overflow).

    ** What the model assumes about the library

    - The file system is a finite map from path names to nodes, a regular
      file with its content or a directory.  Path names are compared as
      written (no links, no normalisation).  The directory of a path is
      what [parent_path] gives ([dirname]); the root and the current
      directory are entries of the map like any other directory, and hold
      themselves.  A file or a directory is created only in a directory
      that exists: a stream on a new file does not open otherwise, and
      [create_directory] and [copy] throw.  [remove] throws on a directory
      that holds an entry.  [copy] never overwrites: a regular file goes
      to a path where nothing is, or into the directory at its
      destination; a directory is created at the destination and the
      regular files in the source are copied into it, in the order of
      the map, up to the first that cannot be (the program copies a
      directory only when one sits at the temporary path of
      [delete_line]).  Every directory can be searched and written.
    - A run that is killed stops between two effects on the file system;
      an effect that is cut in two (a file written in part) is not
      modelled.
    - Opening a stream on a directory, or on a new file in a directory
      that is missing, fails; the failure is silent, as in the source,
      which never tests a stream: reading yields nothing and writing is
      lost.  No other input or output error is modelled.
    - Runs of the program that overlap do so between two effects on the
      file system ([Crash]); a stream's reads and writes are one effect.
    - [std::tolower] is taken in the C locale, and returns a character
      above 127 unchanged, as glibc does (the C standard leaves the call
      undefined for a negative [char] other than [EOF]).
    - What was printed before [exit] or an exception is kept in the
      standard output of the world.  For exceptions the assumption is
      never used: a run that is aborted has printed nothing
      ([Main.main_status]).
    - [po::notify] visits the stored options in the order of the variables
      map, a [std::map] keyed by the names of the options ([map_order]).

    ** What is not modelled

    - The parsing of [argv] by Boost.Program_options (line 58: which
      spellings of an option it accepts, how it converts the value of
      [remove]), the exceptions it throws on a malformed command line, and
      the text of the option description that the help prints ([usage], a
      variable of the section of [main]).  The source fixes none of these:
      they are the library's, and a model of them would be a model of
      Boost, not of this program.
    - Permissions, links, and errors of the streams after they were
      opened; runs that overlap beyond one [add] falling into a [remove].
    - The overflow of a loop counter on a database of 2 GiB or more (see
      the conventions above).

    ** What is left

    - [delete_line] when the temporary path equals the database path: it
      cannot happen through [main], for the database path ends in
      "database" ([Store.database_ne_tmp]).
    - Files that are not trees (an entry below a regular file): the
      primitives are defined on them, and the theorems that need a tree
      say so ([tree w]).
*)

From Stdlib Require Export ZArith Lia.
From Stdlib Require Export Ascii.
From stdpp Require Export base tactics option list strings gmap pretty.

(** stdpp's solvers clear hypotheses that may be gone already. *)
#[export] Set Warnings "-clear-no-such-hyp".

(** ** Texts *)

Abbreviation text := (list ascii).

Definition nl : ascii := "010"%char.

Definition chars (s : string) : text := String.list_ascii_of_string s.

Definition str (t : text) : string := String.string_of_list_ascii t.

Arguments chars : simpl never.
Arguments str : simpl never.

(** ** The 32-bit [int] *)

Definition INT_MAX : Z := 2147483647.

Definition INT_MIN : Z := -2147483648.

Definition in_int (z : Z) : Prop := (INT_MIN ≤ z ≤ INT_MAX)%Z.

#[export] Instance in_int_dec z : Decision (in_int z).
Proof. unfold in_int. apply _. Defined.

Definition int_add (a b : Z) : option Z :=
  if decide (in_int (a + b)) then Some (a + b)%Z else None.

(** [operator<<(std::ostream&, int)]: the decimal digits, with a leading
    minus sign for a negative value. *)
Definition show_int (i : Z) : text := chars (pretty i).

(** The longest prefix of a list whose elements satisfy [P], and what
    follows it. *)
Fixpoint take_while {A} (P : A → Prop) `{!∀ x, Decision (P x)} (l : list A) : list A :=
  match l with
  | x :: l' => if decide (P x) then x :: take_while P l' else []
  | [] => []
  end.

Fixpoint drop_while {A} (P : A → Prop) `{!∀ x, Decision (P x)} (l : list A) : list A :=
  match l with
  | x :: l' => if decide (P x) then drop_while P l' else l
  | [] => []
  end.

(** ** Hint databases and tactics *)

Create HintDb text discriminated.

Create Rewrite HintDb text.

(** [case_nl] splits on the next test [c = nl] of the goal or of a
    hypothesis. *)
Ltac case_nl :=
  match goal with
  | |- context [decide (?c = nl)] => destruct (decide (c = nl)) as [->|?]
  | H : context [decide (?c = nl)] |- _ => destruct (decide (c = nl)) as [->|?]
  end.

(** [by_compute] closes a closed goal by evaluating it. *)
Ltac by_compute := first [by vm_compute | compute_done].

(** ** Shared lemmas *)

Lemma str_chars s : str (chars s) = s.
Proof. apply String.string_of_list_ascii_of_string. Qed.

Lemma chars_str t : chars (str t) = t.
Proof. apply String.list_ascii_of_string_of_list_ascii. Qed.

Lemma chars_app s1 s2 : chars (s1 +:+ s2) = chars s1 ++ chars s2.
Proof.
  induction s1 as [|c s1 IH]; [done|].
  change (c :: chars (s1 +:+ s2) = c :: chars s1 ++ chars s2). by f_equal.
Qed.

#[export] Instance chars_inj : Inj (=) (=) chars.
Proof. intros s1 s2 H. by rewrite <-(str_chars s1), H, str_chars. Qed.

#[export] Instance show_int_inj : Inj (=) (=) show_int.
Proof. intros i j H. by apply (inj pretty), (inj chars). Qed.

Lemma int_add_Some a b c : int_add a b = Some c ↔ c = (a + b)%Z ∧ in_int (a + b).
Proof. unfold int_add. case_decide; split; [intros [= <-]|intros [-> _]|intros [=]|intros [_ ?]]; done. Qed.

Lemma int_add_None a b : int_add a b = None ↔ ¬ in_int (a + b).
Proof. unfold int_add. case_decide; split; [intros [=]|done..]. Qed.

#[export] Hint Rewrite str_chars chars_str : text.

(** Deleting at an index past the end of a list changes nothing. *)
Lemma list_delete_ge {A} (l : list A) i : length l ≤ i → delete i l = l.
Proof.
  intros. rewrite delete_take_drop, take_ge, drop_ge by lia. apply app_nil_r.
Qed.

(** Deleting an element of a list, seen through a filter: the element goes
    from the filtered list when it passes the filter, at the position that
    the elements before it give it. *)
Lemma filter_delete {A} (P : A → Prop) `{!∀ x, Decision (P x)} (l : list A) i :
  filter P (delete i l) =
  match l !! i with
  | Some x =>
      if decide (P x) then delete (length (filter P (take i l))) (filter P l)
      else filter P l
  | None => filter P l
  end.
Proof.
  revert i. induction l as [|a l IH]; intros [|i]; simpl; [done..| |].
  - rewrite filter_cons. by destruct (decide (P a)).
  - rewrite !filter_cons, IH.
    destruct (l !! i) as [x|]; [|done].
    destruct (decide (P x)), (decide (P a)); done.
Qed.

Lemma filter_all {A} (P : A → Prop) `{!∀ x, Decision (P x)} (l : list A) :
  Forall P l → filter P l = l.
Proof. induction 1; [done|]. rewrite filter_cons_True by done. by f_equal. Qed.

(** ** Prefixes by a test *)

Section while_lemmas.
Context {A : Type} (P : A → Prop) `{!∀ x, Decision (P x)}.
Implicit Types l : list A.

Lemma Forall_take_while l : Forall P (take_while P l).
Proof. induction l as [|x l IH]; simpl; [done|]. case_decide; by constructor. Qed.

Lemma drop_while_all l : Forall P l → drop_while P l = [].
Proof. induction 1; simpl; [done|]. by rewrite decide_True. Qed.

Lemma take_while_app_stop l x l' :
  Forall P l → ¬ P x → take_while P (l ++ x :: l') = l.
Proof.
  intros Hl Hx. induction Hl; simpl; [by rewrite decide_False|].
  rewrite decide_True by done. by f_equal.
Qed.

Lemma drop_while_app_stop l x l' :
  Forall P l → ¬ P x → drop_while P (l ++ x :: l') = x :: l'.
Proof.
  intros Hl Hx. induction Hl; simpl; [by rewrite decide_False|].
  by rewrite decide_True.
Qed.

End while_lemmas.

(** Two keys at which a map holds different things are different. *)
Lemma lookup_ne_key `{FinMap K M} {A} (m : M A) i j : m !! i ≠ m !! j → i ≠ j.
Proof. by intros Hne ->. Qed.
