(* ===== verification/Lines.v ===== *)
(** * Lines: the line reader of [listDB] and [searchDB]

    [getline] models one call [std::getline(f, line)] on the unread
    characters of the stream; [getlines] the lines that the loop
    [while (std::getline(f, line))] delivers, one per iteration.  [plines]
    is the reference splitting of a text at every newline (the physical
    lines that [delete_line] counts), [unplines] its inverse, and [records]
    the non-empty lines, which are what the program numbers and prints. *)

From S2P Require Import Prelude.

(** ** The reader *)

(** The characters up to the first newline, and what follows that newline
    (the newline is extracted and dropped, as [std::getline] does). *)
Fixpoint read_until_nl (s : text) : text * text :=
  match s with
  | [] => ([], [])
  | c :: s' =>
      if decide (c = nl) then ([], s')
      else let '(l, r) := read_until_nl s' in (c :: l, r)
  end.

(** One call of [std::getline]: it fails, and ends the loop, exactly when
    no character is left; otherwise it yields the line and leaves the rest
    unread. *)
Definition getline (s : text) : option (text * text) :=
  match s with
  | [] => None
  | _ :: _ => Some (read_until_nl s)
  end.

(** The lines of the successive calls, until one fails. *)
Fixpoint getlines_go (fuel : nat) (s : text) : list text :=
  match fuel with
  | 0 => []
  | S fuel =>
      match getline s with
      | None => []
      | Some (l, r) => l :: getlines_go fuel r
      end
  end.

Definition getlines (s : text) : list text := getlines_go (S (length s)) s.

(** The records of a file: the lines for which [!line.empty()] holds. *)
Definition records (s : text) : list text :=
  filter (λ l, l ≠ []) (getlines s).

(** ** Physical lines (reference definitions) *)

Fixpoint plines (s : text) : list text :=
  match s with
  | [] => [[]]
  | c :: s' =>
      if decide (c = nl) then [] :: plines s'
      else match plines s' with
           | [] => [[c]]
           | l :: ls => (c :: l) :: ls
           end
  end.

Fixpoint unplines (ls : list text) : text :=
  match ls with
  | [] => []
  | l :: ls' =>
      match ls' with
      | [] => l
      | _ :: _ => l ++ nl :: unplines ls'
      end
  end.

(** ** Splitting a text at its first newline *)

Lemma split_first_nl (s : text) :
  nl ∉ s ∨ ∃ l r, s = l ++ nl :: r ∧ nl ∉ l.
Proof.
  induction s as [|c s IH]; [left; by apply not_elem_of_nil|].
  destruct (decide (c = nl)) as [->|Hc].
  { right. exists [], s. split; [done|apply not_elem_of_nil]. }
  destruct IH as [IH|(l & r & -> & Hl)].
  - left. by apply not_elem_of_cons.
  - right. exists (c :: l), r. split; [done|by apply not_elem_of_cons].
Qed.

(** Induction over the lines of a text: a text without newline, or a line
    followed by a newline and a text. *)
Lemma lines_ind (P : text → Prop) :
  (∀ l, nl ∉ l → P l) →
  (∀ l r, nl ∉ l → P r → P (l ++ nl :: r)) →
  ∀ s, P s.
Proof.
  intros Hbase Hstep s.
  induction (Nat.lt_wf_0_projected length s) as [s _ IH].
  destruct (split_first_nl s) as [?|(l & r & -> & ?)]; [by apply Hbase|].
  apply Hstep; [done|]. apply IH. rewrite length_app. simpl. lia.
Qed.

(** ** [read_until_nl] and [getline] *)

Lemma read_until_nl_no_nl l : nl ∉ l → read_until_nl l = (l, []).
Proof.
  induction l as [|c l IH]; [done|]. intros [? ?]%not_elem_of_cons. simpl.
  case_nl; [done|]. by rewrite IH.
Qed.

Lemma read_until_nl_app l r : nl ∉ l → read_until_nl (l ++ nl :: r) = (l, r).
Proof.
  induction l as [|c l IH]; simpl.
  - done.
  - intros [? ?]%not_elem_of_cons. case_nl; [done|]. by rewrite IH.
Qed.

Lemma read_until_nl_length s :
  length (read_until_nl s).2 ≤ length s.
Proof.
  induction s as [|c s IH]; simpl; [done|].
  case_nl; simpl; [lia|]. destruct (read_until_nl s). simpl in *. lia.
Qed.

Lemma getline_None s : getline s = None ↔ s = [].
Proof. by destruct s. Qed.

Lemma getline_app l r : nl ∉ l → getline (l ++ nl :: r) = Some (l, r).
Proof.
  intros Hl. rewrite <-(read_until_nl_app l r Hl). by destruct l.
Qed.

Lemma getline_no_nl l : nl ∉ l → l ≠ [] → getline l = Some (l, []).
Proof.
  intros Hl Hne. rewrite <-(read_until_nl_no_nl l Hl). by destruct l.
Qed.

(** Every successful call consumes at least one character: this is what
    makes the reading loops terminate. *)
Lemma getline_shorter s l r : getline s = Some (l, r) → length r < length s.
Proof.
  destruct s as [|c s]; [done|]. intros [= H].
  pose proof (read_until_nl_length s) as Hlen. simpl in *.
  case_nl; simplify_eq/=; [lia|].
  destruct (read_until_nl s). simplify_eq/=. lia.
Qed.

(** ** [getlines]: enough fuel, and its equations *)

Lemma getlines_go_irrel f1 f2 s :
  length s < f1 → length s < f2 → getlines_go f1 s = getlines_go f2 s.
Proof.
  revert f2 s. induction f1 as [|f1 IH]; intros [|f2] s ??; try lia. simpl.
  destruct (getline s) as [[l r]|] eqn:E; [|done].
  apply getline_shorter in E. f_equal. apply IH; lia.
Qed.

Lemma getlines_unfold s :
  getlines s =
  match getline s with Some (l, r) => l :: getlines r | None => [] end.
Proof.
  unfold getlines at 1. cbn [getlines_go].
  destruct (getline s) as [[l r]|] eqn:E; [|done].
  apply getline_shorter in E. f_equal. apply getlines_go_irrel; lia.
Qed.

Lemma getlines_app l r : nl ∉ l → getlines (l ++ nl :: r) = l :: getlines r.
Proof. intros. by rewrite getlines_unfold, getline_app. Qed.

Lemma getlines_no_nl l : nl ∉ l → l ≠ [] → getlines l = [l].
Proof. intros. by rewrite getlines_unfold, getline_no_nl. Qed.

(** ** Physical lines *)

Lemma plines_nonempty s : plines s ≠ [].
Proof. destruct s as [|c s]; simpl; [done|]. case_nl; [done|]. by destruct (plines s). Qed.

Lemma plines_no_nl l : nl ∉ l → plines l = [l].
Proof.
  induction l as [|c l IH]; [done|]. intros [? ?]%not_elem_of_cons. simpl.
  case_nl; [done|]. by rewrite IH.
Qed.

Lemma plines_app l r : nl ∉ l → plines (l ++ nl :: r) = l :: plines r.
Proof.
  induction l as [|c l IH]; [done|]. intros [? ?]%not_elem_of_cons. simpl.
  case_nl; [done|]. by rewrite IH.
Qed.

(** A newline between two texts separates their lines. *)
Lemma plines_app_nl c t : plines (c ++ nl :: t) = plines c ++ plines t.
Proof.
  induction c as [l Hl|l r Hl IH] using lines_ind.
  - by rewrite plines_app, (plines_no_nl l).
  - by rewrite <-app_assoc, <-app_comm_cons, !(plines_app l), IH.
Qed.

Lemma plines_Forall_no_nl s : Forall (λ l, nl ∉ l) (plines s).
Proof.
  induction s as [l Hl|l r Hl IH] using lines_ind.
  - rewrite plines_no_nl by done. by constructor.
  - rewrite plines_app by done. by constructor.
Qed.

Lemma unplines_cons l ls : ls ≠ [] → unplines (l :: ls) = l ++ nl :: unplines ls.
Proof. by destruct ls. Qed.

Lemma unplines_plines s : unplines (plines s) = s.
Proof.
  induction s as [l Hl|l r Hl IH] using lines_ind.
  - by rewrite plines_no_nl.
  - rewrite plines_app, unplines_cons, IH; auto using plines_nonempty.
Qed.

Lemma plines_unplines ls :
  ls ≠ [] → Forall (λ l, nl ∉ l) ls → plines (unplines ls) = ls.
Proof.
  intros Hne Hls. induction Hls as [|l ls Hl Hls IH]; [done|].
  destruct ls as [|l' ls]; [by apply plines_no_nl|].
  rewrite unplines_cons, plines_app, IH by done. done.
Qed.

(** The number of physical lines is one more than the number of newlines. *)
Lemma length_plines s : length (plines s) = S (length (filter (λ c, c = nl) s)).
Proof.
  induction s as [|c s IH]; [done|]. simpl. rewrite filter_cons.
  case_nl; simpl; [by rewrite IH|]. rewrite <-IH.
  pose proof (plines_nonempty s). by destruct (plines s).
Qed.

(** ** The lines that [std::getline] delivers, against the physical lines *)

(** C39: the lines that the [std::getline] loop delivers
    are the physical lines of the text, except that no last line is
    delivered when nothing follows the last newline or the text is empty:
    the physical lines then end with one more, empty, line. *)
Theorem plines_getlines s :
  plines s = getlines s ++ (if decide (s = [] ∨ last s = Some nl) then [[]] else []).
Proof.
  induction s as [l Hl|l r Hl IH] using lines_ind.
  - rewrite plines_no_nl by done. destruct (decide (l = [])) as [->|Hne]; [done|].
    rewrite getlines_no_nl, decide_False; [done| |done..].
    intros [?|Hlast]; [done|]. apply last_Some_elem_of in Hlast. done.
  - rewrite plines_app, getlines_app, IH by done. simpl. do 2 f_equal.
    assert (last (l ++ nl :: r) = Some nl ↔ r = [] ∨ last r = Some nl) as Hiff.
    { rewrite last_app. destruct r as [|c r]; [naive_solver|].
      rewrite last_cons_cons. destruct (last (c :: r)) eqn:E; [naive_solver|].
      by apply last_None in E. }
    repeat case_decide; try done; destruct l; naive_solver.
Qed.

Lemma records_plines s : records s = filter (λ l, l ≠ []) (plines s).
Proof.
  unfold records. induction s as [l Hl|l r Hl IH] using lines_ind.
  - rewrite plines_no_nl by done. destruct (decide (l = [])) as [->|Hne]; [done|].
    by rewrite getlines_no_nl.
  - by rewrite plines_app, getlines_app, !filter_cons, IH.
Qed.

Lemma records_nil : records [] = [].
Proof. done. Qed.

(** The records of two texts joined by a newline. *)
Lemma records_app_nl c t : records (c ++ nl :: t) = records c ++ records t.
Proof. by rewrite !records_plines, plines_app_nl, filter_app. Qed.

Lemma records_nonempty s : Forall (λ l, l ≠ []) (records s).
Proof.
  unfold records. apply list.Forall_forall. by intros l [? _]%list_elem_of_filter.
Qed.

Lemma records_no_nl s : Forall (λ l, nl ∉ l) (records s).
Proof.
  rewrite records_plines. apply list.Forall_forall. intros l [_ Hl]%list_elem_of_filter.
  revert l Hl. apply list.Forall_forall, plines_Forall_no_nl.
Qed.

(** A text has at most as many records as characters. *)
Lemma length_records_le s : length (records s) ≤ length s.
Proof.
  induction s as [l Hl|l r Hl IH] using lines_ind.
  - rewrite records_plines, plines_no_nl by done. rewrite filter_cons.
    case_decide; destruct l; simpl in *; done || lia.
  - rewrite records_app_nl, !length_app. simpl.
    assert (length (records l) ≤ length l); [|lia].
    rewrite records_plines, plines_no_nl by done. rewrite filter_cons.
    case_decide; destruct l; simpl in *; done || lia.
Qed.
