(* ===== verification/DeleteLine.v ===== *)
(** * DeleteLine: the character loop of [delete_line]

    [delete_line] (src/main.cpp, lines 195-228) copies the database to a
    temporary file character by character and leaves out the characters of
    one physical line.  This file models the loop (lines 204-214): its state
    is the line counter [line_no] and the characters written so far [ofs].
    The theorems give the final state in terms of the physical lines of the
    input ([Lines.plines]): which line is dropped, what happens to its
    newline, and the range of [line_no]. *)

From S2P Require Import Prelude Lines.

(** ** The loop *)

Record dl_state := DlState { line_no : Z; ofs : text }.

(** One iteration: [if (c == '\n') line_no++; if (line_no != n) ofs << c;]
    The counter [line_no] is an [int] in the program and a [Z] here: it
    stays in the range of an [int] on an input of fewer than [INT_MAX]
    characters ([delete_line_loop_in_int]); on an input with [INT_MAX]
    newlines or more [line_no++] overflows in the program, and the model
    counts on. *)
Definition delete_line_step (n : Z) (st : dl_state) (c : ascii) : dl_state :=
  let line_no' := if decide (c = nl) then (line_no st + 1)%Z else line_no st in
  DlState line_no' (if decide (line_no' ≠ n) then ofs st ++ [c] else ofs st).

(** [int line_no = 1; while (is.get(c)) { ... }] over the characters [s]
    that [is.get] delivers. *)
Definition delete_line_loop (n : Z) (s : text) : dl_state :=
  foldl (delete_line_step n) (DlState 1 []) s.

(** ** Reference definitions *)

(** The characters kept when the counter is [m] before the first one. *)
Fixpoint kept_from (n m : Z) (s : text) : text :=
  match s with
  | [] => []
  | c :: s' =>
      let m' := if decide (c = nl) then (m + 1)%Z else m in
      (if decide (m' ≠ n) then [c] else []) ++ kept_from n m' s'
  end.

(** What the loop does to the list of physical lines, [d] being the
    distance from the counter to [n]: at distance 0 the current line loses
    its characters and stays as an empty line; at a positive distance [d]
    the line [d] places further disappears with the newline before it; at a
    negative distance nothing is dropped. *)
Definition drop_line (d : Z) (ls : list text) : list text :=
  if decide (d = 0)%Z then [] :: tail ls
  else if decide (0 < d)%Z then delete (Z.to_nat d) ls
  else ls.

(** ** The loop against the reference definitions *)

Lemma delete_line_foldl n st s :
  foldl (delete_line_step n) st s =
  DlState (line_no st + Z.of_nat (length (filter (λ c, c = nl) s)))
          (ofs st ++ kept_from n (line_no st) s).
Proof.
  revert st. induction s as [|c s IH]; intros [m out]; simpl.
  { f_equal; [lia|by rewrite app_nil_r]. }
  rewrite IH, filter_cons. unfold delete_line_step. simpl.
  case_nl; case_decide; simpl; f_equal; try lia; by rewrite <-?app_assoc.
Qed.

Lemma kept_from_no_nl n m l :
  nl ∉ l → kept_from n m l = if decide (m = n) then [] else l.
Proof.
  induction l as [|c l IH]; [by case_decide|].
  intros [? ?]%not_elem_of_cons. simpl. case_nl; [done|].
  rewrite IH by done. by repeat case_decide.
Qed.

Lemma kept_from_app n m l s :
  nl ∉ l →
  kept_from n m (l ++ s) = (if decide (m = n) then [] else l) ++ kept_from n m s.
Proof.
  induction l as [|c l IH]; [by case_decide|].
  intros [? ?]%not_elem_of_cons. simpl. case_nl; [done|].
  rewrite IH by done. by repeat case_decide.
Qed.

Lemma unplines_nil_cons ls : ls ≠ [] → unplines ([] :: ls) = nl :: unplines ls.
Proof. by destruct ls. Qed.

(** [drop_line] on a list of lines, case by case. *)
Lemma drop_line_0 ls : drop_line 0 ls = [] :: tail ls.
Proof. done. Qed.

Lemma drop_line_neg d ls : (d < 0)%Z → drop_line d ls = ls.
Proof. intros. unfold drop_line. by rewrite !decide_False by lia. Qed.

Lemma drop_line_pos d ls : (0 < d)%Z → drop_line d ls = delete (Z.to_nat d) ls.
Proof. intros. unfold drop_line. by rewrite decide_False, decide_True by lia. Qed.

Lemma drop_line_1_cons l ls : drop_line 1 (l :: ls) = l :: tail ls.
Proof. rewrite drop_line_pos by lia. by destruct ls. Qed.

Lemma drop_line_S_cons d l ls :
  (1 < d)%Z → drop_line d (l :: ls) = l :: drop_line (d - 1) ls.
Proof.
  intros. rewrite !drop_line_pos by lia.
  by replace (Z.to_nat d) with (S (Z.to_nat (d - 1))) by lia.
Qed.

Lemma drop_line_nonempty d ls : ls ≠ [] → drop_line d ls ≠ [].
Proof.
  intros Hls. destruct ls as [|l ls]; [done|].
  destruct (Z.lt_trichotomy d 0) as [?|[->|?]]; [by rewrite drop_line_neg|done|].
  destruct (decide (d = 1%Z)) as [->|?]; [by rewrite drop_line_1_cons|].
  by rewrite drop_line_S_cons by lia.
Qed.

Lemma kept_from_plines n m s :
  kept_from n m s = unplines (drop_line (n - m) (plines s)).
Proof.
  revert m. induction s as [l Hl|l r Hl IH] using lines_ind; intros m.
  - rewrite kept_from_no_nl, plines_no_nl by done.
    destruct (Z.lt_trichotomy (n - m) 0) as [?|[?|?]].
    + rewrite drop_line_neg, decide_False by lia. done.
    + replace (n - m)%Z with 0%Z by lia. by rewrite decide_True by lia.
    + rewrite drop_line_pos, decide_False by lia.
      replace (Z.to_nat (n - m)) with (S (Z.to_nat (n - m - 1))) by lia.
      done.
  - rewrite kept_from_app, plines_app by done. simpl.
    pose proof (plines_nonempty r) as Hr. rewrite IH.
    replace (n - (m + 1))%Z with (n - m - 1)%Z by lia.
    destruct (Z.lt_trichotomy (n - m) 1) as [?|[Hd|?]].
    + rewrite (decide_True (P:=(m + 1)%Z ≠ n)), (drop_line_neg (n - m - 1)) by lia.
      rewrite unplines_plines. destruct (decide (m = n)) as [->|?].
      * rewrite Z.sub_diag, drop_line_0. cbn [tail].
        by rewrite unplines_nil_cons, unplines_plines.
      * by rewrite drop_line_neg, unplines_cons, unplines_plines by (done || lia).
    + rewrite Hd, drop_line_1_cons, decide_False, decide_False by lia.
      replace (n - m - 1)%Z with 0%Z by lia. rewrite drop_line_0. simpl.
      destruct (plines r) as [|l' [|l'' ls]]; simpl; [done|by rewrite app_nil_r|done].
    + rewrite drop_line_S_cons, (decide_False (P:=m = n)),
        (decide_True (P:=(m + 1)%Z ≠ n)) by lia.
      rewrite unplines_cons; [done|]. by apply drop_line_nonempty.
Qed.

Lemma drop_line_no_nl d ls :
  Forall (λ l, nl ∉ l) ls → Forall (λ l, nl ∉ l) (drop_line d ls).
Proof.
  intros Hls. unfold drop_line. repeat case_decide; [|by apply Forall_delete|done].
  constructor; [apply not_elem_of_nil|]. destruct Hls; by simpl.
Qed.

Lemma drop_line_ge d ls :
  ls ≠ [] → (Z.of_nat (length ls) ≤ d)%Z → drop_line d ls = ls.
Proof.
  intros. destruct ls as [|l ls]; [done|].
  rewrite drop_line_pos by (simpl in *; lia). apply list_delete_ge. lia.
Qed.

(** ** The final state of the loop *)

(** The characters that the loop writes, from the physical lines of its
    input. *)
(** What [drop_line] leaves of the physical lines of a text is again a
    list of physical lines. *)
Lemma plines_unplines_drop_line d s :
  plines (unplines (drop_line d (plines s))) = drop_line d (plines s).
Proof.
  apply plines_unplines.
  - apply drop_line_nonempty, plines_nonempty.
  - apply drop_line_no_nl, plines_Forall_no_nl.
Qed.

Lemma delete_line_loop_ofs n s :
  ofs (delete_line_loop n s) = unplines (drop_line (n - 1) (plines s)).
Proof.
  unfold delete_line_loop. rewrite delete_line_foldl. simpl.
  apply kept_from_plines.
Qed.

(** C3: the physical lines of what [delete_line]
    writes are those of its input with line [n] dropped: for [n = 1] the
    first line loses its characters and stays as an empty line (its
    newline is kept), for [n >= 2] line [n] disappears together with the
    newline before it, and for any other [n] nothing is dropped. *)
Theorem delete_line_loop_plines n s :
  plines (ofs (delete_line_loop n s)) = drop_line (n - 1) (plines s).
Proof. rewrite delete_line_loop_ofs. apply plines_unplines_drop_line. Qed.

(** When [n] is not the number of a physical line of the input
    ([n < 1] or [n] above the number of lines), the loop copies its input
    unchanged. *)
Theorem delete_line_loop_out_of_range n s :
  (n < 1 ∨ Z.of_nat (length (plines s)) < n)%Z → ofs (delete_line_loop n s) = s.
Proof.
  intros Hn. rewrite delete_line_loop_ofs.
  destruct Hn; [rewrite drop_line_neg by lia|
    rewrite drop_line_ge by (apply plines_nonempty || lia)]; apply unplines_plines.
Qed.

Lemma delete_line_loop_out_of_range_witness :
  ofs (delete_line_loop 5 (nl :: chars "a" ++ nl :: chars "b")) =
  nl :: chars "a" ++ nl :: chars "b".
Proof. apply delete_line_loop_out_of_range. vm_compute. right. done. Defined.

(** The counter ends at the number of physical lines of the input. *)
Lemma delete_line_loop_line_no n s :
  line_no (delete_line_loop n s) = Z.of_nat (length (plines s)).
Proof.
  unfold delete_line_loop. rewrite delete_line_foldl, length_plines. simpl. lia.
Qed.

(** C34: on an input of fewer than [INT_MAX] characters the counter
    [line_no] stays in the range of a 32-bit [int] after every iteration, so
    [line_no++] never overflows. *)
Theorem delete_line_loop_in_int n s1 s2 :
  (Z.of_nat (length (s1 ++ s2)) < INT_MAX)%Z →
  in_int (line_no (delete_line_loop n s1)).
Proof.
  rewrite delete_line_loop_line_no, length_plines, length_app.
  pose proof (length_filter (λ c, c = nl) s1). unfold in_int, INT_MIN. lia.
Qed.

Lemma delete_line_loop_in_int_witness :
  in_int (line_no (delete_line_loop 2 (nl :: chars "a"))).
Proof.
  apply (delete_line_loop_in_int 2 (nl :: chars "a") (nl :: chars "b")).
  vm_compute. done.
Defined.
