(* ===== verification/Records.v ===== *)
(** * Records: the database file as a list of records

    The operations of the program act on characters; their contract is
    about records.  This file relates the two.  [encode] writes a list of
    records the way a sequence of [addDB] calls does on an empty file (each
    record preceded by a newline), and a file content is [canonical] when
    it is the encoding of its records: the first physical line is empty and
    every other physical line is a record.  On canonical contents record
    [k] is physical line [k + 1], which is the offset [removeDB] applies;
    the theorems show that appending and deleting keep a content canonical
    and act on the records as the contract says.  For contents that are
    not canonical [removed_record] gives the record that [removeDB]
    removes, and the examples show where it is not the record with the
    number asked for.  The last theorem shows that the invariant cannot be
    weakened: a set of contents that [add] keeps and on which [remove]
    deletes the record asked for holds canonical contents only. *)

From S2P Require Import Prelude Lines DeleteLine.

(** ** Reference definitions *)

(** A text that is one record: not empty and without newline. *)
Definition good_text (t : text) : Prop := t ≠ [] ∧ nl ∉ t.

#[export] Instance good_text_dec t : Decision (good_text t).
Proof. unfold good_text. apply _. Defined.

Definition encode (ts : list text) : text := concat ((λ t, nl :: t) <$> ts).

Definition canonical (c : text) : Prop := c = encode (records c).

#[export] Instance canonical_dec c : Decision (canonical c).
Proof. unfold canonical. apply _. Defined.

(** Deleting record number [k], counted from 1; no record has another
    number. *)
Definition delete_record (k : Z) (rs : list text) : list text :=
  if decide (1 ≤ k)%Z then delete (Z.to_nat (k - 1)) rs else rs.

(** The record that sits on physical line [d] (counted from 0), as its
    position among the records (from 0): the number of non-empty lines
    above it.  A missing line and a blank line hold no record. *)
Definition record_on_line (d : nat) (ls : list text) : option nat :=
  l ← ls !! d;
  if decide (l ≠ []) then Some (length (filter (λ l, l ≠ []) (take d ls)))
  else None.

(** The record that [removeDB] with index [k] removes from a file with
    content [s]: the one on physical line [k + 1], counted from 1. *)
Definition removed_record (k : Z) (s : text) : option nat :=
  if decide (0 ≤ k)%Z then record_on_line (Z.to_nat k) (plines s) else None.

(** A set of contents on which the program meets the contract: [add] of a
    record stays in the set, and [remove] of a record's number deletes
    that record. *)
Definition contract_invariant (I : text → Prop) : Prop :=
  (∀ s t, I s → good_text t → I (s ++ nl :: t)) ∧
  (∀ s k, I s → (1 ≤ k ≤ Z.of_nat (length (records s)))%Z →
     records (ofs (delete_line_loop (k + 1) s)) = delete_record k (records s)).

(** ** Encodings *)

Lemma encode_cons t ts : encode (t :: ts) = nl :: t ++ encode ts.
Proof. done. Qed.

Lemma encode_app ts1 ts2 : encode (ts1 ++ ts2) = encode ts1 ++ encode ts2.
Proof. unfold encode. by rewrite fmap_app, concat_app. Qed.

Lemma encode_snoc ts t : encode (ts ++ [t]) = encode ts ++ nl :: t.
Proof. rewrite encode_app. f_equal. cbn. by rewrite app_nil_r. Qed.

(** The characters of a content: each record and the newline before
    it. *)
Lemma length_encode_snoc ts t :
  length (encode (ts ++ [t])) = length (encode ts) + S (length t).
Proof. by rewrite encode_snoc, length_app. Qed.

Lemma length_encode_sublist ts1 ts2 :
  ts1 `sublist_of` ts2 → length (encode ts1) ≤ length (encode ts2).
Proof.
  induction 1 as [|t ts1 ts2 _ IH|t ts1 ts2 _ IH];
    rewrite ?encode_cons; simpl; rewrite ?length_app; lia.
Qed.

Lemma length_encode_delete_record k rs :
  length (encode (delete_record k rs)) ≤ length (encode rs).
Proof.
  unfold delete_record. case_decide; [|done].
  apply length_encode_sublist, sublist_delete.
Qed.

Lemma unplines_encode l ts : unplines (l :: ts) = l ++ encode ts.
Proof.
  revert l. induction ts as [|t ts IH]; intros l; [by rewrite app_nil_r|].
  by rewrite unplines_cons, IH, encode_cons.
Qed.

Lemma plines_app_encode l ts :
  nl ∉ l → Forall (λ t, nl ∉ t) ts → plines (l ++ encode ts) = l :: ts.
Proof.
  intros Hl Hts. revert l Hl. induction Hts as [|t ts Ht Hts IH]; intros l Hl.
  - rewrite app_nil_r. by apply plines_no_nl.
  - rewrite encode_cons, plines_app by done. f_equal. by apply IH.
Qed.

Lemma plines_encode ts : Forall (λ t, nl ∉ t) ts → plines (encode ts) = [] :: ts.
Proof. intros. by apply (plines_app_encode []); [apply not_elem_of_nil|]. Qed.

Lemma Forall_good_text ts :
  Forall good_text ts ↔ Forall (λ t, t ≠ []) ts ∧ Forall (λ t, nl ∉ t) ts.
Proof. unfold good_text. apply Forall_and. Qed.

(** Reading back an encoding gives the records that were encoded. *)
Lemma records_encode ts : Forall good_text ts → records (encode ts) = ts.
Proof.
  intros [Hne Hnl]%Forall_good_text.
  rewrite records_plines, plines_encode, filter_cons, decide_False by naive_solver.
  clear Hnl. induction Hne as [|t ts Ht Hts IH]; [done|].
  by rewrite filter_cons, decide_True, IH.
Qed.

Lemma records_good c : Forall good_text (records c).
Proof. apply Forall_good_text. split; [apply records_nonempty|apply records_no_nl]. Qed.

Lemma canonical_encode ts : Forall good_text ts → canonical (encode ts).
Proof. intros. unfold canonical. by rewrite records_encode. Qed.

Lemma canonical_iff c : canonical c ↔ ∃ ts, Forall good_text ts ∧ c = encode ts.
Proof.
  split; [intros Hc; exists (records c); split; [apply records_good|done]|].
  intros (ts & Hts & ->). by apply canonical_encode.
Qed.

(** C33: reading back a file written from records gives
    those records: the encoding of texts that are each one record has them
    as its physical lines after an empty first line, as its records, and
    is canonical; so distinct lists of records have distinct encodings. *)
Theorem encode_records ts :
  Forall good_text ts →
  plines (encode ts) = [] :: ts ∧ records (encode ts) = ts ∧ canonical (encode ts).
Proof.
  intros Hts. split_and!.
  - by apply plines_encode, Forall_good_text.
  - by apply records_encode.
  - by apply canonical_encode.
Qed.

Lemma encode_records_witness :
  plines (encode [chars "a"; chars "b"]) = [] :: [chars "a"; chars "b"] ∧
  records (encode [chars "a"; chars "b"]) = [chars "a"; chars "b"] ∧
  canonical (encode [chars "a"; chars "b"]).
Proof. apply encode_records. repeat constructor; by_compute. Defined.

(** ** Appending *)

(** Appending a newline and a text [t] that is one record (not empty, no
    newline) to any file content adds [t] as the last record. *)
Lemma records_good_text t : good_text t → records t = [t].
Proof.
  intros [Hne Hnl]. rewrite records_plines, plines_no_nl by done.
  by rewrite filter_cons, decide_True.
Qed.

Lemma records_snoc c t :
  good_text t → records (c ++ nl :: t) = records c ++ [t].
Proof. intros Ht. rewrite records_app_nl. by rewrite (records_good_text t). Qed.

(** Appending the empty text adds a blank line and no record. *)
Lemma append_empty_records c : records (c ++ [nl]) = records c.
Proof. by rewrite records_app_nl, records_nil, app_nil_r. Qed.

Lemma append_canonical c t :
  canonical c → good_text t → canonical (c ++ nl :: t).
Proof.
  intros Hc Ht. unfold canonical. rewrite records_snoc, encode_snoc by done.
  by rewrite <-Hc.
Qed.

(** ** Deleting *)

Lemma drop_line_canonical k ts :
  unplines (drop_line k ([] :: ts)) = encode (delete_record k ts).
Proof.
  unfold delete_record. destruct (Z.lt_trichotomy k 1) as [?|[->|?]].
  - rewrite decide_False by lia. destruct (decide (k = 0%Z)) as [->|?].
    + by rewrite drop_line_0, unplines_encode.
    + by rewrite drop_line_neg, unplines_encode by lia.
  - rewrite drop_line_1_cons, decide_True by lia. rewrite unplines_encode.
    by destruct ts.
  - rewrite drop_line_S_cons, decide_True by lia. rewrite unplines_encode.
    rewrite drop_line_pos by lia. done.
Qed.

Lemma delete_record_good k ts :
  Forall good_text ts → Forall good_text (delete_record k ts).
Proof. intros. unfold delete_record. case_decide; [by apply Forall_delete|done]. Qed.

Lemma good_text_no_nl ts : Forall good_text ts → Forall (λ t, nl ∉ t) ts.
Proof. by intros [_ ?]%Forall_good_text. Qed.

(** The characters [delete_line] keeps of an encoding. *)
Lemma delete_line_loop_encode k ts :
  Forall good_text ts →
  ofs (delete_line_loop (k + 1) (encode ts)) = encode (delete_record k ts).
Proof.
  intros Hts. rewrite delete_line_loop_ofs, Z.add_simpl_r.
  rewrite plines_encode by by apply good_text_no_nl.
  apply drop_line_canonical.
Qed.

(** C4: on a canonical file content, deleting physical line [k + 1] (what
    [removeDB] does for index [k]) deletes record number [k]: the records
    before it keep their numbers, the records after it move down by one,
    and an index that is no record's number changes nothing. *)
Theorem delete_records c k :
  canonical c →
  records (ofs (delete_line_loop (k + 1) c)) = delete_record k (records c).
Proof.
  intros (ts & Hts & ->)%canonical_iff.
  rewrite delete_line_loop_encode, !records_encode; auto using delete_record_good.
Qed.

Lemma delete_records_witness :
  records (ofs (delete_line_loop (1 + 1) (encode [chars "buy milk"; chars "call mom"]))) =
  delete_record 1 (records (encode [chars "buy milk"; chars "call mom"])).
Proof. apply delete_records. compute_done. Defined.

(** Deleting keeps a canonical content canonical. *)
Theorem delete_canonical c k :
  canonical c → canonical (ofs (delete_line_loop (k + 1) c)).
Proof.
  intros (ts & Hts & ->)%canonical_iff. rewrite delete_line_loop_encode by done.
  by apply canonical_encode, delete_record_good.
Qed.

Lemma delete_canonical_witness :
  canonical (ofs (delete_line_loop (2 + 1) (encode [chars "a"; chars "b"]))).
Proof. apply delete_canonical. compute_done. Defined.

(** ** Numbers of the records after a deletion *)

Lemma delete_record_out_of_range k rs :
  (k < 1 ∨ Z.of_nat (length rs) < k)%Z → delete_record k rs = rs.
Proof.
  intros Hk. unfold delete_record. case_decide; [|done].
  apply list_delete_ge. lia.
Qed.

Lemma delete_record_lookup_lt k rs j :
  (Z.of_nat j < k - 1)%Z → delete_record k rs !! j = rs !! j.
Proof.
  intros Hj. unfold delete_record. rewrite decide_True by lia.
  apply list_lookup_delete_lt. lia.
Qed.

Lemma delete_record_lookup_ge k rs j :
  (1 ≤ k)%Z → (k - 1 ≤ Z.of_nat j)%Z → delete_record k rs !! j = rs !! S j.
Proof.
  intros Hk Hj. unfold delete_record. rewrite decide_True by lia.
  apply list_lookup_delete_ge. lia.
Qed.

Lemma delete_record_length k rs :
  (1 ≤ k ≤ Z.of_nat (length rs))%Z → length (delete_record k rs) = length rs - 1.
Proof.
  intros Hk. unfold delete_record. rewrite decide_True by lia.
  apply length_delete, lookup_lt_is_Some. lia.
Qed.

(** C32: on a canonical content, an index beyond the number of records
    (or below 1) makes [delete_line] rewrite the file unchanged. *)
Theorem delete_out_of_range c k :
  canonical c → (k < 1 ∨ Z.of_nat (length (records c)) < k)%Z →
  ofs (delete_line_loop (k + 1) c) = c.
Proof.
  intros Hc Hk. pose proof Hc as (ts & Hts & ->)%canonical_iff.
  rewrite delete_line_loop_encode, delete_record_out_of_range; try done.
  by rewrite records_encode in Hk.
Qed.

Lemma delete_out_of_range_witness :
  ofs (delete_line_loop (7 + 1) (encode [chars "a"; chars "b"])) =
  encode [chars "a"; chars "b"].
Proof. apply delete_out_of_range; [compute_done|]. right. by vm_compute. Defined.

(** ** Any content *)

(** Under the filter of the records, emptying the first line and deleting
    it are the same. *)
Lemma filter_drop_line d ls :
  ls ≠ [] → (0 ≤ d)%Z →
  filter (λ l : text, l ≠ []) (drop_line d ls) =
  filter (λ l : text, l ≠ []) (delete (Z.to_nat d) ls).
Proof.
  intros Hls Hd. unfold drop_line. destruct ls as [|l ls]; [done|].
  repeat case_decide; try lia; [by subst|done].
Qed.

(** The index [k] removes record number [k] as long as the file starts
    like a canonical one: an empty line, then at least [k] records without
    a blank line between them; what follows does not matter. *)
Lemma removed_record_prefix k s rs rest :
  plines s = [] :: rs ++ rest → Forall (λ l, l ≠ []) rs →
  (1 ≤ k ≤ Z.of_nat (length rs))%Z →
  removed_record k s = Some (Z.to_nat (k - 1)).
Proof.
  intros Hs Hrs Hk. unfold removed_record, record_on_line.
  rewrite decide_True, Hs by lia.
  replace (Z.to_nat k) with (S (Z.to_nat (k - 1))) by lia. simpl.
  destruct (lookup_lt_is_Some_2 rs (Z.to_nat (k - 1))) as [l Hl]; [lia|].
  rewrite lookup_app_l, Hl by lia. simpl.
  rewrite decide_True by (by eapply Forall_lookup_1 in Hrs).
  rewrite filter_cons_False, take_app_le by (try lia; naive_solver).
  rewrite filter_all by by apply Forall_take.
  f_equal. rewrite length_take. lia.
Qed.

(** The records after [delete_line], on any content. *)
Lemma records_delete_line_loop k s :
  records (ofs (delete_line_loop (k + 1) s)) =
  match removed_record k s with
  | Some i => delete i (records s)
  | None => records s
  end.
Proof.
  rewrite !records_plines, delete_line_loop_ofs, plines_unplines_drop_line.
  replace (k + 1 - 1)%Z with k by lia.
  unfold removed_record, record_on_line. case_decide as Hk.
  - rewrite filter_drop_line, filter_delete by auto using plines_nonempty.
    destruct (plines s !! Z.to_nat k) as [l|]; simpl; [|done]. by case_decide.
  - by rewrite drop_line_neg by lia.
Qed.

(** C5: on any file content, canonical or not, [delete_line] with
    [k + 1] (what [removeDB] passes for index [k]) removes from the
    records the one that sits on physical line [k + 1], whatever number
    that record has in the listing, and no record when that line is blank
    or missing or [k] is negative.  That is the record with number [k]
    whenever the file starts with an empty line followed by at least [k]
    records without a blank line between them. *)
Theorem delete_line_loop_records k s :
  records (ofs (delete_line_loop (k + 1) s)) =
    match removed_record k s with
    | Some i => delete i (records s)
    | None => records s
    end ∧
  ∀ rs rest,
    plines s = [] :: rs ++ rest → Forall (λ l, l ≠ []) rs →
    (1 ≤ k ≤ Z.of_nat (length rs))%Z →
    records (ofs (delete_line_loop (k + 1) s)) = delete_record k (records s).
Proof.
  split; [apply records_delete_line_loop|]. intros rs rest Hs Hrs Hk.
  rewrite records_delete_line_loop, (removed_record_prefix k s rs rest) by done.
  unfold delete_record. by rewrite decide_True by lia.
Qed.

Lemma delete_line_loop_records_witness :
  let s := encode [chars "a"; chars "b"] ++ nl :: nl :: chars "c" in
  records (ofs (delete_line_loop (2 + 1) s)) = delete_record 2 (records s).
Proof.
  intros s.
  apply (proj2 (delete_line_loop_records 2 s) [chars "a"; chars "b"] [[]; chars "c"]);
    by_compute.
Defined.

(** ** Contents that are not canonical *)

(** After [addDB] of the empty text the file holds a blank physical
    line, and record numbers no longer are physical line numbers minus
    one: with records "a", (blank), "b" deleting index 2 drops the blank
    line and leaves both records, and deleting index 3, which is the
    number of no record, drops record 2. *)
Example delete_after_blank_line :
  let c := encode [chars "a"] ++ [nl] ++ nl :: chars "b" in
  records c = [chars "a"; chars "b"] ∧
  records (ofs (delete_line_loop (2 + 1) c)) = [chars "a"; chars "b"] ∧
  records (ofs (delete_line_loop (3 + 1) c)) = [chars "a"].
Proof. by vm_compute. Qed.

(** On a file whose first physical line
    is a record (a file that [addDB] did not write, which is not
    canonical), index 0 removes the first record and leaves a blank line,
    and index 1 removes the second record. *)
Example delete_without_leading_newline :
  let c := chars "a" ++ nl :: chars "b" in
  ¬ canonical c ∧
  records c = [chars "a"; chars "b"] ∧
  records (ofs (delete_line_loop (0 + 1) c)) = [chars "b"] ∧
  records (ofs (delete_line_loop (1 + 1) c)) = [chars "a"].
Proof. by_compute. Qed.

(** ** The invariant is the weakest one *)

(** When [remove] deletes a record, the line it drops holds one. *)
Lemma deleted_line_record k s :
  (1 ≤ k ≤ Z.of_nat (length (records s)))%Z →
  records (ofs (delete_line_loop (k + 1) s)) = delete_record k (records s) →
  ∃ l, plines s !! Z.to_nat k = Some l ∧ l ≠ [].
Proof.
  intros Hk Heq. apply (f_equal length) in Heq.
  rewrite records_delete_line_loop, delete_record_length in Heq by done.
  unfold removed_record, record_on_line in Heq. rewrite decide_True in Heq by lia.
  destruct (plines s !! Z.to_nat k) as [l|]; simpl in Heq; [|lia].
  case_decide; [by exists l|lia].
Qed.

(** Lines of which those with the numbers 1 to [n] hold the [n] records:
    the first line is empty, and so are the lines after them. *)
Lemma lines_tidy (ls : list text) :
  ls ≠ [] →
  (∀ j, 1 ≤ j ≤ length (filter (λ l, l ≠ []) ls) →
        ∃ l, ls !! j = Some l ∧ l ≠ []) →
  ∃ rs rest, ls = [] :: rs ++ rest ∧ Forall (λ l, l ≠ []) rs ∧
             Forall (λ l, l = []) rest ∧
             length rs = length (filter (λ l : text, l ≠ []) ls).
Proof.
  intros Hne Hlines. destruct ls as [|l0 ls]; [done|]. clear Hne.
  set (n := length (filter (λ l : text, l ≠ []) (l0 :: ls))) in *.
  assert (n ≤ length ls) as Hlen.
  { destruct (decide (n = 0)) as [->|]; [lia|].
    destruct (Hlines n) as (l & Hl%lookup_lt_Some & _); [lia|]. simpl in Hl. lia. }
  assert (Forall (λ l, l ≠ []) (take n ls)) as Hrs.
  { apply Forall_lookup. intros j l [Hl Hj]%lookup_take_Some.
    destruct (Hlines (S j)) as (l' & Hl' & ?); [lia|]. simpl in Hl'. congruence. }
  pose proof (eq_refl n) as Hn. unfold n at 1 in Hn.
  rewrite <-(take_drop n ls), filter_cons, filter_app, (filter_all _ (take n ls)) in Hn
    by done.
  exists (take n ls), (drop n ls).
  assert (length (take n ls) = n) as Htake by (rewrite length_take; lia).
  destruct (decide (l0 ≠ [])) as [|Hl0%dec_stable]; simpl in Hn;
    rewrite ?length_app, Htake in Hn; [lia|].
  subst l0. rewrite take_drop. split_and!; [done..| |done].
  apply Forall_forall. intros l Hl. apply dec_stable. intros Hl'.
  assert (l ∈ filter (λ l : text, l ≠ []) (drop n ls)) as Hin
    by by apply list_elem_of_filter.
  destruct (filter _ (drop n ls)); [by apply elem_of_nil in Hin|simpl in Hn; lia].
Qed.

(** The contents on which [add] then [remove] meet the contract are
    canonical. *)
Lemma contract_invariant_canonical I s : contract_invariant I → I s → canonical s.
Proof.
  intros [Happ Hdel] Hs.
  destruct (lines_tidy (plines s)) as (rs & rest & Hls & Hrs & Hrest & Hlen);
    [apply plines_nonempty| |].
  { intros j Hj. rewrite <-records_plines in Hj.
    destruct (deleted_line_record (Z.of_nat j) s) as (l & Hl & ?);
      [lia|apply Hdel; [done|lia]|].
    exists l. by rewrite Nat2Z.id in Hl. }
  rewrite <-records_plines in Hlen.
  (* one more record: the line after the records holds it *)
  set (t := ["x"%char]). assert (good_text t) as Ht by by_compute.
  destruct (deleted_line_record (Z.of_nat (S (length rs))) (s ++ nl :: t))
    as (l & Hl & Hne).
  { rewrite records_snoc, length_app by done. simpl. lia. }
  { apply Hdel; [by apply Happ|].
    rewrite records_snoc, length_app by done. simpl. lia. }
  rewrite Nat2Z.id, plines_app_nl, (plines_no_nl t), Hls in Hl by by destruct Ht.
  simpl in Hl. rewrite <-app_assoc, lookup_app_r, Nat.sub_diag in Hl by done.
  destruct rest as [|r rest].
  - apply canonical_iff. exists rs. rewrite app_nil_r in Hls. split.
    + apply Forall_good_text. split; [done|].
      pose proof (plines_Forall_no_nl s) as Hnl. rewrite Hls in Hnl.
      by apply Forall_cons in Hnl as [_ ?].
    + by rewrite <-(unplines_plines s), Hls, unplines_encode.
  - apply Forall_cons in Hrest as [-> _]. simpl in Hl. congruence.
Qed.

(** C6: the invariant of the store is the weakest one.  The canonical
    contents are closed under [add] of a record, and on them [remove]
    deletes the record with the number given; and every set of contents
    with these two properties holds canonical contents only.  So there is
    no larger class of database files on which the program meets the
    contract of the record store. *)
Theorem canonical_weakest :
  contract_invariant canonical ∧
  ∀ I, contract_invariant I → ∀ s, I s → canonical s.
Proof.
  split; [|intros I HI s; by apply contract_invariant_canonical].
  split; [intros s t; apply append_canonical|].
  intros s k (ts & Hts & ->)%canonical_iff _.
  rewrite delete_line_loop_encode, !records_encode; auto using delete_record_good.
Qed.
