(* ===== verification/Match.v ===== *)
(** * Match: the substring test of [searchDB]

    [is_match] (src/main.cpp, lines 230-232) is
    [std::string::npos != text.find(pattern)].  [find] models
    [std::string::find] from position 0: the least position at which
    [pattern] occurs in [text], [None] standing for [npos].  The theorems
    say that [find] returns the first occurrence and that [is_match] decides
    "[pattern] is a contiguous part of [text]", compared byte by byte. *)

From S2P Require Import Prelude.

(** ** The search *)

Fixpoint find (text pattern : text) : option nat :=
  if decide (pattern `prefix_of` text) then Some 0
  else match text with
       | [] => None
       | _ :: text' => S <$> find text' pattern
       end.

Definition is_match (text pattern : text) : bool :=
  bool_decide (find text pattern ≠ None).

(** ** Reference notion: [p] occurs in [s] at position [i] *)

Definition occurs_at (p s : text) (i : nat) : Prop :=
  p `prefix_of` drop i s ∧ i ≤ length s.

Definition infix_of (p s : text) : Prop := ∃ l r, s = l ++ p ++ r.

(** ** [find] returns the first occurrence *)

Lemma find_unfold s p :
  find s p =
  if decide (p `prefix_of` s) then Some 0
  else match s with [] => None | _ :: s' => S <$> find s' p end.
Proof. by destruct s. Qed.

Lemma occurs_at_0 p s : occurs_at p s 0 ↔ p `prefix_of` s.
Proof. unfold occurs_at. simpl. intuition lia. Qed.

Lemma occurs_at_S p c s i : occurs_at p (c :: s) (S i) ↔ occurs_at p s i.
Proof. unfold occurs_at. simpl. intuition lia. Qed.

Lemma occurs_at_infix p s i : occurs_at p s i → infix_of p s.
Proof.
  intros [[r Hr] Hi]. exists (take i s), r.
  by rewrite <-Hr, take_drop.
Qed.

Lemma infix_occurs_at p s l r : s = l ++ p ++ r → occurs_at p s (length l).
Proof.
  intros ->. split; [|rewrite length_app; lia].
  rewrite drop_app_length. by exists r.
Qed.

Lemma find_Some_1 s p i :
  find s p = Some i → occurs_at p s i ∧ ∀ j, j < i → ¬ occurs_at p s j.
Proof.
  revert i. induction s as [|c s IH]; intros i; rewrite find_unfold;
    case_decide as Hp; try done.
  - intros [= <-]. split; [by apply occurs_at_0|lia].
  - intros [= <-]. split; [by apply occurs_at_0|lia].
  - destruct (find s p) as [k|]; [|done]. intros [= <-].
    destruct (IH k eq_refl) as [Hk Hmin]. split; [by apply occurs_at_S|].
    intros [|j] ?; [by rewrite occurs_at_0|].
    rewrite occurs_at_S. apply Hmin. lia.
Qed.

Lemma find_None_1 s p i : find s p = None → ¬ occurs_at p s i.
Proof.
  revert i. induction s as [|c s IH]; intros i; rewrite find_unfold;
    case_decide as Hp; try done.
  - intros _ [Hi Hlen]. simpl in Hlen. by replace i with 0 in Hi by lia.
  - destruct (find s p) eqn:E; [done|]. intros _.
    destruct i as [|i]; [by rewrite occurs_at_0|].
    rewrite occurs_at_S. by apply IH.
Qed.

(** [find] returns the least position at which the pattern
    occurs in the text, as [std::string::find] does. *)
Theorem find_Some s p i :
  find s p = Some i ↔ occurs_at p s i ∧ ∀ j, j < i → ¬ occurs_at p s j.
Proof.
  split; [apply find_Some_1|]. intros [Hi Hmin].
  destruct (find s p) as [k|] eqn:E; [|by apply find_None_1 with (i:=i) in E].
  apply find_Some_1 in E as [Hk Hmink]. f_equal.
  destruct (Nat.lt_trichotomy i k) as [?|[?|?]]; [|done|].
  - by destruct (Hmink i).
  - by destruct (Hmin k).
Qed.

Lemma find_None s p : find s p = None ↔ ¬ infix_of p s.
Proof.
  split.
  - intros E (l & r & Hs). eapply find_None_1; [done|]. by eapply infix_occurs_at.
  - intros Hno. destruct (find s p) as [k|] eqn:E; [|done].
    apply find_Some_1 in E as [Hk _]. by apply occurs_at_infix in Hk.
Qed.

(** ** [is_match] *)

(** [is_match text pattern] holds exactly when [pattern] occurs in [text]
    as a contiguous sequence of characters. *)
Lemma is_match_spec s p : is_match s p = true ↔ infix_of p s.
Proof.
  unfold is_match. rewrite bool_decide_eq_true. split.
  - destruct (find s p) as [k|] eqn:E; [|done]. intros _.
    apply find_Some_1 in E as [Hk _]. by apply occurs_at_infix in Hk.
  - intros Hin E. by apply find_None in E.
Qed.

#[export] Instance infix_of_dec p s : Decision (infix_of p s).
Proof.
  refine (cast_if (decide (is_match s p = true))); by rewrite <-is_match_spec.
Defined.

(** The empty pattern matches every text, the empty one included. *)
Lemma is_match_nil s : is_match s [] = true.
Proof. apply is_match_spec. by exists [], s. Qed.

Lemma is_match_refl s : is_match s s = true.
Proof. apply is_match_spec. exists [], []. by rewrite app_nil_r. Qed.

(** A pattern longer than the text does not match. *)
Lemma is_match_length s p : is_match s p = true → length p ≤ length s.
Proof.
  intros (l & r & ->)%is_match_spec. rewrite !length_app. lia.
Qed.

Lemma is_match_app s p l r : is_match s p = true → is_match (l ++ s ++ r) p = true.
Proof.
  rewrite !is_match_spec. intros (l' & r' & ->). exists (l ++ l'), (r' ++ r).
  by rewrite <-!app_assoc.
Qed.

(** The comparison is by character code: upper and lower case differ. *)
Example is_match_case_sensitive :
  is_match (chars "call Mom") (chars "mom") = false ∧
  is_match (chars "call mom") (chars "mom") = true.
Proof. by vm_compute. Qed.
