(* ===== verification/Spec.v ===== *)
(** * Spec: the contract of the record store

    [RecordStore] states what the store promises to its caller, in terms
    of records only: the state of a store is either not initialized or a
    list of records; [initialize] empties it, [append] adds a record at the
    end, [deleteAt] removes the record with a given number, [wipe] returns
    to the state not initialized, and listing and searching show numbered
    records.  The laws speak about the states that satisfy [store_ok], the
    invariant of the implementation.

    [model] is the reference implementation on [option (list text)].  The
    theorems of the section [client] are proved from the laws alone, so they
    hold of every implementation: a sequence of commands leaves the same
    records as it does in the model ([run_refines]). *)

From S2P Require Import Prelude Lines DeleteLine Records Match.

(** ** Numbered listings *)

(** The records with their numbers, counted from [i]. *)
Fixpoint numbered_from (i : Z) (rs : list text) : list (Z * text) :=
  match rs with
  | [] => []
  | r :: rs => (i, r) :: numbered_from (i + 1) rs
  end.

Definition numbered (rs : list text) : list (Z * text) := numbered_from 1 rs.

(** The numbered records whose text contains [p]. *)
Definition matching (p : text) (es : list (Z * text)) : list (Z * text) :=
  filter (λ e, is_match e.2 p = true) es.

(** One printed entry, ["N. text\n"], and a printed listing. *)
Definition render_entry (e : Z * text) : text :=
  show_int e.1 ++ chars ". " ++ e.2 ++ [nl].

Definition render (es : list (Z * text)) : text := concat (render_entry <$> es).

(** ** The interface *)

Class RecordStore (St : Type) := {
  store_ok : St → Prop;
  contents : St → option (list text);
  initialize : St → St;
  append : text → St → St;
  deleteAt : Z → St → St;
  wipe : St → St;
  listing : St → option text;
  search : text → St → option text;

  initialize_ok s : store_ok s → store_ok (initialize s);
  append_ok t s : store_ok s → good_text t → store_ok (append t s);
  deleteAt_ok k s : store_ok s → in_int (k + 1) → store_ok (deleteAt k s);
  wipe_ok s : store_ok s → store_ok (wipe s);

  initialize_contents s : store_ok s → contents (initialize s) = Some [];
  append_contents t s :
    store_ok s → good_text t →
    contents (append t s) = (λ rs, rs ++ [t]) <$> contents s;
  deleteAt_contents k s :
    store_ok s → in_int (k + 1) →
    contents (deleteAt k s) = delete_record k <$> contents s;
  wipe_contents s : store_ok s → contents (wipe s) = None;
  listing_contents s : store_ok s → listing s = render ∘ numbered <$> contents s;
  search_contents p s :
    store_ok s → search p s = render ∘ matching p ∘ numbered <$> contents s
}.

(** ** The reference implementation *)

#[export, refine] Instance model : RecordStore (option (list text)) := {|
  store_ok _ := True;
  contents m := m;
  initialize _ := Some [];
  append t m := (λ rs, rs ++ [t]) <$> m;
  deleteAt k m := delete_record k <$> m;
  wipe _ := None;
  listing m := render ∘ numbered <$> m;
  search p m := render ∘ matching p ∘ numbered <$> m
|}.
Proof. all: done. Defined.

(** ** Commands *)

Inductive command :=
  | Initialize
  | Append (t : text)
  | DeleteAt (k : Z)
  | Wipe.

(** The commands the contract covers: the appended text is one record, and
    the index is an [int] below [INT_MAX]. *)
Definition good_command (c : command) : Prop :=
  match c with
  | Append t => good_text t
  | DeleteAt k => in_int (k + 1)
  | _ => True
  end.

Definition step `{RecordStore St} (s : St) (c : command) : St :=
  match c with
  | Initialize => initialize s
  | Append t => append t s
  | DeleteAt k => deleteAt k s
  | Wipe => wipe s
  end.

Definition run `{RecordStore St} (cs : list command) (s : St) : St :=
  foldl step s cs.

(** ** Numbering *)

Lemma numbered_from_app i rs1 rs2 :
  numbered_from i (rs1 ++ rs2) =
  numbered_from i rs1 ++ numbered_from (i + Z.of_nat (length rs1)) rs2.
Proof.
  revert i. induction rs1 as [|r rs1 IH]; intros i; simpl.
  - by rewrite Z.add_0_r.
  - rewrite IH. do 3 f_equal. lia.
Qed.

Lemma numbered_from_lookup i rs k :
  numbered_from i rs !! k = (λ r, ((i + Z.of_nat k)%Z, r)) <$> rs !! k.
Proof.
  revert i k. induction rs as [|r rs IH]; intros i [|k]; simpl; try done.
  - by rewrite Z.add_0_r.
  - rewrite IH. destruct (rs !! k); simpl; [|done]. do 2 f_equal. lia.
Qed.

Lemma numbered_from_fst i rs : (numbered_from i rs).*1 = seqZ i (Z.of_nat (length rs)).
Proof.
  revert i. induction rs as [|r rs IH]; intros i; [done|].
  simpl length. rewrite Nat2Z.inj_succ, seqZ_cons by lia. simpl.
  rewrite IH. do 2 f_equal; lia.
Qed.

Lemma numbered_from_snd i rs : (numbered_from i rs).*2 = rs.
Proof. revert i. induction rs as [|r rs IH]; intros i; simpl; by rewrite ?IH. Qed.

(** The numbers of a listing are 1, 2, ..., the number of records. *)
Lemma numbered_fst rs : (numbered rs).*1 = seqZ 1 (Z.of_nat (length rs)).
Proof. apply numbered_from_fst. Qed.

Lemma numbered_snd rs : (numbered rs).*2 = rs.
Proof. apply numbered_from_snd. Qed.

Lemma length_numbered rs : length (numbered rs) = length rs.
Proof. by rewrite <-(numbered_snd rs) at 2; rewrite length_fmap. Qed.

Lemma numbered_snoc rs t :
  numbered (rs ++ [t]) = numbered rs ++ [((Z.of_nat (length rs) + 1)%Z, t)].
Proof.
  unfold numbered. rewrite numbered_from_app. simpl. do 3 f_equal. lia.
Qed.

Lemma render_app es1 es2 : render (es1 ++ es2) = render es1 ++ render es2.
Proof. unfold render. by rewrite fmap_app, concat_app. Qed.

Lemma render_cons e es : render (e :: es) = render_entry e ++ render es.
Proof. done. Qed.

(** Searching selects entries of the listing and keeps their numbers. *)
Lemma matching_sublist p es : matching p es `sublist_of` es.
Proof. apply sublist_filter. Qed.

(** The entries that a search for [p] selects are
    exactly the entries of the listing whose text contains [p] as a
    contiguous, case-sensitive sequence of characters, each with the
    number it has in the listing. *)
Theorem elem_of_matching p es k t :
  (k, t) ∈ matching p es ↔ (k, t) ∈ es ∧ infix_of p t.
Proof.
  unfold matching. rewrite list_elem_of_filter. simpl.
  rewrite is_match_spec. tauto.
Qed.

(** ** What every implementation does *)

Section client.
Context `{RecordStore St}.

Lemma step_ok s c : store_ok s → good_command c → store_ok (step s c).
Proof.
  destruct c; simpl; auto using initialize_ok, append_ok, deleteAt_ok, wipe_ok.
Qed.

Lemma step_contents s c :
  store_ok s → good_command c → contents (step s c) = step (contents s) c.
Proof.
  destruct c; simpl;
    auto using initialize_contents, append_contents, deleteAt_contents, wipe_contents.
Qed.

(** Every implementation of the contract refines the reference model:
    from a state that satisfies the invariant, a sequence of commands keeps
    the invariant and leaves the records that the same commands leave in
    the model. *)
Lemma run_refines cs s :
  store_ok s → Forall good_command cs →
  store_ok (run cs s) ∧ contents (run cs s) = run cs (contents s).
Proof.
  intros Hs Hcs. revert s Hs.
  induction Hcs as [|c cs Hc Hcs IH]; intros s Hs; [done|].
  unfold run in *. simpl. rewrite <-(step_contents s c) by done.
  by apply IH, step_ok.
Qed.

(** After [wipe] the store is not initialized: listing and searching
    show nothing, until the next [initialize]. *)
Lemma wipe_listing s p :
  store_ok s → listing (wipe s) = None ∧ search p (wipe s) = None.
Proof.
  intros Hs. pose proof (wipe_ok s Hs).
  by rewrite listing_contents, search_contents, wipe_contents.
Qed.

(** Appending a record to [n] records shows it as entry [n + 1] of the
    listing, after the entries there were. *)
Lemma append_listing s t rs :
  store_ok s → good_text t → contents s = Some rs →
  listing (append t s) =
  Some (render (numbered rs) ++ render_entry ((Z.of_nat (length rs) + 1)%Z, t)).
Proof.
  intros Hs Ht Hrs. pose proof (append_ok t s Hs Ht).
  rewrite listing_contents, append_contents, Hrs by done. simpl.
  rewrite numbered_snoc, render_app. do 2 f_equal. apply app_nil_r.
Qed.

(** After deleting record [k], the records with a smaller number keep it
    and the records with a larger number move down by one. *)
Lemma deleteAt_listing s k rs j :
  store_ok s → in_int (k + 1) → (1 ≤ k)%Z → contents s = Some rs →
  ∃ rs', contents (deleteAt k s) = Some rs' ∧
    rs' !! j = if decide (Z.of_nat j < k - 1)%Z then rs !! j else rs !! S j.
Proof.
  intros Hs Hk ? Hrs. exists (delete_record k rs).
  rewrite deleteAt_contents, Hrs by done. split; [done|]. case_decide.
  - by apply delete_record_lookup_lt.
  - apply delete_record_lookup_ge; lia.
Qed.

End client.
