(* ===== verification/World.v ===== *)
(** * World: the process state and the effects of the program

    The program acts on the file system, reads its environment and one
    character of standard input, writes to standard output, and may end
    early through [exit(1)].  [world] is that state, [prog A] a computation
    on it that returns an [A], exits, aborts or has undefined behaviour.
    The primitives below model the library calls of src/main.cpp, one
    definition per call; each says which behaviour of the C++ library it
    models.

    The file system is a finite map from path names to nodes (a regular
    file with its content, or a directory).  Path names are compared as
    written.  An entry can be created only in a directory that exists
    ([dirname] gives the directory of a path), and a directory can be
    removed only when nothing is in it; a directory is copied with the
    regular files in it.  Every directory is writable. *)

From S2P Require Import Prelude Lines.

(** ** State *)

Inductive node :=
  | File (content : text)
  | Dir.

#[export] Instance node_eq_dec : EqDecision node.
Proof. solve_decision. Defined.

Record world := World {
  fs : gmap string node;       (* the file system *)
  env : gmap string string;    (* the environment variables *)
  stdin : text;                (* unread characters of standard input *)
  stdout : text                (* characters written to standard output *)
}.

Definition set_fs (f : gmap string node → gmap string node) (w : world) : world :=
  World (f (fs w)) (env w) (stdin w) (stdout w).

Definition print (t : text) (w : world) : world :=
  World (fs w) (env w) (stdin w) (stdout w ++ t).

Definition set_stdin (inp : text) (w : world) : world :=
  World (fs w) (env w) inp (stdout w).

(** ** Outcomes and the monad *)

Inductive outcome (A : Type) :=
  | Ret (a : A)          (* the call returns *)
  | Exit (code : Z)      (* [exit(code)] *)
  | Abort                (* an exception that nothing catches *)
  | Undef.               (* undefined behaviour *)
Arguments Ret {A} a.
Arguments Exit {A} code.
Arguments Abort {A}.
Arguments Undef {A}.

Definition prog (A : Type) : Type := world → outcome A * world.

#[export] Instance prog_ret : MRet prog := λ A a w, (Ret a, w).

#[export] Instance prog_bind : MBind prog := λ A B k c w,
  match c w with
  | (Ret a, w') => k a w'
  | (Exit code, w') => (Exit code, w')
  | (Abort, w') => (Abort, w')
  | (Undef, w') => (Undef, w')
  end.

(** Two programs are equivalent when they have the same outcome and leave
    the same world, whatever the world they start in. *)
#[export] Instance prog_equiv {A} : Equiv (prog A) := λ c1 c2, ∀ w, c1 w = c2 w.

(** ** Process primitives *)

(** A statement that does nothing. *)
Definition skip : prog unit := mret ().

(** [exit(code)] *)
Definition exit {A} (code : Z) : prog A := λ w, (Exit code, w).

(** An uncaught exception ([std::terminate]). *)
Definition abort {A} : prog A := λ w, (Abort, w).

(** Undefined behaviour. *)
Definition undef {A} : prog A := λ w, (Undef, w).

(** [std::cout << t] *)
Definition cout (t : text) : prog unit := λ w, (Ret (), print t w).

(** [std::getchar()]: the next character of standard input, [None] for
    [EOF]. *)
Definition getchar : prog (option ascii) := λ w,
  match stdin w with
  | [] => (Ret None, w)
  | c :: rest => (Ret (Some c), set_stdin rest w)
  end.

(** [std::getenv(name)]: [None] is the null pointer. *)
Definition getenv (name : string) : prog (option string) := λ w,
  (Ret (env w !! name), w).

(** ** Paths *)

(** [p / q] for a relative [q] on POSIX: [q] alone when [p] is empty, no
    separator added when [p] ends with one. *)
Definition path_append (p q : string) : string :=
  match last (chars p) with
  | None => q
  | Some c => if decide (c = "/"%char) then p +:+ q else p +:+ "/" +:+ q
  end.

(** [p.filename()]: the characters after the last separator. *)
Definition filename (p : string) : string :=
  str (reverse (take_while (λ c, c ≠ "/"%char) (reverse (chars p)))).

(** The directory in which [p] is an entry, as [p.parent_path()] gives
    it: [p] without its file name and the separators before it; the root
    for an entry of the root, the empty path (the current directory) for a
    name without separator. *)
Definition dirname (p : string) : string :=
  let upto := drop_while (λ c, c ≠ "/"%char) (reverse (chars p)) in
  let dir := drop_while (λ c, c = "/"%char) upto in
  if decide (upto = []) then ""
  else if decide (dir = []) then "/"
  else str (reverse dir).

(** The directory of [p] exists. *)
Definition parent_dir (f : gmap string node) (p : string) : bool :=
  match f !! dirname p with
  | Some Dir => true
  | _ => false
  end.

(** Something is in the directory [d]. *)
Definition has_entries (f : gmap string node) (d : string) : Prop :=
  map_Exists (λ q _, dirname q = d ∧ q ≠ d) f.

(** The regular files in the directory [d], each with its path and its
    content: what a [directory_iterator] on [d] delivers to [copy]. *)
Definition dir_files (f : gmap string node) (d : string) : list (string * text) :=
  omap (λ '(q, n),
          match n with
          | File c => if decide (dirname q = d ∧ q ≠ d) then Some (q, c) else None
          | Dir => None
          end) (map_to_list f).

(** [p] is written as a path below the directory [d]. *)
Definition inside (d p : string) : Prop := ∃ q, p = path_append d q.

(** ** File-system primitives *)

(** [std::filesystem::exists(p)] *)
Definition fs_exists (p : string) : prog bool := λ w,
  (Ret (bool_decide (is_Some (fs w !! p))), w).

(** [std::filesystem::create_directory(p)]: creates the directory in a
    directory that exists; an existing directory is left alone; an
    existing file, and a path whose directory is missing, are errors (the
    exception is not caught). *)
Definition create_directory (p : string) : prog unit := λ w,
  match fs w !! p with
  | None =>
      if parent_dir (fs w) p then (Ret (), set_fs <[p := Dir]> w) else (Abort, w)
  | Some Dir => (Ret (), w)
  | Some (File _) => (Abort, w)
  end.

(** [std::filesystem::remove(p)]: removes the file or the empty directory
    and returns whether there was one; a directory that is not empty is an
    error. *)
Definition fs_remove (p : string) : prog bool := λ w,
  match fs w !! p with
  | None => (Ret false, w)
  | Some (File _) => (Ret true, set_fs (delete p) w)
  | Some Dir =>
      if decide (has_entries (fs w) p) then (Abort, w)
      else (Ret true, set_fs (delete p) w)
  end.

(** [std::filesystem::copy] of the regular file with name [x] and content
    [c] to [to]: the file is created at [to] when nothing is there and the
    directory of [to] exists, or under its own name in the directory at
    [to]; anything else is an error, for no option allows to overwrite. *)
Definition copy_regular (x : string) (c : text) (to : string) : prog unit := λ w,
  match fs w !! to with
  | None =>
      if parent_dir (fs w) to then (Ret (), set_fs <[to := File c]> w) else (Abort, w)
  | Some Dir =>
      let entry := path_append to x in
      if decide (fs w !! entry = None) then (Ret (), set_fs <[entry := File c]> w)
      else (Abort, w)
  | Some (File _) => (Abort, w)
  end.

(** The loop of [copy] over the entries of a directory: each regular file
    is copied to [to] under its own name.  The first error ends the
    loop, with the files copied before it in place. *)
Fixpoint copy_files (entries : list (string * text)) (to : string) : prog unit :=
  match entries with
  | [] => skip
  | (q, c) :: entries =>
      copy_regular (filename q) c (path_append to (filename q));;
      copy_files entries to
  end.

(** [std::filesystem::copy(from, to)] with no option.  A regular file is
    copied as [copy_regular] says.  For a directory, the directory [to] is
    created when it is missing, and the regular files in [from] are copied
    into it (directories in [from] are left out: no option asks for
    recursion); a regular file at [to] is an error, and so is a copy of a
    directory to itself.  A missing source is an error. *)
Definition fs_copy (from to : string) : prog unit := λ w,
  match fs w !! from with
  | None => (Abort, w)
  | Some (File c) => copy_regular (filename from) c to w
  | Some Dir =>
      match fs w !! to with
      | Some (File _) => (Abort, w)
      | _ =>
          if decide (from = to) then (Abort, w)
          else (create_directory to;; copy_files (dir_files (fs w) from) to) w
      end
  end.

(** ** Streams *)

(** Opening a [std::ifstream] on [p]: the stream is good when [p] is a
    regular file. *)
Definition ifstream_open (p : string) : prog bool := λ w,
  (Ret (match fs w !! p with Some (File _) => true | _ => false end), w).

(** The characters that a good input stream on [p] delivers until the end
    of the file; a stream that failed to open delivers none. *)
Definition ifstream_chars (p : string) (good : bool) : prog text := λ w,
  (Ret (match fs w !! p with
        | Some (File c) => if good then c else []
        | _ => []
        end), w).

(** Opening a [std::ofstream] on [p] (mode [out]): the file is truncated,
    or created when its directory exists; opening fails on a directory and
    in a directory that is missing. *)
Definition ofstream_open (p : string) : prog bool := λ w,
  match fs w !! p with
  | Some Dir => (Ret false, w)
  | Some (File _) => (Ret true, set_fs <[p := File []]> w)
  | None =>
      if parent_dir (fs w) p then (Ret true, set_fs <[p := File []]> w)
      else (Ret false, w)
  end.

(** Opening a [std::fstream] on [p] with [out | app]: the file keeps its
    content, or is created when its directory exists; opening fails on a
    directory and in a directory that is missing. *)
Definition fstream_open_app (p : string) : prog bool := λ w,
  match fs w !! p with
  | Some Dir => (Ret false, w)
  | Some (File _) => (Ret true, w)
  | None =>
      if parent_dir (fs w) p then (Ret true, set_fs <[p := File []]> w)
      else (Ret false, w)
  end.

(** [f << t] followed, at the latest at [close], by the write to the file:
    the characters are added at the end of the file; a stream that failed
    to open drops them. *)
Definition stream_write (p : string) (good : bool) (t : text) : prog unit := λ w,
  match fs w !! p with
  | Some (File c) => if good then (Ret (), set_fs <[p := File (c ++ t)]> w) else (Ret (), w)
  | _ => (Ret (), w)
  end.

(** ** The reading loop *)

(** [while (std::getline(f, line)) body] on a stream whose unread
    characters are [s]; [st] is the state the body updates. *)
Fixpoint while_getline_go {St} (body : text → St → prog St) (fuel : nat)
    (s : text) (st : St) : prog St :=
  match fuel with
  | 0 => mret st
  | S fuel =>
      match getline s with
      | None => mret st
      | Some (line, rest) =>
          st' ← body line st; while_getline_go body fuel rest st'
      end
  end.

Definition while_getline {St} (body : text → St → prog St) (s : text) (st : St) : prog St :=
  while_getline_go body (S (length s)) s st.

(** The body run on each line of a list in turn (reference definition). *)
Fixpoint for_lines {St} (body : text → St → prog St) (ls : list text) (st : St) : prog St :=
  match ls with
  | [] => mret st
  | l :: ls => st' ← body l st; for_lines body ls st'
  end.

(** ** Observing a run *)

(** The world a program leaves, and what it printed when it returned
    (started with an empty standard output). *)
Definition exec {A} (c : prog A) (w : world) : world := (c w).2.

Definition printed {A} (c : prog A) (w : world) : option text :=
  match c (World (fs w) (env w) (stdin w) []) with
  | (Ret _, w') => Some (stdout w')
  | _ => None
  end.

(** ** Laws of the monad *)

Create HintDb prog discriminated.

#[export] Hint Unfold skip exit abort undef cout getchar
  getenv fs_exists parent_dir create_directory fs_remove copy_regular fs_copy
  ifstream_open ifstream_chars ofstream_open fstream_open_app stream_write
  set_fs : prog.

Lemma bind_ret_l {A B} (a : A) (k : A → prog B) : (mret a ≫= k) = k a.
Proof. done. Qed.

Lemma ret_run {A} (a : A) w : (mret a : prog A) w = (Ret a, w).
Proof. done. Qed.

Lemma bind_run {A B} (c : prog A) (k : A → prog B) w :
  (c ≫= k) w =
  match c w with
  | (Ret a, w') => k a w'
  | (Exit code, w') => (Exit code, w')
  | (Abort, w') => (Abort, w')
  | (Undef, w') => (Undef, w')
  end.
Proof. done. Qed.

(** ** Programs that run alike

    [bind] and the observations of a run respect the equivalence of
    programs, so that the laws below rewrite inside a program. *)

#[export] Instance prog_equivalence {A} : Equivalence (≡@{prog A}).
Proof.
  split; [by intros c w|by intros c1 c2 H w|].
  intros c1 c2 c3 H1 H2 w. by rewrite H1.
Qed.

#[export] Instance mbind_proper {A B} :
  Proper (pointwise_relation A (≡) ==> (≡) ==> (≡)) (mbind (M := prog) (B := B)).
Proof.
  intros k1 k2 Hk c1 c2 Hc w. rewrite !bind_run, Hc.
  destruct (c2 w) as [[]]; [apply Hk|done..].
Qed.

#[export] Instance exec_proper {A} : Proper ((≡) ==> (=) ==> (=)) (exec (A := A)).
Proof. intros c1 c2 Hc w ? <-. unfold exec. by rewrite Hc. Qed.

Lemma bind_assoc {A B C} (c : prog A) (k : A → prog B) (h : B → prog C) :
  (c ≫= k) ≫= h ≡ c ≫= (λ a, k a ≫= h).
Proof. intros w. rewrite !bind_run. by destruct (c w) as [[]]. Qed.

Lemma bind_ret_r {A} (c : prog A) : c ≫= mret ≡ c.
Proof. intros w. rewrite bind_run. by destruct (c w) as [[]]. Qed.

Lemma bind_skip_r (c : prog ()) : (c;; skip) ≡ c.
Proof. intros w. rewrite bind_run. by destruct (c w) as [[[]| | |] w']. Qed.

(** ** The reading loop runs its body on the lines of [getlines] *)

Section while_getline.
Context {St : Type} (body : text → St → prog St).

Lemma while_getline_go_for_lines fuel s st w :
  length s < fuel →
  while_getline_go body fuel s st w = for_lines body (getlines s) st w.
Proof.
  revert s st w. induction fuel as [|fuel IH]; intros s st w Hlen; [lia|].
  rewrite getlines_unfold. simpl.
  destruct (getline s) as [[line rest]|] eqn:E; [|done].
  apply getline_shorter in E. simpl. rewrite !bind_run.
  destruct (body line st w) as [[st'| | |] w']; [|done..]. apply IH. lia.
Qed.

Lemma while_getline_for_lines s st w :
  while_getline body s st w = for_lines body (getlines s) st w.
Proof. apply while_getline_go_for_lines. lia. Qed.

End while_getline.

(** Bodies that run alike make loops that run alike. *)
#[export] Instance for_lines_proper {St} :
  Proper (pointwise_relation _ (pointwise_relation _ (≡)) ==> (=) ==> (=) ==> (≡))
    (for_lines (St := St)).
Proof.
  intros body1 body2 Hbody ls ? <- st ? <-. revert st.
  induction ls as [|l ls IH]; intros st; simpl; [done|].
  apply mbind_proper; [exact IH|apply Hbody].
Qed.

#[export] Instance while_getline_proper {St} :
  Proper (pointwise_relation _ (pointwise_relation _ (≡)) ==> (=) ==> (=) ==> (≡))
    (while_getline (St := St)).
Proof.
  intros body1 body2 Hbody s ? <- st ? <- w.
  rewrite !while_getline_for_lines. by apply for_lines_proper.
Qed.

(** ** Worlds *)

Lemma world_eq w1 w2 :
  fs w1 = fs w2 → env w1 = env w2 → stdin w1 = stdin w2 → stdout w1 = stdout w2 →
  w1 = w2.
Proof. destruct w1, w2. simpl. by intros -> -> -> ->. Qed.

Lemma print_nil w : print [] w = w.
Proof. destruct w. unfold print. simpl. by rewrite app_nil_r. Qed.

Lemma print_print t1 t2 w : print t2 (print t1 w) = print (t1 ++ t2) w.
Proof. unfold print. simpl. by rewrite app_assoc. Qed.

Lemma fs_print t w : fs (print t w) = fs w.
Proof. done. Qed.

Lemma fs_set_fs f w : fs (set_fs f w) = f (fs w).
Proof. done. Qed.

Lemma fs_set_stdin inp w : fs (set_stdin inp w) = fs w.
Proof. done. Qed.

Lemma stdout_print t w : stdout (print t w) = stdout w ++ t.
Proof. done. Qed.

Lemma stdout_set_fs f w : stdout (set_fs f w) = stdout w.
Proof. done. Qed.

Lemma stdout_set_stdin inp w : stdout (set_stdin inp w) = stdout w.
Proof. done. Qed.

#[export] Hint Rewrite print_nil print_print fs_print fs_set_fs fs_set_stdin
  stdout_print stdout_set_fs stdout_set_stdin : text.

(** [prog_simp] runs a program on a world, statement by statement, as far
    as the hypotheses on the file system decide its tests. *)
Ltac prog_simp :=
  repeat first
    [ rewrite bind_run
    | rewrite ret_run
    | progress (autounfold with prog)
    | progress (cbn beta iota zeta)
    | progress simplify_map_eq
    | rewrite insert_insert_eq
    | match goal with
      | H : ?x = _ |- context [?x] => rewrite H
      end ].

(** ** Paths *)

(** [p / q] ends with [q]. *)
Lemma path_append_suffix p q : ∃ pre, path_append p q = pre +:+ q.
Proof.
  unfold path_append. destruct (last (chars p)) as [c|]; [|by exists ""].
  case_decide; [by exists p|]. exists (p +:+ "/").
  apply (inj chars). by rewrite !chars_app, <-app_assoc.
Qed.

Lemma path_append_last p q c :
  last (chars q) = Some c → last (chars (path_append p q)) = Some c.
Proof.
  intros Hq. destruct (path_append_suffix p q) as [pre ->].
  rewrite chars_app, last_app. by rewrite Hq.
Qed.

Lemma path_append_length p q :
  String.length (path_append p q) ≥ String.length p + String.length q.
Proof.
  assert (∀ s, String.length s = length (chars s)) as Hlen.
  { induction s as [|c s IH]; [done|]. simpl. by rewrite IH. }
  unfold path_append. destruct (last (chars p)) as [c|] eqn:E.
  - case_decide; rewrite !Hlen, !chars_app, !length_app; lia.
  - apply last_None in E. rewrite !Hlen, E. simpl. lia.
Qed.

(** A path extended by a name is another path. *)
Lemma path_append_ne p q : q ≠ "" → path_append p q ≠ p.
Proof.
  intros Hq Heq. pose proof (path_append_length p q) as Hlen.
  rewrite Heq in Hlen. destruct q; [done|]. simpl in Hlen. lia.
Qed.

(** The characters of [p / q] when [p] ends with a character that is no
    separator. *)
Lemma path_append_chars p q c :
  last (chars p) = Some c → c ≠ "/"%char →
  chars (path_append p q) = chars p ++ "/"%char :: chars q.
Proof.
  intros Hp Hc. unfold path_append. rewrite Hp, decide_False by done.
  by rewrite !chars_app.
Qed.

Section entry.
Context (p q : string) (c : ascii).
Hypothesis Hp : last (chars p) = Some c.
Hypothesis Hc : c ≠ "/"%char.
Hypothesis Hq : "/"%char ∉ chars q.

Lemma reverse_path_append :
  reverse (chars (path_append p q)) =
  reverse (chars q) ++ "/"%char :: reverse (chars p).
Proof.
  rewrite (path_append_chars p q c), reverse_app, reverse_cons by done.
  by rewrite <-app_assoc.
Qed.

Lemma Forall_not_sep : Forall (λ a, a ≠ "/"%char) (reverse (chars q)).
Proof. apply Forall_forall. intros a Ha ->. by rewrite elem_of_reverse in Ha. Qed.

(** The entry [q] of the directory [p]: its directory is [p], its file
    name is [q]. *)
Lemma dirname_path_append : dirname (path_append p q) = p.
Proof.
  unfold dirname. rewrite reverse_path_append.
  rewrite drop_while_app_stop by (apply Forall_not_sep || by intros ?).
  apply last_Some in Hp as [l Hl]. rewrite Hl, reverse_snoc. simpl.
  rewrite (decide_False (P := c = _)), decide_False by done.
  by rewrite reverse_cons, reverse_involutive, <-Hl, str_chars.
Qed.

Lemma filename_path_append : filename (path_append p q) = q.
Proof.
  unfold filename. rewrite reverse_path_append.
  rewrite take_while_app_stop by (apply Forall_not_sep || by intros ?).
  by rewrite reverse_involutive, str_chars.
Qed.

End entry.

(** A file name holds no separator. *)
Lemma filename_no_sep p : "/"%char ∉ chars (filename p).
Proof.
  unfold filename. rewrite chars_str, elem_of_reverse. intros Hin.
  by eapply Forall_forall in Hin; [|apply Forall_take_while].
Qed.

(** An entry made of a directory and a name lies in that directory, or,
    when the directory is written with a separator at its end, in the
    directory of that path. *)
Lemma dirname_path_append_dir p q :
  "/"%char ∉ chars q →
  dirname (path_append p q) = p ∨ dirname (path_append p q) = dirname p.
Proof.
  intros Hq.
  assert (Forall (λ a, a ≠ "/"%char) (reverse (chars q))) as Hall.
  { apply Forall_forall. intros a Ha ->. by rewrite elem_of_reverse in Ha. }
  destruct (last (chars p)) as [c|] eqn:E.
  - destruct (decide (c = "/"%char)) as [->|Hc];
      [right|left; by apply (dirname_path_append p q c)].
    unfold path_append. rewrite E, decide_True by done.
    unfold dirname. rewrite chars_app, reverse_app.
    apply last_Some in E as [l ->]. rewrite reverse_snoc.
    rewrite drop_while_app_stop by (done || by intros ?).
    done.
  - left. apply last_None in E. unfold path_append, dirname.
    rewrite E. simpl. rewrite drop_while_all, decide_True by done.
    apply (inj chars). by rewrite E.
Qed.

(** [p / q] is associative. *)
Lemma path_append_assoc p q r :
  path_append (path_append p q) r = path_append p (path_append q r).
Proof.
  apply (inj chars). unfold path_append.
  destruct (last (chars p)) as [a|] eqn:Ep; [|done].
  destruct (last (chars q)) as [b|] eqn:Eq.
  - assert (∀ x y, last (chars (x +:+ y +:+ q)) = Some b) as Hl
      by (intros x y; by rewrite !chars_app, !last_app, Eq).
    assert (∀ x, last (chars (x +:+ q)) = Some b) as Hl'
      by (intros x; by rewrite !chars_app, !last_app, Eq).
    repeat case_decide; rewrite ?Hl, ?Hl'; repeat case_decide; try done;
      by rewrite ?chars_app, <-?app_assoc.
  - apply last_None in Eq. assert (q = "") as -> by (by apply (inj chars)).
    pose proof (eq_refl : chars "/" = ["/"%char]) as Hsep.
    case_decide; rewrite ?chars_app, ?last_app, ?Hsep, ?Eq; simpl; rewrite ?Ep;
      repeat case_decide; try done; by rewrite ?chars_app, <-?app_assoc, ?Hsep, ?Eq.
Qed.

(** ** Paths below a directory *)

Lemma inside_path_append d q : inside d (path_append d q).
Proof. by exists q. Qed.

Lemma inside_below d q p : inside (path_append d q) p → inside d p.
Proof. intros [r ->]. exists (path_append q r). apply path_append_assoc. Qed.

(** ** Directories and their entries *)

Lemma has_entries_alt f d :
  has_entries f d ↔ ∃ q, is_Some (f !! q) ∧ dirname q = d ∧ q ≠ d.
Proof.
  unfold has_entries, map_Exists. split.
  - intros (q & n & Hq & ?). exists q. by rewrite Hq.
  - intros (q & [n Hq] & ?). by exists q, n.
Qed.

(** A new entry is in its own directory only. *)
Lemma has_entries_insert f p n d :
  has_entries (<[p := n]> f) d ↔ (dirname p = d ∧ p ≠ d) ∨ has_entries f d.
Proof.
  rewrite !has_entries_alt. split.
  - intros (q & [->|Hq]%lookup_insert_is_Some' & ?); [by left|].
    right. by exists q.
  - intros [?|(q & Hq & ?)]; [exists p|exists q];
      (split; [|done]); apply lookup_insert_is_Some'; auto.
Qed.

Lemma has_entries_delete f p d : has_entries (delete p f) d → has_entries f d.
Proof. apply map_Exists_delete. Qed.

Lemma elem_of_dir_files f d q c :
  (q, c) ∈ dir_files f d ↔ f !! q = Some (File c) ∧ dirname q = d ∧ q ≠ d.
Proof.
  unfold dir_files. rewrite list_elem_of_omap. split.
  - intros ([q' [c'|]] & Hin%elem_of_map_to_list & Heq); [|done].
    case_decide; by simplify_eq.
  - intros (Hq & Hd). exists (q, File c). rewrite elem_of_map_to_list.
    by rewrite decide_True.
Qed.

(** An empty directory has no file to copy. *)
Lemma dir_files_empty f d : ¬ has_entries f d → dir_files f d = [].
Proof.
  intros Hd. apply elem_of_nil_inv. intros [q c] (Hq & ?)%elem_of_dir_files.
  apply Hd, has_entries_alt. exists q. by rewrite Hq.
Qed.

(** ** [copy] never overwrites *)

Lemma copy_regular_subseteq x c to w : fs w ⊆ fs (copy_regular x c to w).2.
Proof.
  unfold copy_regular. repeat case_match; simpl; try done; by apply insert_subseteq.
Qed.

Lemma copy_files_subseteq entries to w : fs w ⊆ fs (copy_files entries to w).2.
Proof.
  revert w. induction entries as [|[q c] entries IH]; intros w; simpl; [done|].
  rewrite bind_run. pose proof (copy_regular_subseteq (filename q) c
    (path_append to (filename q)) w) as Hsub.
  destruct (copy_regular _ _ _ w) as [[[]| | |] w']; [|done..].
  etrans; [apply Hsub|apply IH].
Qed.

Lemma fs_copy_subseteq from to w : fs w ⊆ fs (fs_copy from to w).2.
Proof.
  unfold fs_copy. destruct (fs w !! from) as [[c|]|]; [apply copy_regular_subseteq| |done].
  assert (fs w ⊆ fs ((create_directory to;; copy_files (dir_files (fs w) from) to) w).2)
    as Hdir.
  { rewrite bind_run. unfold create_directory.
    repeat case_match; simplify_eq; try done; try apply copy_files_subseteq.
    etrans; [|apply copy_files_subseteq]. by apply insert_subseteq. }
  by repeat case_match.
Qed.
