(* ===== verification/Store.v ===== *)
(** * Store: the operations on the database file

    One definition per function of src/main.cpp below [main]: the six
    operations [initDB], [listDB], [addDB], [removeDB], [searchDB],
    [cleanDB] and the helpers [ynPrompt], [getConfPath], [delete_line].
    Each is written in the monad of [World], in the order of the
    statements of the source.  The lemmas [..._run] give the final world
    and the outcome of every operation on every branch: the database
    missing, a regular file, and for [initDB] the answer to the prompt.
    The theorems at the end are about two operations in sequence, about
    [search] with the empty pattern, and about directories in the way: a
    directory at the database path, and a temporary file of
    [delete_line] that cannot be written. *)

From S2P Require Import Prelude Lines Match DeleteLine Records Spec World.

(** ** Helpers *)

(** [std::tolower] in the "C" locale; a character above 127 is returned
    unchanged. *)
Definition tolower (c : ascii) : ascii :=
  let n := nat_of_ascii c in
  if decide (65 ≤ n ≤ 90) then ascii_of_nat (n + 32) else c.

(** The default argument of [ynPrompt], line 24: [char def='y']. *)
Definition ynPrompt_def : ascii := "y"%char.

(** [ynPrompt(prompt, def)], lines 170-177. *)
Definition ynPrompt (prompt : text) (def : ascii) : prog bool :=
  cout (prompt ++
        (if decide (def = "y"%char) then chars " [Y/n]: " else chars " [y/N]: "));;
  inp ← getchar;
  let inp := if decide (inp = Some nl) then Some def else inp in
  mret (bool_decide (tolower <$> inp = Some "y"%char)).

(** [getConfPath()], lines 179-193.  Building a path or a string from the
    null pointer that [getenv] returns for an unset variable is undefined
    behaviour. *)
Definition getConfPath : prog string :=
  home ← getenv "HOME";
  match home with
  | None => undef
  | Some home =>
      xdg_config_home ← getenv "XDG_CONFIG_HOME";
      match xdg_config_home with
      | None => undef
      | Some xdg =>
          let config_home :=
            if decide (xdg = "") then path_append home ".todo"
            else path_append xdg "todo" in
          ex ← fs_exists config_home;
          (if negb ex then create_directory config_home else skip);;
          mret config_home
      end
  end.

Definition tmp_path : string := "/tmp/tmptodo.txt".

(** [delete_line(file_name, n)], lines 195-228.  The input stream is
    opened first, the temporary file is created or truncated next, and the
    characters are read only then, by the loop. *)
Definition delete_line (file_name : string) (n : Z) : prog unit :=
  is_good ← ifstream_open file_name;
  ofs_good ← ofstream_open tmp_path;
  s ← ifstream_chars file_name is_good;
  stream_write tmp_path ofs_good (ofs (delete_line_loop n s));;
  fs_remove file_name;;
  fs_copy tmp_path file_name.

(** ** Messages *)

Definition not_initialized : text := chars "Database not initialized!" ++ [nl].

Definition reinit_prompt : text :=
  chars "Database already exists, re-initializing the database will delete everything. Do you want to continue?".

Definition initialized_msg (existed : bool) : text :=
  chars "Database " ++ (if existed then chars "re-" else []) ++
  chars "initialized!" ++ [nl].

Definition cleaned_msg : text := chars "Database cleaned!" ++ [nl].

(** The guard that opens every operation but [initDB]:
    [if (!exists(dbPath)) { cout << "Database not initialized!\n"; exit(1); }] *)
Definition require_db (dbPath : string) : prog unit :=
  ex ← fs_exists dbPath;
  if negb ex then cout not_initialized;; exit 1 else skip.

(** ** The operations *)

(** [initDB], lines 85-98. *)
Definition initDB (dbPath : string) : prog unit :=
  existed ← fs_exists dbPath;
  lock ← (if existed then yes ← ynPrompt reinit_prompt ynPrompt_def; mret (negb yes)
          else mret false : prog bool);
  if (lock : bool) then skip
  else
    good ← ofstream_open dbPath;
    stream_write dbPath good [];;
    cout (initialized_msg existed).

(** The body of the loop of [listDB], lines 112-115.  The counter [i] is
    an [int] in the program and a [Z] here: it stays in the range of an
    [int] on a file of fewer than [INT_MAX] characters
    ([listDB_counter_in_int]); on a file with [INT_MAX] records or more
    [i++] overflows in the program, and the model counts on. *)
Definition listDB_body (line : text) (i : Z) : prog Z :=
  if decide (line ≠ []) then
    cout (show_int i ++ chars ". " ++ line ++ [nl]);; mret (i + 1)%Z
  else mret i.

(** [listDB], lines 100-117. *)
Definition listDB (dbPath : string) : prog unit :=
  require_db dbPath;;
  good ← ifstream_open dbPath;
  s ← ifstream_chars dbPath good;
  while_getline listDB_body s 1%Z;;
  skip.

(** [addDB], lines 119-128. *)
Definition addDB (dbPath : string) (text : text) : prog unit :=
  require_db dbPath;;
  good ← fstream_open_app dbPath;
  stream_write dbPath good (nl :: text).

(** [removeDB], lines 130-137.  [index+1] is an addition of [int]s: its
    overflow is undefined behaviour. *)
Definition removeDB (dbPath : string) (index : Z) : prog unit :=
  require_db dbPath;;
  match int_add index 1 with
  | None => undef
  | Some n => delete_line dbPath n
  end.

(** The body of the loop of [searchDB], lines 151-155, with the counter
    [i] as in [listDB_body]. *)
Definition searchDB_body (pattern : text) (line : text) (i : Z) : prog Z :=
  if decide (line ≠ []) then
    (if is_match line pattern then
       cout (show_int i ++ chars ". " ++ line ++ [nl])
     else skip);;
    mret (i + 1)%Z
  else mret i.

(** [searchDB], lines 139-157. *)
Definition searchDB (dbPath : string) (pattern : text) : prog unit :=
  require_db dbPath;;
  good ← ifstream_open dbPath;
  s ← ifstream_chars dbPath good;
  while_getline (searchDB_body pattern) s 1%Z;;
  skip.

(** [cleanDB], lines 159-167. *)
Definition cleanDB (dbPath : string) : prog unit :=
  require_db dbPath;;
  fs_remove dbPath;;
  cout cleaned_msg.

(** ** Reference definitions for the statements *)

(** The answer that [ynPrompt] with default ['y'] reads from its
    character: yes for a newline (the default), for [y] and for [Y]; no
    for anything else and at the end of the input. *)
Definition answer_yes (inp : option ascii) : bool :=
  match inp with
  | Some c => bool_decide (c = nl ∨ c = "y"%char ∨ c = "Y"%char)
  | None => false
  end.

(** The world after the prompt of [initDB] has been answered. *)
Definition prompted (w : world) : world :=
  print (reinit_prompt ++ chars " [Y/n]: ") (set_stdin (tail (stdin w)) w).

(** The directory that [getConfPath] chooses. *)
Definition conf_dir (home xdg : string) : string :=
  if decide (xdg = "") then path_append home ".todo" else path_append xdg "todo".

(** The temporary file of [delete_line] can be written: its directory
    exists and no directory sits at its path. *)
Definition tmp_writable (w : world) : Prop :=
  fs w !! tmp_path ≠ Some Dir ∧ fs w !! dirname tmp_path = Some Dir.

#[export] Instance tmp_writable_dec w : Decision (tmp_writable w).
Proof. unfold tmp_writable. apply _. Defined.

(** ** [ynPrompt] *)

Lemma tolower_y c : tolower c = "y"%char ↔ c = "y"%char ∨ c = "Y"%char.
Proof.
  destruct c as [[] [] [] [] [] [] [] []]; vm_compute; split;
    first [done | intros [?|?]; done | by left | by right].
Qed.

Lemma ynPrompt_y prompt w :
  ynPrompt prompt ynPrompt_def w =
  (Ret (answer_yes (head (stdin w))),
   print (prompt ++ chars " [Y/n]: ") (set_stdin (tail (stdin w)) w)).
Proof.
  unfold ynPrompt, ynPrompt_def. rewrite decide_True by done.
  destruct w as [f e [|c inp] out]; prog_simp; [done|]. do 2 f_equal.
  destruct (decide (c = nl)) as [->|Hc].
  { rewrite decide_True by done. by vm_compute. }
  rewrite decide_False by congruence. simpl.
  apply bool_decide_ext. split.
  - intros [= H%tolower_y]. by right.
  - intros [?|H%tolower_y]; [done|]. by f_equal.
Qed.

(** ** The guard on the database *)

Lemma require_db_missing db w :
  fs w !! db = None → require_db db w = (Exit 1, print not_initialized w).
Proof. intros H. unfold require_db. by prog_simp. Qed.

Lemma require_db_present db w :
  is_Some (fs w !! db) → require_db db w = (Ret (), w).
Proof.
  intros H. unfold require_db. prog_simp. by rewrite bool_decide_true.
Qed.

(** On a store that is not initialized (no file at the database path)
    [listDB], [addDB], [removeDB], [searchDB] and [cleanDB] print
    "Database not initialized!" and exit with status 1, and leave the file
    system as it was. *)
Lemma missing_run db w t i :
  fs w !! db = None →
  let failed := (Exit 1 : outcome unit, print not_initialized w) in
  listDB db w = failed ∧ addDB db t w = failed ∧ removeDB db i w = failed ∧
  searchDB db t w = failed ∧ cleanDB db w = failed.
Proof.
  intros H. simpl.
  unfold listDB, addDB, removeDB, searchDB, cleanDB.
  by rewrite !bind_run, !require_db_missing.
Qed.


(** ** The loops of [listDB] and [searchDB] *)

Lemma listDB_body_run l i w :
  listDB_body l i w =
  if decide (l ≠ []) then (Ret (i + 1)%Z, print (render_entry (i, l)) w)
  else (Ret i, w).
Proof. unfold listDB_body. by case_decide. Qed.

Lemma searchDB_body_run p l i w :
  searchDB_body p l i w =
  if decide (l ≠ []) then
    (Ret (i + 1)%Z, if is_match l p then print (render_entry (i, l)) w else w)
  else (Ret i, w).
Proof. unfold searchDB_body. case_decide; [|done]. by destruct (is_match l p). Qed.

Lemma listDB_loop ls i w :
  for_lines listDB_body ls i w =
  (Ret (i + Z.of_nat (length (filter (λ l, l ≠ []) ls)))%Z,
   print (render (numbered_from i (filter (λ l, l ≠ []) ls))) w).
Proof.
  revert i w. induction ls as [|l ls IH]; intros i w; simpl.
  { by rewrite Z.add_0_r, print_nil. }
  rewrite bind_run, listDB_body_run, filter_cons.
  case_decide; rewrite IH; [|done]. simpl.
  rewrite render_cons, print_print. do 2 f_equal. lia.
Qed.

Lemma searchDB_loop p ls i w :
  for_lines (searchDB_body p) ls i w =
  (Ret (i + Z.of_nat (length (filter (λ l, l ≠ []) ls)))%Z,
   print (render (matching p (numbered_from i (filter (λ l, l ≠ []) ls)))) w).
Proof.
  revert i w. induction ls as [|l ls IH]; intros i w; simpl.
  { by rewrite Z.add_0_r, print_nil. }
  rewrite bind_run, searchDB_body_run, (filter_cons (λ l, l ≠ [])).
  case_decide; rewrite IH; [|done]. simpl numbered_from. unfold matching.
  rewrite filter_cons. simpl.
  destruct (is_match l p) eqn:E.
  - rewrite decide_True, render_cons, print_print by done. do 2 f_equal. lia.
  - rewrite decide_False by done. do 2 f_equal. lia.
Qed.

(** C35: on a file of fewer than [INT_MAX] characters the loops of
    [listDB] and [searchDB] end, their counter [i] ends one above the
    number of records, and that value is in the range of a 32-bit [int]:
    [i++] does not overflow. *)
Theorem listDB_counter_in_int s p w :
  (Z.of_nat (length s) < INT_MAX)%Z →
  ∃ i, (while_getline listDB_body s 1%Z w).1 = Ret i ∧
       (while_getline (searchDB_body p) s 1%Z w).1 = Ret i ∧
       i = (1 + Z.of_nat (length (records s)))%Z ∧ in_int i.
Proof.
  intros Hlen. eexists.
  rewrite !while_getline_for_lines, listDB_loop, searchDB_loop.
  split_and!; [done..|]. pose proof (length_records_le s).
  unfold in_int, INT_MIN, records in *. lia.
Qed.

Lemma listDB_counter_in_int_witness :
  ∃ i, (while_getline listDB_body (nl :: chars "a") 1%Z (World ∅ ∅ [] [])).1 = Ret i ∧
       (while_getline (searchDB_body (chars "a")) (nl :: chars "a") 1%Z
          (World ∅ ∅ [] [])).1 = Ret i ∧
       i = (1 + Z.of_nat (length (records (nl :: chars "a"))))%Z ∧ in_int i.
Proof. apply listDB_counter_in_int. by vm_compute. Defined.

(** ** [listDB] and [searchDB] on an initialized store *)

Section reading.
Context (db : string) (w : world) (c : text).
Hypothesis Hdb : fs w !! db = Some (File c).

(** On a database file with content [c], [listDB] prints one line
    "N. text" for each non-empty line of [c], in file order, numbered
    from 1, returns, and changes nothing else. *)
Lemma listDB_run :
  listDB db w = (Ret (), print (render (numbered (records c))) w).
Proof.
  unfold listDB. rewrite bind_run, require_db_present by by rewrite Hdb.
  prog_simp. by rewrite while_getline_for_lines, listDB_loop.
Qed.

(** [searchDB] prints, of the entries that [listDB] prints, exactly
    those whose text contains the pattern, each with the number it has in
    the full listing. *)
Lemma searchDB_run p :
  searchDB db p w =
  (Ret (), print (render (matching p (numbered (records c)))) w).
Proof.
  unfold searchDB. rewrite bind_run, require_db_present by by rewrite Hdb.
  prog_simp. by rewrite while_getline_for_lines, searchDB_loop.
Qed.

End reading.

(** ** [addDB], [removeDB] and [cleanDB] on an initialized store *)

(** Past its guard and its addition, [removeDB] is [delete_line]. *)
Lemma removeDB_delete_line db k w :
  is_Some (fs w !! db) → in_int (k + 1) →
  removeDB db k w = delete_line db (k + 1) w.
Proof.
  intros Hdb Hk. unfold removeDB.
  rewrite bind_run, require_db_present by done.
  unfold int_add. by rewrite decide_True.
Qed.

Section writing.
Context (db : string) (w : world) (c : text).
Hypothesis Hdb : fs w !! db = Some (File c).

(** [addDB] appends a newline followed by the text to the database
    file, whatever the file ends with, and prints nothing. *)
Lemma addDB_run t :
  addDB db t w = (Ret (), set_fs <[db := File (c ++ nl :: t)]> w).
Proof.
  unfold addDB. rewrite bind_run, require_db_present by by rewrite Hdb.
  by prog_simp.
Qed.

(** [delete_line] on a regular file in a directory, with a temporary
    path that is another path and can be written: the file and the
    temporary file both end with the characters the loop keeps. *)
Lemma delete_line_run n :
  db ≠ tmp_path → tmp_writable w → fs w !! dirname db = Some Dir →
  let c' := ofs (delete_line_loop n c) in
  delete_line db n w =
  (Ret (), set_fs (λ f, <[db := File c']> (<[tmp_path := File c']> f)) w).
Proof.
  intros Hne [Htmp Htd] Hdir. unfold delete_line.
  assert (dirname db ≠ db) by (apply (lookup_ne_key (fs w)); by rewrite Hdir, Hdb).
  assert (dirname db ≠ tmp_path) by (apply (lookup_ne_key (fs w)); by rewrite Hdir).
  destruct (fs w !! tmp_path) as [[]|] eqn:E; try done; prog_simp;
    (f_equal; apply world_eq; simpl; try done; apply map_eq; intros p;
     destruct (decide (p = db)) as [->|]; simplify_map_eq; try done;
     destruct (decide (p = tmp_path)) as [->|]; by simplify_map_eq).
Qed.

(** [removeDB db index] rewrites the database file with physical
    line [index + 1] dropped (as [delete_line_loop] drops it), through the
    temporary file, which keeps a copy of the new content. *)
Lemma removeDB_run index :
  db ≠ tmp_path → tmp_writable w → fs w !! dirname db = Some Dir →
  in_int (index + 1) →
  let c' := ofs (delete_line_loop (index + 1) c) in
  removeDB db index w =
  (Ret (), set_fs (λ f, <[db := File c']> (<[tmp_path := File c']> f)) w).
Proof.
  intros Hne Htmp Hdir Hint. rewrite removeDB_delete_line by (by rewrite ?Hdb).
  by apply delete_line_run.
Qed.

End writing.

(** [index + 1] overflows for [index = INT_MAX]: the behaviour of
    [removeDB] is then undefined, and nothing has been written. *)
Lemma removeDB_overflow_run db w :
  is_Some (fs w !! db) → removeDB db INT_MAX w = (Undef, w).
Proof. intros H. unfold removeDB. by rewrite bind_run, require_db_present. Qed.

(** [cleanDB] removes the database file, so that the store is no longer
    initialized, and prints "Database cleaned!". *)
Lemma cleanDB_run db w c :
  fs w !! db = Some (File c) →
  cleanDB db w = (Ret (), print cleaned_msg (set_fs (delete db) w)).
Proof.
  intros H. unfold cleanDB. rewrite bind_run, require_db_present by by rewrite H.
  by prog_simp.
Qed.


(** ** [initDB] *)

Section init.
Context (db : string) (w : world).

(** On a path where nothing exists, in a directory that does,
    [initDB] creates an empty database file without asking, and prints
    "Database initialized!". *)
Lemma initDB_fresh_run :
  fs w !! db = None → fs w !! dirname db = Some Dir →
  initDB db w =
  (Ret (), print (initialized_msg false) (set_fs <[db := File []]> w)).
Proof. intros H Hdir. unfold initDB. by prog_simp. Qed.

(** When the database exists and the answer to the prompt is not
    yes, [initDB] returns after the prompt: the file system is unchanged,
    and so are the records. *)
Lemma initDB_declined_run :
  is_Some (fs w !! db) → answer_yes (head (stdin w)) = false →
  initDB db w = (Ret (), prompted w).
Proof.
  intros H Hno. unfold initDB. prog_simp.
  rewrite bool_decide_true, bind_run, ynPrompt_y, Hno by done.
  by prog_simp.
Qed.

(** When the database file exists and the answer is yes (a newline,
    [y] or [Y]), [initDB] truncates the file to empty and prints
    "Database re-initialized!". *)
Lemma initDB_confirmed_run c :
  fs w !! db = Some (File c) → answer_yes (head (stdin w)) = true →
  initDB db w =
  (Ret (), print (initialized_msg true) (set_fs <[db := File []]> (prompted w))).
Proof.
  intros H Hyes. unfold initDB. prog_simp.
  rewrite ynPrompt_y, Hyes. by prog_simp.
Qed.

End init.

(** ** [getConfPath] *)

Section conf.
Context (w : world).

(** When [XDG_CONFIG_HOME] is not set, [getConfPath] builds a
    [std::string] from a null pointer: the behaviour is undefined, even
    with [HOME] set; likewise when [HOME] is not set. *)
Lemma getConfPath_unset_run :
  env w !! "HOME" = None ∨ env w !! "XDG_CONFIG_HOME" = None →
  getConfPath w = (Undef, w).
Proof.
  intros H. unfold getConfPath. prog_simp.
  destruct (env w !! "HOME") as [home|]; [|done]. prog_simp.
  by destruct H as [?| ->].
Qed.

(** With both variables set, [getConfPath] returns [$XDG_CONFIG_HOME/todo],
    or [$HOME/.todo] when [XDG_CONFIG_HOME] is empty, and creates that
    directory when nothing exists at the path; when the directory in which
    it is to be created is missing, [create_directory] throws and the
    program is aborted. *)
Lemma getConfPath_run home xdg :
  env w !! "HOME" = Some home → env w !! "XDG_CONFIG_HOME" = Some xdg →
  getConfPath w =
  match fs w !! conf_dir home xdg with
  | None =>
      if parent_dir (fs w) (conf_dir home xdg)
      then (Ret (conf_dir home xdg), set_fs <[conf_dir home xdg := Dir]> w)
      else (Abort, w)
  | Some _ => (Ret (conf_dir home xdg), w)
  end.
Proof.
  intros Hh Hx. unfold getConfPath. prog_simp. fold (conf_dir home xdg).
  destruct (fs w !! conf_dir home xdg) as [n|] eqn:E; prog_simp; [done|].
  by destruct (fs w !! dirname (conf_dir home xdg)) as [[]|].
Qed.

End conf.

(** The database path that [main] uses is never the temporary file of
    [delete_line]. *)
Lemma database_ne_tmp conf : path_append conf "database" ≠ tmp_path.
Proof.
  intros H. pose proof (path_append_last conf "database" "e"%char eq_refl) as Hl.
  by rewrite H in Hl.
Qed.

(** [removeDB] on an empty directory at the database path: nothing is
    read, the directory is removed and the empty temporary file is copied
    in its place. *)
Lemma removeDB_directory_run db w k :
  fs w !! db = Some Dir → db ≠ dirname tmp_path → tmp_writable w →
  ¬ has_entries (fs w) db → dirname db ≠ db → fs w !! dirname db = Some Dir →
  in_int (k + 1) →
  removeDB db k w =
  (Ret (), set_fs (λ f, <[db := File []]> (<[tmp_path := File []]> f)) w).
Proof.
  intros Hdb Hne [Htmp Htd] Hempty Hself Hdir Hk.
  rewrite removeDB_delete_line by (by rewrite ?Hdb).
  assert (db ≠ tmp_path) by (apply (lookup_ne_key (fs w)); by rewrite Hdb).
  assert (dirname db ≠ tmp_path) by (apply (lookup_ne_key (fs w)); by rewrite Hdir).
  unfold delete_line.
  destruct (fs w !! tmp_path) as [[]|] eqn:E; try done; prog_simp.
  all: rewrite decide_False by (rewrite has_entries_insert; naive_solver).
  all: prog_simp.
  all: f_equal; apply world_eq; simpl; try done; by rewrite insert_delete_eq.
Qed.

(** ** Operations in sequence *)

(** [addDB] of any text, also one with newlines in it or an empty one,
    makes [listDB] print the records of the file followed by the non-empty
    lines of the text, each as a record of its own. *)
Theorem append_any_then_list db w s t :
  fs w !! db = Some (File s) →
  printed (listDB db) (exec (addDB db t) w) =
  Some (render (numbered (records s ++ records t))).
Proof.
  intros Hdb. unfold exec, printed. rewrite (addDB_run _ _ s) by done. simpl.
  rewrite (listDB_run _ _ (s ++ nl :: t)) by (simpl; by simplify_map_eq).
  simpl. by rewrite records_app_nl.
Qed.

Lemma append_any_then_list_witness :
  let w := World {["db" := File (nl :: chars "buy milk")]} ∅ [] [] in
  printed (listDB "db") (exec (addDB "db" (chars "call" ++ nl :: nl :: chars "mom")) w) =
  Some (render (numbered (records (nl :: chars "buy milk") ++
                          records (chars "call" ++ nl :: nl :: chars "mom")))).
Proof. apply append_any_then_list; by_compute. Defined.

(** C10: after [addDB] of a text [t] on a database file (whatever the
    file looks like), [listDB] prints the records of the file followed by
    the non-empty lines of [t], each as a record of its own; when [t] is
    one record and the file has [n] records, that is the listing printed
    before, followed by the line for [t] with number [n + 1]. *)
Theorem append_then_list db w s t :
  fs w !! db = Some (File s) →
  printed (listDB db) (exec (addDB db t) w) =
    Some (render (numbered (records s ++ records t))) ∧
  (good_text t →
   printed (listDB db) (exec (addDB db t) w) =
     Some (render (numbered (records s)) ++
           render_entry ((Z.of_nat (length (records s)) + 1)%Z, t))).
Proof.
  intros Hdb. rewrite (append_any_then_list db w s t Hdb). split; [done|].
  intros Ht. rewrite (records_good_text t), numbered_snoc, render_app by done.
  do 2 f_equal. apply app_nil_r.
Qed.

Lemma append_then_list_witness :
  let w := World {["db" := File (nl :: chars "buy milk")]} ∅ [] [] in
  let t := chars "call mom" in
  printed (listDB "db") (exec (addDB "db" t) w) =
    Some (render (numbered (records (nl :: chars "buy milk") ++ records t))) ∧
  (good_text t →
   printed (listDB "db") (exec (addDB "db" t) w) =
     Some (render (numbered (records (nl :: chars "buy milk"))) ++
           render_entry ((Z.of_nat (length (records (nl :: chars "buy milk"))) + 1)%Z, t))).
Proof. by apply append_then_list. Defined.

(** C11: after [removeDB] with index [k] on a canonical
    database file, [listDB] prints the records without record number [k],
    numbered again from 1: the records after [k] appear one number lower,
    and an index that is no record's number leaves the listing as it
    was. *)
Theorem remove_then_list db w s k :
  db ≠ tmp_path → fs w !! db = Some (File s) → canonical s →
  tmp_writable w → fs w !! dirname db = Some Dir → in_int (k + 1) →
  printed (listDB db) (exec (removeDB db k) w) =
  Some (render (numbered (delete_record k (records s)))).
Proof.
  intros Hne Hdb (ts & Hts & ->)%canonical_iff Htmp Hdir Hk. unfold exec, printed.
  rewrite (removeDB_run _ _ (encode ts)) by done. simpl.
  rewrite delete_line_loop_encode by done.
  rewrite (listDB_run _ _ (encode (delete_record k ts))) by (simpl; by simplify_map_eq).
  simpl. by rewrite !records_encode by auto using delete_record_good.
Qed.

Lemma remove_then_list_witness :
  let s := encode [chars "buy milk"; chars "call mom"] in
  let w := World {["" := Dir; "db" := File s; "/tmp" := Dir]} ∅ [] [] in
  printed (listDB "db") (exec (removeDB "db" 1) w) =
  Some (render (numbered (delete_record 1 (records s)))).
Proof. apply remove_then_list; by_compute. Defined.

(** Writing the database leaves the temporary file writable. *)
Lemma tmp_writable_write db w n c :
  fs w !! db = Some (File c) → db ≠ tmp_path → tmp_writable w →
  tmp_writable (set_fs <[db := n]> w).
Proof.
  intros Hdb Hne [Htmp Htd]. unfold tmp_writable. simpl.
  rewrite !lookup_insert_ne; [done|..|done].
  apply (lookup_ne_key (fs w)). by rewrite Hdb, Htd.
Qed.

(** C12: [removeDB] of the record that [addDB] has just added undoes the
    addition: on a canonical database file with [n] records, [add] of a
    one-record text followed by [remove] of index [n + 1] leaves the
    database file with exactly the characters it held before. *)
Theorem add_then_remove db w s t :
  db ≠ tmp_path → fs w !! db = Some (File s) → canonical s →
  tmp_writable w → fs w !! dirname db = Some Dir → good_text t →
  let n := Z.of_nat (length (records s)) in
  in_int (n + 1 + 1) →
  fs (exec (removeDB db (n + 1)) (exec (addDB db t) w)) !! db = Some (File s).
Proof.
  intros Hne Hdb (ts & Hts & ->)%canonical_iff Htmp Hdir Ht n Hn. unfold exec.
  assert (dirname db ≠ db) by (apply (lookup_ne_key (fs w)); by rewrite Hdir, Hdb).
  rewrite (addDB_run _ _ (encode ts)) by done. simpl.
  rewrite (removeDB_run _ _ (encode ts ++ nl :: t));
    [|simpl; by simplify_map_eq|done|by eapply tmp_writable_write
     |simpl; by simplify_map_eq|done].
  simpl. simplify_map_eq. do 2 f_equal.
  rewrite <-encode_snoc, delete_line_loop_encode
    by (apply Forall_app; split; [done|by constructor]).
  unfold n, delete_record. rewrite records_encode, decide_True by (done || lia).
  replace (Z.to_nat _) with (length ts) by lia.
  by rewrite delete_middle, app_nil_r.
Qed.

Lemma add_then_remove_witness :
  let s := encode [chars "buy milk"] in
  let w := World {["" := Dir; "db" := File s; "/tmp" := Dir]} ∅ [] [] in
  fs (exec (removeDB "db" (Z.of_nat (length (records s)) + 1))
        (exec (addDB "db" (chars "call mom")) w)) !! "db" = Some (File s).
Proof. apply add_then_remove; by_compute. Defined.

(** ** [search] with the empty pattern *)

Lemma searchDB_body_nil line i : searchDB_body [] line i ≡ listDB_body line i.
Proof. unfold searchDB_body, listDB_body. rewrite is_match_nil. by case_decide. Qed.

(** C31: [search] with the empty pattern is [list]: the empty pattern is
    part of every text, so that in every world, whatever is at the
    database path, the two print the same and end the same. *)
Theorem search_empty_pattern db : searchDB db [] ≡ listDB db.
Proof.
  unfold searchDB, listDB. repeat (f_equiv; intros ?).
  apply while_getline_proper; [exact searchDB_body_nil|done..].
Qed.

(** ** Directories in the way *)

(** C37: when the database path is a directory, no stream opens and
    nothing is written, yet nothing is reported: [addDB] returns in
    silence, [listDB] prints nothing, and a confirmed [initDB] prints
    "Database re-initialized!", all three leaving the directory as it is.
    [cleanDB] removes the directory when it is empty and is aborted by the
    exception of [remove] when it is not; [removeDB] replaces an empty
    directory by an empty database file. *)
Theorem directory_database db w t k :
  fs w !! db = Some Dir →
  addDB db t w = (Ret (), w) ∧
  listDB db w = (Ret (), w) ∧
  (answer_yes (head (stdin w)) = true →
   initDB db w = (Ret (), print (initialized_msg true) (prompted w))) ∧
  (if decide (has_entries (fs w) db) then cleanDB db w = (Abort, w)
   else cleanDB db w = (Ret (), print cleaned_msg (set_fs (delete db) w))) ∧
  (db ≠ dirname tmp_path → tmp_writable w → ¬ has_entries (fs w) db →
   dirname db ≠ db → fs w !! dirname db = Some Dir → in_int (k + 1) →
   removeDB db k w =
   (Ret (), set_fs (λ f, <[db := File []]> (<[tmp_path := File []]> f)) w)).
Proof.
  intros Hdb. split_and!.
  - unfold addDB. rewrite bind_run, require_db_present by by rewrite Hdb.
    by prog_simp.
  - unfold listDB. rewrite bind_run, require_db_present by by rewrite Hdb.
    by prog_simp.
  - intros Hyes. unfold initDB. prog_simp. rewrite ynPrompt_y, Hyes. by prog_simp.
  - unfold cleanDB. rewrite bind_run, require_db_present by by rewrite Hdb.
    prog_simp. by case_decide.
  - intros Hne Htmp Hempty Hself Hdir Hk. by apply removeDB_directory_run.
Qed.

Lemma directory_database_witness :
  let w := World {["" := Dir; "db" := Dir; "/tmp" := Dir]} ∅ [nl] [] in
  addDB "db" (chars "buy milk") w = (Ret (), w) ∧
  listDB "db" w = (Ret (), w) ∧
  (answer_yes (head (stdin w)) = true →
   initDB "db" w = (Ret (), print (initialized_msg true) (prompted w))) ∧
  (if decide (has_entries (fs w) "db") then cleanDB "db" w = (Abort, w)
   else cleanDB "db" w = (Ret (), print cleaned_msg (set_fs (delete "db") w))) ∧
  ("db" ≠ dirname tmp_path → tmp_writable w → ¬ has_entries (fs w) "db" →
   dirname "db" ≠ "db" → fs w !! dirname "db" = Some Dir → in_int (1 + 1) →
   removeDB "db" 1 w =
   (Ret (), set_fs (λ f, <["db" := File []]> (<[tmp_path := File []]> f)) w)).
Proof. apply directory_database. by_compute. Defined.

(** [delete_line] with a directory at the temporary path: no stream
    writes, the database is removed, and [copy] makes a directory of it
    with copies of the regular files at the temporary path. *)
Lemma delete_line_tmp_directory_run db w s n :
  db ≠ tmp_path → fs w !! db = Some (File s) → fs w !! dirname db = Some Dir →
  fs w !! tmp_path = Some Dir →
  delete_line db n w =
  copy_files (dir_files (delete db (fs w)) tmp_path) db (set_fs <[db := Dir]> w).
Proof.
  intros Hne Hdb Hdir Htmp.
  assert (dirname db ≠ db) by (apply (lookup_ne_key (fs w)); by rewrite Hdir, Hdb).
  unfold delete_line. prog_simp. do 2 f_equal. by rewrite insert_delete_eq.
Qed.

(** C22: when the temporary file of [delete_line] cannot be written,
    [removeDB] loses the database, for the original file is removed all
    the same.  With a directory at the temporary path the copy puts a
    directory in place of the database and copies the regular files of
    that directory into it, so that the run is the run of these copies
    from the world with the directory in place; when the directory is
    empty the run returns as if nothing had happened.  With the
    directory [/tmp] missing there is nothing to copy, and the exception
    of [copy] ends the program after the database is gone. *)
Theorem remove_tmp_directory db w s k :
  db ≠ tmp_path → fs w !! db = Some (File s) → fs w !! dirname db = Some Dir →
  in_int (k + 1) →
  (fs w !! tmp_path = Some Dir →
   removeDB db k w =
     copy_files (dir_files (delete db (fs w)) tmp_path) db (set_fs <[db := Dir]> w) ∧
   fs (exec (removeDB db k) w) !! db = Some Dir ∧
   (¬ has_entries (fs w) tmp_path →
    removeDB db k w = (Ret (), set_fs <[db := Dir]> w))) ∧
  (fs w !! tmp_path = None → fs w !! dirname tmp_path ≠ Some Dir →
   removeDB db k w = (Abort, set_fs (delete db) w)).
Proof.
  intros Hne Hdb Hdir Hk. unfold exec.
  rewrite removeDB_delete_line by (by rewrite ?Hdb). split.
  - intros Htmp. rewrite (delete_line_tmp_directory_run db w s) by done.
    split_and!; [done| |].
    + eapply lookup_weaken; [|apply copy_files_subseteq]. simpl. by simplify_map_eq.
    + intros Hempty. rewrite dir_files_empty; [done|].
      intros ?%has_entries_delete. by apply Hempty.
  - intros Htmp Htd. unfold delete_line. prog_simp.
    by destruct (fs w !! dirname tmp_path) as [[]|]; prog_simp.
Qed.

Lemma remove_tmp_directory_witness :
  let s := encode [chars "buy milk"] in
  let w := World {["" := Dir; "db" := File s; tmp_path := Dir;
                   "/tmp/tmptodo.txt/notes" := File (chars "x")]} ∅ [] [] in
  fs (exec (removeDB "db" 7) w) !! "db" = Some Dir ∧
  fs (exec (removeDB "db" 7) w) !! "db/notes" = Some (File (chars "x")).
Proof.
  intros s w.
  destruct (remove_tmp_directory "db" w s 7
              ltac:(done) ltac:(done) ltac:(by_compute) ltac:(done))
    as [Hdir _].
  destruct (Hdir eq_refl) as (Hrun & Hdb & _). split; [done|].
  unfold exec. rewrite Hrun. by_compute.
Defined.
