(* ===== verification/Listing.v ===== *)
(** * Listing: reading back what [listDB] and [searchDB] print

    The listing is the only way in which a user sees the store: one line
    "N. text" for each record.  This file gives the reader of that format
    ([parse_listing]: the lines of the output, each split into its decimal
    number and its text) and shows that the output of the program can be
    read back: the numbers are decimal numerals without sign, the text of
    an entry is everything after the first ". ", and what [listDB] prints
    for a database determines its records.  The reader is a reference
    definition: the program has no counterpart of it. *)

From S2P Require Import Prelude Lines Match DeleteLine Records Spec World Store.

(** ** The reader *)

(** The value of a decimal digit. *)
Definition digit (c : ascii) : option N :=
  let n := N_of_ascii c in
  if decide (48 ≤ n ≤ 57)%N then Some (n - 48)%N else None.

(** The value of a numeral given with its last digit first. *)
Fixpoint digits_value (ds : text) : option N :=
  match ds with
  | [] => Some 0%N
  | c :: ds => d ← digit c; v ← digits_value ds; Some (d + 10 * v)%N
  end.

(** A numeral: at least one digit, nothing else. *)
Definition read_number (ds : text) : option Z :=
  if decide (ds = []) then None else Z.of_N <$> digits_value (reverse ds).

(** The digits at the front of a text, and what follows them. *)
Fixpoint span_digits (s : text) : text * text :=
  match s with
  | [] => ([], [])
  | c :: s' =>
      if decide (is_Some (digit c)) then
        let '(ds, rest) := span_digits s' in (c :: ds, rest)
      else ([], s)
  end.

(** One line of a listing: a numeral, a dot, a space, the text. *)
Definition parse_entry (line : text) : option (Z * text) :=
  let '(ds, rest) := span_digits line in
  n ← read_number ds;
  match rest with
  | "."%char :: " "%char :: t => Some (n, t)
  | _ => None
  end.

Definition parse_listing (out : text) : option (list (Z * text)) :=
  mapM parse_entry (getlines out).

(** The entries that [render] prints readably: a number that is not
    negative, a text without newline. *)
Definition readable (e : Z * text) : Prop := (0 ≤ e.1)%Z ∧ nl ∉ e.2.

(** ** Decimal numerals *)

Lemma digit_pretty_N_char m : (m < 10)%N → digit (pretty_N_char m) = Some m.
Proof.
  intros Hm.
  assert (m = 0 ∨ m = 1 ∨ m = 2 ∨ m = 3 ∨ m = 4 ∨ m = 5 ∨ m = 6 ∨ m = 7
          ∨ m = 8 ∨ m = 9)%N as Hcases by lia.
  by repeat destruct Hcases as [->|Hcases]; [..|subst].
Qed.

Lemma digit_not_nl c : is_Some (digit c) → c ≠ nl.
Proof. intros [d Hd] ->. by vm_compute in Hd. Qed.

(** [pretty_N_go] puts the digits of its number before its accumulator. *)
Lemma pretty_N_go_app x s :
  chars (pretty_N_go x s) = chars (pretty_N_go x "") ++ chars s.
Proof.
  revert s. induction (N.lt_wf_0 x) as [x _ IH]; intros s.
  destruct (decide (x = 0)%N) as [->|]; [done|].
  assert (x `div` 10 < x)%N as Hlt by (apply N.div_lt; lia).
  rewrite !(pretty_N_go_step x) by lia.
  rewrite (IH _ Hlt (String _ s)), (IH _ Hlt (String _ "")).
  by rewrite <-app_assoc.
Qed.

(** The digits that [pretty_N_go] produces, and their value. *)
Lemma pretty_N_go_digits x :
  Forall (λ c, is_Some (digit c)) (chars (pretty_N_go x "")) ∧
  digits_value (reverse (chars (pretty_N_go x ""))) = Some x.
Proof.
  induction (N.lt_wf_0 x) as [x _ IH].
  destruct (decide (x = 0)%N) as [->|]; [done|].
  rewrite pretty_N_go_step, pretty_N_go_app by lia.
  destruct (IH (x `div` 10)%N) as [Hd Hv]; [apply N.div_lt; lia|].
  assert (digit (pretty_N_char (x `mod` 10)) = Some (x `mod` 10)%N) as Hc
    by (apply digit_pretty_N_char, N.mod_lt; lia).
  change (chars (String ?c "")) with [c]. rewrite reverse_app. simpl.
  rewrite Hc, Hv. simpl. split.
  - apply Forall_app. split; [done|]. repeat constructor. by rewrite Hc.
  - f_equal. pose proof (N.div_mod x 10). lia.
Qed.

(** The numeral of a number that is not negative: digits only, at least
    one, and [read_number] reads the number back. *)
Lemma show_int_digits i :
  (0 ≤ i)%Z →
  Forall (λ c, is_Some (digit c)) (show_int i) ∧ show_int i ≠ [] ∧
  read_number (show_int i) = Some i.
Proof.
  intros Hi. unfold show_int, read_number. destruct i as [|p|p]; [compute_done| |lia].
  change (pretty (Z.pos p)) with (pretty_N_go (N.pos p) "").
  destruct (pretty_N_go_digits (N.pos p)) as [Hd Hv].
  assert (chars (pretty_N_go (N.pos p) "") ≠ []) as Hne.
  { intros Hnil. by rewrite Hnil in Hv. }
  by rewrite decide_False, Hv.
Qed.

(** ** Entries *)

Lemma span_digits_app ds rest :
  Forall (λ c, is_Some (digit c)) ds → ¬ (∃ c, head rest = Some c ∧ is_Some (digit c)) →
  span_digits (ds ++ rest) = (ds, rest).
Proof.
  intros Hds Hrest. induction Hds as [|c ds Hc _ IH]; simpl.
  - destruct rest as [|c rest]; [done|]. simpl. rewrite decide_False; [done|].
    intros Hc. apply Hrest. by exists c.
  - by rewrite decide_True, IH.
Qed.

(** An entry as [render_entry] prints it, without its newline. *)
Lemma parse_entry_render i t :
  (0 ≤ i)%Z → parse_entry (show_int i ++ chars ". " ++ t) = Some (i, t).
Proof.
  intros Hi. destruct (show_int_digits i Hi) as (Hd & _ & Hr).
  unfold parse_entry. rewrite span_digits_app, Hr; [done..|].
  by intros (c & [= <-] & [d Hd']).
Qed.

Lemma show_int_no_nl i : (0 ≤ i)%Z → nl ∉ show_int i.
Proof.
  intros Hi Hnl. destruct (show_int_digits i Hi) as (Hd & _).
  rewrite Forall_forall in Hd. by eapply digit_not_nl; [apply Hd|].
Qed.

(** The lines of a listing are its entries. *)
Lemma getlines_render es :
  Forall readable es →
  getlines (render es) = (λ e, show_int e.1 ++ chars ". " ++ e.2) <$> es.
Proof.
  induction 1 as [|[i t] es [Hi Ht] _ IH]; [done|].
  rewrite render_cons, fmap_cons. unfold render_entry. cbn [fst snd] in *.
  replace ((show_int i ++ chars ". " ++ t ++ [nl]) ++ render es)
    with ((show_int i ++ chars ". " ++ t) ++ nl :: render es)
    by (by rewrite <-!app_assoc).
  rewrite getlines_app, IH; [done|].
  rewrite !not_elem_of_app. split_and!; [by apply show_int_no_nl|by_compute|done].
Qed.

Lemma parse_listing_render es :
  Forall readable es → parse_listing (render es) = Some es.
Proof.
  intros Hes. unfold parse_listing. rewrite getlines_render by done.
  apply mapM_Some. induction Hes as [|[i t] es [Hi Ht] _ IH]; constructor; [|done].
  by apply parse_entry_render.
Qed.

(** ** What the program prints *)

Lemma readable_numbered_from i rs :
  (0 ≤ i)%Z → Forall (λ l, nl ∉ l) rs → Forall readable (numbered_from i rs).
Proof.
  intros Hi Hrs. revert i Hi.
  induction Hrs as [|r rs Hr _ IH]; intros i Hi; constructor; [done|].
  apply IH. lia.
Qed.

Lemma readable_listing s : Forall readable (numbered (records s)).
Proof. apply readable_numbered_from; [done|apply records_no_nl]. Qed.

Lemma readable_matching p es : Forall readable es → Forall readable (matching p es).
Proof.
  intros Hes. apply Forall_forall. intros e [_ He]%list_elem_of_filter.
  by eapply Forall_forall in Hes.
Qed.

(** C26: what [listDB] prints for a database file can be read back: the
    reader finds the records of the file, in order, each with its number;
    and what [searchDB] prints reads back as the matching records with the
    numbers they have in the full listing.  So the output determines the
    records, whatever characters their texts hold. *)
Theorem listing_read_back db w s p :
  fs w !! db = Some (File s) →
  printed (listDB db) w ≫= parse_listing = Some (numbered (records s)) ∧
  printed (searchDB db p) w ≫= parse_listing =
    Some (matching p (numbered (records s))).
Proof.
  intros Hdb. unfold printed.
  rewrite (listDB_run _ _ s), (searchDB_run _ _ s) by done. simpl.
  split; apply parse_listing_render;
    auto using readable_listing, readable_matching.
Qed.

Lemma listing_read_back_witness :
  let w := World {["db" := File (encode [chars "buy milk"; chars "call mom"])]} ∅ [] [] in
  printed (listDB "db") w ≫= parse_listing =
    Some (numbered (records (encode [chars "buy milk"; chars "call mom"]))) ∧
  printed (searchDB "db" (chars "mom")) w ≫= parse_listing =
    Some (matching (chars "mom")
            (numbered (records (encode [chars "buy milk"; chars "call mom"])))).
Proof. by apply listing_read_back. Defined.

(** C27: the output of [listDB] is well formed for every database file,
    whatever it holds: each line is a decimal numeral, a dot, a space and a
    text; the numerals are 1, 2, ... in this order; and each text is a
    record, not empty and without newline. *)
Theorem listing_well_formed db w s :
  fs w !! db = Some (File s) →
  ∃ es, printed (listDB db) w ≫= parse_listing = Some es ∧
        es.*1 = seqZ 1 (Z.of_nat (length es)) ∧ Forall good_text es.*2.
Proof.
  intros Hdb. exists (numbered (records s)). unfold printed.
  rewrite (listDB_run _ _ s) by done. simpl. split_and!.
  - apply parse_listing_render, readable_listing.
  - by rewrite numbered_fst, length_numbered.
  - rewrite numbered_snd. apply records_good.
Qed.

Lemma listing_well_formed_witness :
  let w := World {["db" := File (chars "a" ++ nl :: nl :: chars "b")]} ∅ [] [] in
  ∃ es, printed (listDB "db") w ≫= parse_listing = Some es ∧
        es.*1 = seqZ 1 (Z.of_nat (length es)) ∧ Forall good_text es.*2.
Proof. by apply (listing_well_formed "db" _ (chars "a" ++ nl :: nl :: chars "b")). Defined.
