(* ===== verification/Rules.v ===== *)
(** * Rules: what every run does to the world

    The properties of [Frame] and of [Tree] hold of every run in every
    world, and they are proved in the same way: one fact for each
    primitive of [World], carried through [bind], the conditional and the
    reading loop to the operations of [Store].  This file has that
    argument once.  [always R c] says that every run of the computation
    [c] relates the world it starts in to the world it leaves by [R],
    where [R] may depend on how the run ends.  The class [Primitives] is
    what the argument needs of [R]: runs can be put in sequence, and each
    primitive has the property when it is allowed to print, to throw, to
    create or to change what is at its path.  Every operation of [Store]
    then has [always R], by the shape of its definition, under the
    permissions for what it does.  [Frame] and [Tree] give the
    instances. *)

From S2P Require Import Prelude Lines World Store.

(** ** Definitions *)

(** How a run ends, whatever it returns. *)
Inductive ending :=
  | Returned
  | Exited (code : Z)
  | Aborted
  | Undefined.

Definition how {A} (o : outcome A) : ending :=
  match o with
  | Ret _ => Returned
  | Exit code => Exited code
  | Abort => Aborted
  | Undef => Undefined
  end.

Definition always {A} (R : ending → relation world) (c : prog A) : Prop :=
  ∀ w, R (how (c w).1) w (c w).2.

(** The exit statuses of the program: [exit] is only ever called with 1. *)
Definition status_ok (e : ending) : Prop :=
  match e with
  | Exited code => code = 1%Z
  | _ => True
  end.

(** A relation of two worlds as a property of every run, however it
    ends. *)
Definition however (R : relation world) : ending → relation world :=
  λ e w w', status_ok e ∧ R w w'.

(** An invariant [I] as a relation: a run that starts in [I] ends in
    [I]. *)
Definition kept (I : world → Prop) : relation world := λ w w', I w → I w'.

(** Runs can be put in sequence: a run that returns leaves a world from
    which the next one starts. *)
Class Sequential (R : ending → relation world) : Prop := {
  seq_ret w : R Returned w w;
  seq_bind e w1 w2 w3 : R Returned w1 w2 → R e w2 w3 → R e w1 w3
}.

(** What the primitives have to do for [R].  [may_print] allows to write
    to standard output and [may_throw] to call a function of the library
    that throws; [may_create p] allows to make a file or a directory at
    [p] when nothing is there, [may_change p] to rewrite or remove what
    is at [p].  The program calls [exit] only with status 1 and after a
    message. *)
Class Primitives (R : ending → relation world) (may_print may_throw : Prop)
    (may_create may_change : string → Prop) : Prop := {
  prim_sequential :: Sequential R;
  prim_undef w : R Undefined w w;
  prim_abort w : may_throw → R Aborted w w;
  prim_die t w : R (Exited 1) w (print t w);
  prim_cout t : may_print → always R (cout t);
  prim_getchar : always R getchar;
  prim_create_directory p : may_throw → may_create p → always R (create_directory p);
  prim_fs_remove p : may_throw → may_change p → always R (fs_remove p);
  prim_copy_regular x c to :
    may_throw → "/"%char ∉ chars x → may_create to → may_create (path_append to x) →
    always R (copy_regular x c to);
  prim_ofstream_open p : may_create p → may_change p → always R (ofstream_open p);
  prim_fstream_open_app p : may_create p → always R (fstream_open_app p);
  prim_stream_write p good t : may_change p → always R (stream_write p good t)
}.

Create HintDb rules discriminated.

(** ** The rules *)

#[export] Instance kept_preorder I : PreOrder (kept I).
Proof. split; repeat intros ?; unfold kept in *; auto. Qed.

#[export] Instance however_sequential R `{!PreOrder R} : Sequential (however R).
Proof.
  split; [by intros w|]. intros e w1 w2 w3 [_ H1] [? H2]. split; [done|by etrans].
Qed.

Section rules.
Context (R : ending → relation world) `{!Sequential R}.

Lemma always_ret {A} (a : A) : always R (mret a).
Proof. intros w. apply seq_ret. Qed.

Lemma always_bind {A B} (c : prog A) (k : A → prog B) :
  always R c → (∀ a, always R (k a)) → always R (c ≫= k).
Proof.
  intros Hc Hk w. rewrite bind_run. specialize (Hc w).
  destruct (c w) as [[a| | |] w']; [|done..].
  eapply seq_bind; [done|apply Hk].
Qed.

Lemma always_if {A} (b : bool) (c1 c2 : prog A) :
  always R c1 → always R c2 → always R (if b then c1 else c2).
Proof. by destruct b. Qed.

(** A computation that returns and leaves the world as it is. *)
Lemma always_pure {A} (c : prog A) : (∀ w, ∃ a, c w = (Ret a, w)) → always R c.
Proof. intros Hc w. destruct (Hc w) as [a ->]. apply seq_ret. Qed.

Lemma always_skip : always R skip.
Proof. apply always_ret. Qed.

Lemma always_getenv name : always R (getenv name).
Proof. apply always_pure. by eexists. Qed.

Lemma always_fs_exists p : always R (fs_exists p).
Proof. apply always_pure. by eexists. Qed.

Lemma always_ifstream_open p : always R (ifstream_open p).
Proof. apply always_pure. by eexists. Qed.

Lemma always_ifstream_chars p good : always R (ifstream_chars p good).
Proof. apply always_pure. by eexists. Qed.

(** The reading loop, when its body has the property. *)
Lemma always_while_getline {St} (body : text → St → prog St) s st :
  (∀ line st, always R (body line st)) → always R (while_getline body s st).
Proof.
  intros Hbody. unfold while_getline. generalize (S (length s)).
  intros fuel. revert s st.
  induction fuel as [|fuel IH]; intros s st; simpl; [apply always_ret|].
  destruct (getline s) as [[line rest]|]; [|apply always_ret].
  apply always_bind; auto.
Qed.

End rules.

Section ends.
Context `{Primitives R may_print may_throw may_create may_change}.

Lemma always_undef {A} : always R (undef : prog A).
Proof. intros w. apply prim_undef. Qed.

(** A message, then [exit(1)]. *)
Lemma always_die {A} t : always R (cout t;; (exit 1 : prog A)).
Proof. intros w. apply prim_die. Qed.

End ends.

(** ** Automation *)

(** The rule or the fact of the interface for a statement that is no
    [bind]; the relation is given, so that its instance is found. *)
Ltac always_leaf R :=
  first
    [ apply (always_ret R) | apply (always_skip R) | apply (always_undef (R := R))
    | apply (always_die (R := R))
    | apply (always_getenv R) | apply (always_fs_exists R)
    | apply (always_ifstream_open R) | apply (always_ifstream_chars R)
    | apply (always_while_getline R)
    | apply (prim_cout (R := R)) | apply (prim_getchar (R := R))
    | apply (prim_create_directory (R := R)) | apply (prim_fs_remove (R := R))
    | apply (prim_ofstream_open (R := R)) | apply (prim_fstream_open_app (R := R))
    | apply (prim_stream_write (R := R)) ].

#[export] Hint Extern 1 (always ?R _) => always_leaf R : rules.

(** Follows the shape of a definition: [bind], conditionals and matches,
    then the primitives from the hints. *)
Ltac always_auto :=
  repeat first
    [ match goal with |- always ?R (cout _;; exit 1) => apply (always_die (R := R)) end
    | match goal with |- always ?R _ => apply (always_bind R); [|intros ?] end
    | apply always_if | case_decide | case_match ];
  auto with rules.

(** ** [copy] *)

Section copy.
Context `{Primitives R may_print may_throw may_create may_change}.
Hypothesis Hthrow : may_throw.

Lemma always_copy_files entries to :
  (∀ p, inside to p → may_create p) → always R (copy_files entries to).
Proof.
  intros Hin. induction entries as [|[q c] entries IH]; simpl; [auto with rules|].
  apply (always_bind R); [|done].
  apply prim_copy_regular; [done|apply filename_no_sep|apply Hin..];
    [|eapply inside_below]; apply inside_path_append.
Qed.

(** [copy] writes to its destination, or into it when it is a
    directory. *)
Lemma always_fs_copy from to :
  may_create to → (∀ p, inside to p → may_create p) → always R (fs_copy from to).
Proof.
  intros Hto Hin w. unfold fs_copy.
  assert (always R (create_directory to;; copy_files (dir_files (fs w) from) to))
    by (apply (always_bind R); auto using always_copy_files with rules).
  repeat case_match; try done; try by apply prim_abort.
  apply prim_copy_regular; auto using filename_no_sep, inside_path_append.
Qed.

End copy.

(** ** The operations of [Store] *)

Section operations.
Context `{Primitives R may_print may_throw may_create may_change} (db : string).

(** The guard prints only before it calls [exit]. *)
Lemma always_require_db : always R (require_db db).
Proof. unfold require_db. always_auto. Qed.

Hint Resolve always_require_db : rules.

(** [getConfPath] creates a directory at a path that the environment
    gives. *)
Lemma always_getConfPath : may_throw → (∀ p, may_create p) → always R getConfPath.
Proof. intros Hthrow Hall. unfold getConfPath. always_auto. Qed.

Section silent.
Hypothesis Hcreate : may_create db.
Hypothesis Hchange : may_change db.

(** [addDB] prints nothing and calls nothing that throws. *)
Lemma always_addDB t : always R (addDB db t).
Proof. unfold addDB. always_auto. Qed.

(** [delete_line] writes the temporary file as well, and [copy] may
    write into the database where it has made a directory of it. *)
Hypothesis Hthrow : may_throw.
Hypothesis Htmp_create : may_create tmp_path.
Hypothesis Htmp_change : may_change tmp_path.
Hypothesis Hin : ∀ p, inside db p → may_create p.

Lemma always_delete_line n : always R (delete_line db n).
Proof. unfold delete_line. always_auto. by apply always_fs_copy. Qed.

Lemma always_removeDB i : always R (removeDB db i).
Proof.
  unfold removeDB. apply (always_bind R); [auto with rules|intros ?].
  case_match; [apply always_delete_line|auto with rules].
Qed.

End silent.

Section printing.
Hypothesis Hprint : may_print.

Lemma always_ynPrompt prompt def : always R (ynPrompt prompt def).
Proof. unfold ynPrompt. always_auto. Qed.

Lemma always_listDB_body line i : always R (listDB_body line i).
Proof. unfold listDB_body. always_auto. Qed.

Lemma always_searchDB_body p line i : always R (searchDB_body p line i).
Proof. unfold searchDB_body. always_auto. Qed.

Hint Resolve always_ynPrompt always_listDB_body always_searchDB_body : rules.

(** [listDB] and [searchDB] call no primitive that writes to a file, and
    none that throws. *)
Lemma always_listDB : always R (listDB db).
Proof. unfold listDB. always_auto. Qed.

Lemma always_searchDB p : always R (searchDB db p).
Proof. unfold searchDB. always_auto. Qed.

Lemma always_initDB : may_create db → may_change db → always R (initDB db).
Proof. intros Hcreate Hchange. unfold initDB. always_auto. Qed.

Lemma always_cleanDB : may_throw → may_change db → always R (cleanDB db).
Proof. intros Hthrow Hchange. unfold cleanDB. always_auto. Qed.

End printing.
End operations.
