(* ===== verification/Frame.v ===== *)
(** * Frame: what an operation can touch and how it can end

    Two properties hold of every run of every operation, whatever the
    world it starts in (the database missing, a file or a directory):
    the only exit status that [exit] is called with is 1, and the run
    leaves alone everything but the paths it is given.  [within P c] says
    both of the computation [c]: it changes the file system at paths in [P]
    only, it does not change the environment, it only adds to standard
    output and only consumes standard input.  [copy] is the one primitive
    that writes beyond the path it is given: into the directory it
    creates ([World.inside]); what it writes there is new.  [survives Q]
    is the relation of two worlds of which the second has every entry of
    the first, unchanged, except at the paths in [Q].  Both relations are
    instances of the interface of [Rules], which gives them for the
    operations of [Store].  Two more instances say how output and
    exceptions are ordered: [quiet] holds of what prints only before
    [exit], [no_abort] of what calls nothing that throws, and a
    computation of the first kind followed by one of the second has
    printed nothing when it is aborted. *)

From S2P Require Import Prelude Lines World Store Rules.

(** ** Definitions *)

(** [w'] differs from [w] at most by the files at paths in [P], by more
    output and by less input. *)
Definition preserves (P : string → Prop) (w w' : world) : Prop :=
  (∀ p, ¬ P p → fs w' !! p = fs w !! p) ∧
  env w' = env w ∧
  stdout w `prefix_of` stdout w' ∧
  stdin w' `suffix_of` stdin w.

(** Every run of [c] writes to paths in [P] only. *)
Definition within {A} (P : string → Prop) (c : prog A) : Prop :=
  always (however (preserves P)) c.

(** A computation that writes to no file at all. *)
Definition read_only {A} (c : prog A) : Prop := within (λ _, False) c.

(** [w'] has every entry of [w] as it is in [w], except at the paths in
    [Q]. *)
Definition survives (Q : string → Prop) (w w' : world) : Prop :=
  ∀ p n, ¬ Q p → fs w !! p = Some n → fs w' !! p = Some n.

(** A run that returns or is aborted has printed nothing. *)
Definition quiet (e : ending) (w w' : world) : Prop :=
  e = Returned ∨ e = Aborted → stdout w' = stdout w.

(** No exception leaves the run. *)
Definition no_abort (e : ending) (w w' : world) : Prop := e ≠ Aborted.

(** A run that is aborted has printed nothing. *)
Definition quiet_abort (e : ending) (w w' : world) : Prop :=
  e = Aborted → stdout w' = stdout w.

(** ** [preserves] is a preorder *)

#[export] Instance preserves_preorder P : PreOrder (preserves P).
Proof.
  split.
  - by intros w.
  - intros w1 w2 w3 (Hf1 & He1 & Ho1 & Hi1) (Hf2 & He2 & Ho2 & Hi2).
    split_and!; [|congruence|by etrans..].
    intros p Hp. by rewrite Hf2, Hf1.
Qed.

Lemma preserves_print P t w : preserves P w (print t w).
Proof. split_and!; [done..| |done]. by apply prefix_app_r. Qed.

Lemma preserves_stdin P a rest w :
  stdin w = a :: rest → preserves P w (set_stdin rest w).
Proof. intros E. split_and!; [done..|]. simpl. rewrite E. by apply suffix_cons_r. Qed.

Lemma preserves_insert (P : string → Prop) p x w :
  P p → preserves P w (set_fs <[p := x]> w).
Proof.
  intros Hp. split_and!; [|done..]. intros q Hq. simpl.
  apply lookup_insert_ne. by intros ->.
Qed.

Lemma preserves_delete (P : string → Prop) p w :
  P p → preserves P w (set_fs (delete p) w).
Proof.
  intros Hp. split_and!; [|done..]. intros q Hq. simpl.
  apply lookup_delete_ne. by intros ->.
Qed.

(** A run that writes to no path leaves the file system as it was. *)
Lemma preserves_none w w' : preserves (λ _, False) w w' → fs w' = fs w.
Proof. intros (Hf & _). apply map_eq. intros p. apply Hf. tauto. Qed.

Lemma read_only_fs {A} (c : prog A) w : read_only c → fs (exec c w) = fs w.
Proof. intros Hc. by destruct (Hc w) as [_ ?%preserves_none]. Qed.

(** ** [survives] is a preorder *)

#[export] Instance survives_preorder Q : PreOrder (survives Q).
Proof. split; [by intros w p n|]. intros w1 w2 w3 H1 H2 p n Hp Hn. eauto. Qed.

Lemma survives_fs Q w w' : fs w' = fs w → survives Q w w'.
Proof. intros Hfs p n _. by rewrite Hfs. Qed.

(** Writing at a path in [Q], or at a path where nothing is, destroys
    nothing outside [Q]. *)
Lemma survives_insert (Q : string → Prop) p x w :
  Q p ∨ fs w !! p = None → survives Q w (set_fs <[p := x]> w).
Proof.
  intros Hp q n Hq Hn. simpl. rewrite lookup_insert_ne; [done|].
  intros ->. destruct Hp; [done|congruence].
Qed.

Lemma survives_delete (Q : string → Prop) p w : Q p → survives Q w (set_fs (delete p) w).
Proof. intros Hp q n Hq Hn. simpl. rewrite lookup_delete_ne; [done|]. by intros ->. Qed.

(** ** The primitives *)

(** Closes the fact of a primitive: its result in each case, then the
    world by the lemmas on the relation. *)
Ltac prim_cases :=
  intros; try intros w; unfold however;
  unfold cout, getchar, create_directory, fs_remove, copy_regular, ofstream_open,
    fstream_open_app, stream_write;
  repeat case_match; simpl; try (split; [done|]); try reflexivity.

#[export, refine] Instance preserves_primitives P :
  Primitives (however (preserves P)) True True P P := {
  prim_sequential := however_sequential (preserves P)
}.
Proof.
  all: prim_cases;
    eauto using preserves_print, preserves_stdin, preserves_insert, preserves_delete.
Qed.

#[export, refine] Instance survives_primitives Q :
  Primitives (however (survives Q)) True True (λ _, True) Q := {
  prim_sequential := however_sequential (survives Q)
}.
Proof.
  all: prim_cases; eauto using survives_fs, survives_insert, survives_delete.
Qed.

(** ** Output and exceptions *)

#[export] Instance quiet_sequential : Sequential quiet.
Proof.
  split; [by intros w|]. intros e w1 w2 w3 H1 H2 He.
  rewrite H2, H1 by auto. done.
Qed.

#[export] Instance no_abort_sequential : Sequential no_abort.
Proof. by split. Qed.

(** The primitives that throw print nothing, and the one that prints does
    not throw. *)
#[export, refine] Instance quiet_primitives :
  Primitives quiet False True (λ _, True) (λ _, True) := {
  prim_sequential := quiet_sequential
}.
Proof. all: prim_cases; unfold quiet; try done; by intros [|]. Qed.

#[export, refine] Instance no_abort_primitives :
  Primitives no_abort True False (λ _, True) (λ _, True) := {
  prim_sequential := no_abort_sequential
}.
Proof. all: by prim_cases. Qed.

(** A computation that prints nothing before an exception, followed by
    one that is quiet when it is aborted; and a computation of the second
    kind followed by one that is never aborted. *)
Section quiet_abort.
Context {A B : Type} (c : prog A) (k : A → prog B).

Lemma quiet_abort_quiet : always quiet c → always quiet_abort c.
Proof. intros Hc w He. apply Hc. by right. Qed.

Lemma quiet_abort_no_abort : always no_abort c → always quiet_abort c.
Proof. intros Hc w He. by destruct (Hc w). Qed.

Lemma quiet_abort_bind :
  always quiet c → (∀ a, always quiet_abort (k a)) → always quiet_abort (c ≫= k).
Proof.
  intros Hc Hk w. rewrite bind_run. specialize (Hc w).
  destruct (c w) as [[a| | |] w']; unfold quiet, quiet_abort in *; simpl in *;
    [|done|auto|done].
  intros He. rewrite Hk, Hc by auto. done.
Qed.

Lemma quiet_abort_then :
  always quiet_abort c → (∀ a, always no_abort (k a)) → always quiet_abort (c ≫= k).
Proof.
  intros Hc Hk w. rewrite bind_run. specialize (Hc w).
  destruct (c w) as [[a| | |] w']; [|done..].
  intros He. by destruct (Hk a w').
Qed.

End quiet_abort.

(** ** Footprints *)

(** C30: the footprint of each operation, whatever the world and the
    arguments: [listDB] and [searchDB] write to no file at all; [initDB],
    [addDB] and [cleanDB] write to the database path only, and [removeDB]
    to the database path, to the temporary file and, when it makes a
    directory of the database, to paths in it, where it changes nothing
    that is there; none of them changes the environment or exits with a
    status other than 1. *)
Theorem operations_footprint db t i :
  read_only (listDB db) ∧
  read_only (searchDB db t) ∧
  within (λ p, p = db) (initDB db) ∧
  within (λ p, p = db) (addDB db t) ∧
  within (λ p, p = db) (cleanDB db) ∧
  within (λ p, p = db ∨ p = tmp_path ∨ inside db p) (removeDB db i) ∧
  always (however (survives (λ p, p = db ∨ p = tmp_path))) (removeDB db i).
Proof.
  split_and!;
    first [apply always_listDB|apply always_searchDB|apply always_initDB|
           apply always_addDB|apply always_cleanDB|apply always_removeDB];
    auto.
Qed.
