(* ===== verification/Tree.v ===== *)
(** * Tree: the file system stays a tree

    In a file system every entry lies in a directory: [fs_tree] says so of
    the map of [World], with the root and the current directory as the
    two directories that hold themselves.  The primitives of [World] are
    written so that they keep it: a file or a directory is created only
    in a directory that exists, and a directory is removed only when it is
    empty.  That makes the invariant an instance of the interface of
    [Rules]: every operation of [Store] keeps the tree, however it
    ends. *)

From S2P Require Import Prelude Lines World Store Rules.

(** ** Definitions *)

(** Every entry lies in a directory of the map. *)
Definition fs_tree (f : gmap string node) : Prop :=
  map_Forall (λ p _, f !! dirname p = Some Dir) f.

#[export] Instance fs_tree_dec f : Decision (fs_tree f).
Proof. unfold fs_tree. apply _. Defined.

(** The worlds whose file system is a tree. *)
Definition tree (w : world) : Prop := fs_tree (fs w).

(** ** Trees under insertion and deletion *)

Section fs_tree.
Implicit Types (f : gmap string node) (p q : string).

(** In a tree an entry is in a directory, and nothing is below a path
    whose directory is missing or a file. *)
Lemma fs_tree_lookup f p n : fs_tree f → f !! p = Some n → f !! dirname p = Some Dir.
Proof. intros Hf Hp. by apply (Hf p n). Qed.

Lemma fs_tree_orphan f p : fs_tree f → f !! dirname p ≠ Some Dir → f !! p = None.
Proof.
  intros Hf Hp. destruct (f !! p) as [n|] eqn:E; [|done].
  by apply fs_tree_lookup in E.
Qed.

(** A regular file holds no entry. *)
Lemma fs_tree_file_empty f p c : fs_tree f → f !! p = Some (File c) → ¬ has_entries f p.
Proof.
  intros Hf Hp (q & [n Hq] & Hd & _)%has_entries_alt.
  apply (fs_tree_lookup f q n Hf) in Hq. by rewrite Hd, Hp in Hq.
Qed.

Lemma fs_tree_insert_dir f p :
  fs_tree f → f !! dirname p = Some Dir ∨ dirname p = p → fs_tree (<[p := Dir]> f).
Proof.
  intros Hf Hp. apply map_Forall_insert_2.
  - destruct (decide (dirname p = p)) as [->|]; [apply lookup_insert_eq|].
    rewrite lookup_insert_ne by done. by destruct Hp.
  - intros q n Hq. destruct (decide (dirname q = p)) as [->|];
      [apply lookup_insert_eq|].
    rewrite lookup_insert_ne by done. by apply (Hf q n).
Qed.

Lemma fs_tree_insert_file f p c :
  fs_tree f → f !! dirname p = Some Dir → f !! p ≠ Some Dir →
  fs_tree (<[p := File c]> f).
Proof.
  intros Hf Hd Hp.
  assert (∀ q n, f !! q = Some n → dirname q ≠ p) as Hne.
  { intros q n Hq <-. by apply (fs_tree_lookup f q n Hf) in Hq. }
  apply map_Forall_insert_2.
  - rewrite lookup_insert_ne; [done|]. intros E. apply Hp. congruence.
  - intros q n Hq. rewrite lookup_insert_ne by (by apply not_eq_sym, (Hne q n)).
    by apply (Hf q n).
Qed.

Lemma fs_tree_delete f p : fs_tree f → ¬ has_entries f p → fs_tree (delete p f).
Proof.
  intros Hf Hp q n [Hne Hq]%lookup_delete_Some.
  rewrite lookup_delete_ne; [by apply (Hf q n)|].
  intros E. apply Hp, has_entries_alt. exists q. by rewrite Hq.
Qed.

End fs_tree.

(** ** The primitives keep the tree *)

(** A file copied into a directory becomes an entry of it. *)
Lemma fs_tree_insert_inside f to x c :
  fs_tree f → "/"%char ∉ chars x → f !! to = Some Dir →
  f !! path_append to x = None → fs_tree (<[path_append to x := File c]> f).
Proof.
  intros Hf Hx Hto Hin. apply fs_tree_insert_file; [done| |congruence].
  by destruct (dirname_path_append_dir to x Hx) as [-> | ->];
    eauto using fs_tree_lookup.
Qed.

(** A regular file that is written, or created in a directory. *)
Ltac apply_insert_file :=
  apply fs_tree_insert_file;
    first [done | solve [eauto using fs_tree_lookup] | congruence].

#[export, refine] Instance tree_primitives :
  Primitives (however (kept tree)) True True (λ _, True) (λ _, True) := {
  prim_sequential := however_sequential (kept tree)
}.
Proof.
  all: intros; try intros w; unfold however; (split; [|intros Hw; unfold tree in *]);
    unfold cout, getchar, create_directory, fs_remove, copy_regular, ofstream_open,
      fstream_open_app, stream_write, parent_dir;
    repeat case_match; subst; simpl; try done;
    eauto using fs_tree_insert_dir, fs_tree_delete, fs_tree_file_empty,
      fs_tree_insert_inside;
    by apply_insert_file.
Qed.
