(* ===== verification/Refine.v ===== *)
(** * Refine: the program implements the contract of the record store

    The state of the store of [Spec] is read off the world: the store is
    initialized when the database path holds a regular file, and its
    records are the non-empty lines of that file.  The invariant
    [file_ok] says that the file is [canonical] (written by the program
    itself from records), that its directory exists, and that the
    temporary file of [delete_line] can be written.  [file_store] is the instance of [RecordStore] whose
    operations run [initDB] (with the prompt confirmed), [addDB],
    [removeDB], [cleanDB], [listDB] and [searchDB]; its laws are the
    refinement lemmas of this file. *)

From S2P Require Import Prelude Lines DeleteLine Records Match Spec World Store Rules Frame.

Section file_store.
Context (db : string) (Hdb : db ≠ tmp_path).

(** ** Abstraction and invariant *)

Definition file_contents (w : world) : option (list text) :=
  match fs w !! db with
  | Some (File c) => Some (records c)
  | _ => None
  end.

Definition file_ok (w : world) : Prop :=
  tmp_writable w ∧ fs w !! dirname db = Some Dir ∧
  match fs w !! db with
  | Some (File c) => canonical c
  | Some Dir => False
  | None => True
  end.

#[export] Instance file_ok_dec w : Decision (file_ok w).
Proof. unfold file_ok. destruct (fs w !! db) as [[]|]; apply _. Defined.

(** The caller of [initialize] confirms: the next character of standard
    input is a newline. *)
Definition confirm (w : world) : world := set_stdin (nl :: stdin w) w.

(** One command of the contract, run by the program. *)
Definition run_command (w : world) (c : command) : world :=
  match c with
  | Initialize => exec (initDB db) (confirm w)
  | Append t => exec (addDB db t) w
  | DeleteAt k => exec (removeDB db k) w
  | Wipe => exec (cleanDB db) w
  end.

(** The paths that the invariant looks at: the database, the temporary
    path and their directories. *)
Definition file_ok_paths : list string :=
  [db; tmp_path; dirname db; dirname tmp_path].

Lemma file_ok_cases w :
  file_ok w →
  fs w !! db = None ∨ ∃ c, fs w !! db = Some (File c) ∧ canonical c.
Proof. intros (_ & _ & H). destruct (fs w !! db) as [[c|]|]; eauto. done. Qed.

(** The database, the temporary file and their two directories are four
    paths. *)
Lemma file_ok_ne w :
  file_ok w →
  dirname db ≠ db ∧ dirname db ≠ tmp_path ∧
  dirname tmp_path ≠ db ∧ dirname tmp_path ≠ tmp_path.
Proof.
  intros ([Htmp Htd] & Hdir & H).
  split_and!; apply (lookup_ne_key (fs w)); rewrite ?Hdir, ?Htd; try done;
    by destruct (fs w !! db) as [[]|].
Qed.

(** The invariant looks at these four paths only. *)
Lemma file_ok_fs w w' :
  (∀ p, p ∈ file_ok_paths → fs w' !! p = fs w !! p) → file_ok w → file_ok w'.
Proof.
  clear Hdb. intros Hfs. unfold file_ok, tmp_writable, file_ok_paths in *.
  by rewrite !Hfs by set_solver.
Qed.

(** The invariant after a write to the database, to the temporary file,
    or to both. *)
Lemma file_ok_write w w' :
  file_ok w → fs w' !! tmp_path ≠ Some Dir →
  (∀ p, p ≠ db → p ≠ tmp_path → fs w' !! p = fs w !! p) →
  match fs w' !! db with
  | Some (File c) => canonical c
  | Some Dir => False
  | None => True
  end →
  file_ok w'.
Proof.
  intros Hok Htmp Hfs Hc. destruct (file_ok_ne w Hok) as (? & ? & ? & ?).
  destruct Hok as ([_ Htd] & Hdir & _). unfold file_ok, tmp_writable.
  by rewrite (Hfs (dirname tmp_path)), (Hfs (dirname db)) by done.
Qed.

(** ** The file system after each operation *)

Lemma fs_initialize w :
  file_ok w → fs (exec (initDB db) (confirm w)) = <[db := File []]> (fs w).
Proof.
  intros Hok. pose proof Hok as (_ & Hdir & _).
  destruct (file_ok_cases w Hok) as [?|(c & Hc & _)]; unfold exec.
  - by rewrite initDB_fresh_run.
  - by rewrite (initDB_confirmed_run _ _ c).
Qed.

Lemma fs_append w t :
  file_ok w →
  fs (exec (addDB db t) w) =
  match fs w !! db with
  | Some (File c) => <[db := File (c ++ nl :: t)]> (fs w)
  | _ => fs w
  end.
Proof.
  intros [Hc|(c & Hc & _)]%file_ok_cases; unfold exec; rewrite Hc.
  - by destruct (missing_run db w t 0 Hc) as (_ & -> & _).
  - by rewrite (addDB_run _ _ c).
Qed.

Lemma fs_deleteAt w k :
  file_ok w → in_int (k + 1) →
  fs (exec (removeDB db k) w) =
  match fs w !! db with
  | Some (File c) =>
      let c' := encode (delete_record k (records c)) in
      <[db := File c']> (<[tmp_path := File c']> (fs w))
  | _ => fs w
  end.
Proof.
  intros Hok Hk. pose proof Hok as (Htmp & Hdir & _).
  apply file_ok_cases in Hok as [Hc|(c & Hc & Hcan)]; unfold exec; rewrite Hc.
  - by destruct (missing_run db w [] k Hc) as (_ & _ & -> & _).
  - rewrite (removeDB_run _ _ c) by done. simpl.
    apply canonical_iff in Hcan as (ts & Hts & ->).
    by rewrite delete_line_loop_encode, records_encode.
Qed.

Lemma fs_wipe w : file_ok w → fs (exec (cleanDB db) w) = delete db (fs w).
Proof.
  intros [Hc|(c & Hc & _)]%file_ok_cases; unfold exec.
  - destruct (missing_run db w [] 0 Hc) as (_ & _ & _ & _ & ->). simpl.
    by rewrite delete_id.
  - by rewrite (cleanDB_run _ _ c).
Qed.

(** ** The invariant under the operations outside the contract *)

Lemma file_ok_read_only {A} (c : prog A) w :
  read_only c → file_ok w → file_ok (exec c w).
Proof.
  intros Hc. apply file_ok_fs. intros p _. by rewrite read_only_fs.
Qed.

(** [initDB] with any answer to its prompt: the database is left alone or
    becomes the empty file. *)
Lemma file_ok_initDB w : file_ok w → file_ok (exec (initDB db) w).
Proof.
  intros Hok. pose proof Hok as ([Htmp _] & Hdir & _).
  destruct (file_ok_cases w Hok) as [Hc|(c & Hc & Hcan)]; unfold exec.
  { rewrite initDB_fresh_run by done.
    apply (file_ok_write w); [done|..]; simpl; intros; by simplify_map_eq. }
  destruct (answer_yes (head (stdin w))) eqn:Hyes.
  - rewrite (initDB_confirmed_run _ _ c) by done.
    apply (file_ok_write w); [done|..]; simpl; intros; by simplify_map_eq.
  - rewrite initDB_declined_run by (by rewrite ?Hc). by apply (file_ok_fs w).
Qed.

(** ** The instance *)

#[export, refine] Instance file_store : RecordStore world := {|
  store_ok := file_ok;
  contents := file_contents;
  initialize w := exec (initDB db) (confirm w);
  append t := exec (addDB db t);
  deleteAt k := exec (removeDB db k);
  wipe := exec (cleanDB db);
  listing := printed (listDB db);
  search p := printed (searchDB db p)
|}.
Proof.
  - intros w Hok. pose proof Hok as ([Htmp _] & _).
    apply (file_ok_write w); rewrite ?fs_initialize by done;
      [done|..]; intros; by simplify_map_eq.
  - intros t w Hok Ht. pose proof Hok as ([Htmp _] & _).
    apply (file_ok_write w); rewrite ?fs_append by done; [done|..];
      apply file_ok_cases in Hok as [Hc|(c & Hc & Hcan)]; rewrite Hc;
      intros; simplify_map_eq; try done. by apply append_canonical.
  - intros k w Hok Hk. pose proof Hok as ([Htmp _] & _).
    apply (file_ok_write w); rewrite ?fs_deleteAt by done; [done|..];
      apply file_ok_cases in Hok as [Hc|(c & Hc & Hcan)]; rewrite Hc;
      intros; simplify_map_eq; try done.
    apply canonical_encode, delete_record_good, records_good.
  - intros w Hok. pose proof Hok as ([Htmp _] & _).
    apply (file_ok_write w); rewrite ?fs_wipe by done; [done|..];
      intros; by simplify_map_eq.
  - intros w Hok. unfold file_contents. rewrite fs_initialize by done.
    by simplify_map_eq.
  - intros t w Hok Ht. unfold file_contents. rewrite fs_append by done.
    destruct (fs w !! db) as [[c|]|] eqn:Hc; simplify_map_eq; try done.
    by rewrite records_snoc.
  - intros k w Hok Hk. unfold file_contents. rewrite fs_deleteAt by done.
    destruct (fs w !! db) as [[c|]|] eqn:Hc; simplify_map_eq; try done.
    rewrite records_encode; [done|]. apply delete_record_good, records_good.
  - intros w Hok. unfold file_contents. rewrite fs_wipe by done.
    by simplify_map_eq.
  - intros w [Hc|(c & Hc & _)]%file_ok_cases; unfold file_contents, printed;
      rewrite Hc.
    + by destruct (missing_run db (World (fs w) (env w) (stdin w) []) [] 0 Hc) as (-> & _).
    + by rewrite (listDB_run _ _ c).
  - intros p w [Hc|(c & Hc & _)]%file_ok_cases; unfold file_contents, printed;
      rewrite Hc.
    + by destruct (missing_run db (World (fs w) (env w) (stdin w) []) p 0 Hc)
        as (_ & _ & _ & -> & _).
    + by rewrite (searchDB_run _ _ c).
Defined.

End file_store.

(** ** The program refines the model *)

(** C1: started in a world that satisfies the
    invariant (no database, or a canonical database file, in a directory
    that exists; the temporary file writable), any sequence of [init] (confirmed), [add] of a
    one-record text, [remove] and [clean] keeps the invariant, and the
    records of the database file afterwards are those that the same
    commands leave in the list model of the contract. *)
Theorem program_refines_model db cs w :
  db ≠ tmp_path → file_ok db w → Forall good_command cs →
  file_ok db (foldl (run_command db) w cs) ∧
  file_contents db (foldl (run_command db) w cs) = run cs (file_contents db w).
Proof.
  intros Hdb Hok Hcs.
  destruct (run_refines (H := file_store db Hdb) cs w Hok Hcs) as [Hok' Hc].
  split; [exact Hok'|exact Hc].
Qed.

Lemma program_refines_model_witness :
  let db := "/home/u/.todo/database" in
  let w := World {["/home/u/.todo" := Dir; "/tmp" := Dir]} ∅ [] [] in
  let cs := [Initialize; Append (chars "buy milk"); Append (chars "call mom");
             DeleteAt 1; Wipe; Initialize; Append (chars "buy milk")] in
  file_ok db (foldl (run_command db) w cs) ∧
  file_contents db (foldl (run_command db) w cs) = run cs (file_contents db w).
Proof.
  apply program_refines_model; [done|compute_done|].
  repeat constructor; compute_done.
Defined.

(** C29: after [cleanDB] on a store that satisfies the
    invariant, every operation except [initDB] prints
    "Database not initialized!" and exits with status 1. *)
Theorem wipe_uninitializes db w t i :
  file_ok db w →
  let w' := exec (cleanDB db) w in
  let failed := (Exit 1 : outcome unit, print not_initialized w') in
  listDB db w' = failed ∧ addDB db t w' = failed ∧ removeDB db i w' = failed ∧
  searchDB db t w' = failed ∧ cleanDB db w' = failed.
Proof.
  intros Hok. apply missing_run. rewrite fs_wipe by done. by simplify_map_eq.
Qed.

Lemma wipe_uninitializes_witness :
  let w := World {["" := Dir; "db" := File [nl; "a"%char]; "/tmp" := Dir]} ∅ [] [] in
  listDB "db" (exec (cleanDB "db") w) =
  (Exit 1, print not_initialized (exec (cleanDB "db") w)).
Proof.
  intros w. apply (wipe_uninitializes "db" w [] 0). compute_done.
Defined.
