(* ===== verification/Crash.v ===== *)
(** * Crash: [delete_line] interrupted

    [delete_line] replaces the database in four effects on the file
    system: it opens the temporary file (line 201), writes it (lines 213
    and 217), removes the original (line 223) and copies the temporary file
    into its place (line 226).  Nothing makes the four one: a run that is
    killed leaves the world after some of them.  [delete_line_upto k] is
    [delete_line] stopped after [k] effects and [delete_line_from k] what
    is left of it then: reference definitions, cut from [delete_line],
    which is equivalent to the two in sequence ([delete_line_split]) and
    to the first from [k = 4] on.  The theorems give the world
    at each point: before the third effect the database is untouched, after
    it the database is missing while the temporary file holds what the
    database was to become, and the invariant of [Refine] holds at every
    point, so the next run sees a store that is not initialized.  The same
    points are those at which a run of another process can fall:
    [delete_line_from k] is the rest of [delete_line] after [k] effects,
    and an [add] between the two is lost or refused. *)

From S2P Require Import Prelude Lines Match DeleteLine Records Spec World Store.
From S2P Require Import Refine.

(** ** Definitions *)

(** [delete_line] (lines 195-228) stopped after [k] of its effects on the
    file system: the statements of [Store.delete_line] in their order,
    with a return after the [k]-th effect. *)
Definition delete_line_upto (k : nat) (file_name : string) (n : Z) : prog unit :=
  if decide (k = 0) then skip else
  is_good ← ifstream_open file_name;
  ofs_good ← ofstream_open tmp_path;
  if decide (k = 1) then skip else
  s ← ifstream_chars file_name is_good;
  stream_write tmp_path ofs_good (ofs (delete_line_loop n s));;
  if decide (k = 2) then skip else
  fs_remove file_name;;
  if decide (k = 3) then skip else
  fs_copy tmp_path file_name.

(** The effects of [delete_line] that are left once the temporary file is
    complete, that is after [k ≥ 2] of them: the removal of the original
    and the copy. *)
Definition delete_line_from (k : nat) (file_name : string) : prog unit :=
  (if decide (k ≤ 2) then fs_remove file_name;; skip else skip);;
  if decide (k ≤ 3) then fs_copy tmp_path file_name else skip.

(** The file system after [k] effects, for a database with content [s]
    that is to become [s']. *)
Definition fs_upto (k : nat) (db : string) (s' : text) (f : gmap string node) :
    gmap string node :=
  match k with
  | 0 => f
  | 1 => <[tmp_path := File []]> f
  | 2 => <[tmp_path := File s']> f
  | 3 => delete db (<[tmp_path := File s']> f)
  | _ => <[db := File s']> (<[tmp_path := File s']> f)
  end.

(** ** The interrupted run *)

Lemma delete_line_upto_all k file_name n :
  4 ≤ k → delete_line_upto k file_name n ≡ delete_line file_name n.
Proof.
  intros Hk w. by destruct k as [|[|[|[|k]]]]; [lia..|].
Qed.

(** A run is its first [k] effects followed by the others. *)
Lemma delete_line_split k file_name n :
  2 ≤ k →
  (delete_line_upto k file_name n;; delete_line_from k file_name) ≡
  delete_line file_name n.
Proof.
  intros Hk. unfold delete_line_upto, delete_line_from, delete_line.
  destruct k as [|[|[|[|k]]]]; [lia..| | |]; simpl;
    repeat first
      [ setoid_rewrite bind_skip_r | setoid_rewrite bind_assoc
      | progress (unfold skip; setoid_rewrite bind_ret_l) ];
    done.
Qed.

Section interrupted.
Context (db : string) (w : world) (s : text) (n : Z).
Hypothesis Hne : db ≠ tmp_path.
Hypothesis Hdb : fs w !! db = Some (File s).
Hypothesis Htmp : tmp_writable w.
Hypothesis Hdir : fs w !! dirname db = Some Dir.

Lemma delete_line_upto_run k :
  delete_line_upto k db n w =
  (Ret (), set_fs (fs_upto k db (ofs (delete_line_loop n s))) w).
Proof.
  unfold delete_line_upto. destruct Htmp as [Hfree Htd].
  assert (dirname db ≠ db) by (apply (lookup_ne_key (fs w)); by rewrite Hdir, Hdb).
  assert (dirname db ≠ tmp_path) by (apply (lookup_ne_key (fs w)); by rewrite Hdir).
  destruct k as [|[|[|[|k]]]]; simpl;
    (destruct (fs w !! tmp_path) as [[]|] eqn:E; try done; prog_simp;
     try (by destruct w);
     f_equal; apply world_eq; simpl; try done; apply map_eq; intros p;
     destruct (decide (p = db)) as [->|]; simplify_map_eq; try done;
     destruct (decide (p = tmp_path)) as [->|]; by simplify_map_eq).
Qed.

(** The invariant of the store holds wherever the run stops. *)
Lemma file_ok_interrupted k i :
  n = (i + 1)%Z → file_ok db w → file_ok db (exec (delete_line_upto k db n) w).
Proof.
  intros Hn Hok. pose proof Hok as ([Hfree _] & _ & Hcan). rewrite Hdb in Hcan.
  pose proof (delete_canonical s i Hcan) as Hc. rewrite <-Hn in Hc.
  unfold exec. rewrite delete_line_upto_run.
  apply (file_ok_write db w); [done|..]; simpl; intros;
    destruct k as [|[|[|[|k]]]]; simpl; by simplify_map_eq.
Qed.

(** The run of [delete_line] is the run stopped after [k] effects
    followed by the effects that are left. *)
Lemma delete_line_resume k :
  2 ≤ k →
  exec (delete_line_from k db) (exec (delete_line_upto k db n) w) =
  exec (delete_line db n) w.
Proof.
  intros Hk. unfold exec at 1 3. rewrite <-(delete_line_split k db n Hk w).
  rewrite bind_run. unfold exec. by rewrite delete_line_upto_run.
Qed.

(** C23: [delete_line] stopped after [k] of its four effects on the file
    system.  Up to two effects the database is as it was; after the third
    it is missing, and the temporary file holds what the database was to
    become; from the fourth on the run is the whole of [delete_line].  So a
    run killed between [remove] and [copy] leaves a store that is not
    initialized, with its records in /tmp/tmptodo.txt.  The points are
    points of the run of [delete_line]: once the temporary file is
    complete, the effects that are left lead from each of them to the
    world that [delete_line] leaves. *)
Theorem delete_line_interrupted k :
  let w' := exec (delete_line_upto k db n) w in
  let s' := ofs (delete_line_loop n s) in
  match k with
  | 0 | 1 | 2 => fs w' !! db = Some (File s)
  | 3 => fs w' !! db = None ∧ fs w' !! tmp_path = Some (File s')
  | _ => w' = exec (delete_line db n) w ∧ fs w' !! db = Some (File s')
  end ∧
  (2 ≤ k → exec (delete_line_from k db) w' = exec (delete_line db n) w).
Proof.
  split; [|apply delete_line_resume].
  destruct k as [|[|[|[|k]]]]; simpl;
    [unfold exec; rewrite delete_line_upto_run; by simplify_map_eq..|].
  rewrite delete_line_upto_all by lia. split; [done|].
  unfold exec. rewrite (delete_line_run _ _ s) by done. by simplify_map_eq.
Qed.

(** C24: a run of [add] that falls into a run of [remove], once the
    temporary file is complete.  Before the original is removed the
    addition succeeds, and is lost: the copy puts the content without the
    new record in place of the database.  After the original is removed
    the addition is refused, for the database is missing: the run prints
    "Database not initialized!" and exits with status 1, although nobody
    has wiped the store.  Nothing protects a run from another.  The two
    parts of the run of [remove] are parts of [delete_line]: with no run
    between them they leave the world that [delete_line] leaves. *)
Theorem add_during_remove t :
  let s' := ofs (delete_line_loop n s) in
  let after k := exec (delete_line_upto k db n) w in
  let finish k w1 := exec (delete_line_from k db) (exec (addDB db t) w1) in
  (∀ k, 2 ≤ k → exec (delete_line_from k db) (after k) = exec (delete_line db n) w) ∧
  (addDB db t (after 2) = (Ret (), set_fs <[db := File (s ++ nl :: t)]> (after 2)) ∧
   fs (exec (addDB db t) (after 2)) !! db = Some (File (s ++ nl :: t)) ∧
   fs (finish 2 (after 2)) !! db = Some (File s')) ∧
  (addDB db t (after 3) = (Exit 1, print not_initialized (after 3)) ∧
   fs (finish 3 (after 3)) !! db = Some (File s')).
Proof.
  assert (dirname db ≠ db) by (apply (lookup_ne_key (fs w)); by rewrite Hdir, Hdb).
  assert (dirname db ≠ tmp_path)
    by (apply (lookup_ne_key (fs w)); destruct Htmp; by rewrite Hdir).
  split; [apply delete_line_resume|].
  unfold exec. rewrite !delete_line_upto_run. cbn [snd]. split.
  - rewrite (addDB_run _ _ s) by (simpl; by simplify_map_eq).
    split_and!; [done|simpl; by simplify_map_eq|].
    unfold delete_line_from. simpl. prog_simp. by simplify_map_eq.
  - destruct (missing_run db
      (set_fs (fs_upto 3 db (ofs (delete_line_loop n s))) w) t 0) as (_ & -> & _);
      [simpl; by simplify_map_eq|].
    split; [done|]. unfold delete_line_from. simpl. prog_simp. by simplify_map_eq.
Qed.

End interrupted.

Lemma delete_line_interrupted_witness :
  let s := encode [chars "buy milk"; chars "call mom"] in
  let w := World {["" := Dir; "db" := File s; "/tmp" := Dir]} ∅ [] [] in
  let w' := exec (delete_line_upto 3 "db" 2) w in
  fs w' !! "db" = None ∧
  fs w' !! tmp_path = Some (File (ofs (delete_line_loop 2 s))).
Proof.
  intros s w.
  by apply (delete_line_interrupted "db" w s 2
              ltac:(done) ltac:(done) ltac:(by_compute) ltac:(done) 3).
Defined.

Lemma add_during_remove_witness :
  let s := encode [chars "buy milk"; chars "call mom"] in
  let w := World {["" := Dir; "db" := File s; "/tmp" := Dir]} ∅ [] [] in
  let w1 := exec (delete_line_upto 2 "db" 2) w in
  fs (exec (delete_line_from 2 "db") (exec (addDB "db" (chars "feed cat")) w1)) !! "db"
  = Some (File (encode [chars "call mom"])).
Proof.
  intros s w.
  by apply (add_during_remove "db" w s 2
              ltac:(done) ltac:(done) ltac:(by_compute) ltac:(done) (chars "feed cat")).
Defined.
