(* ===== verification/Main.v ===== *)
(** * Main: the dispatch of [main]

    [main] (src/main.cpp, lines 37-82) parses the command line with
    Boost.Program_options and calls at most one operation of [Store] on the
    path [getConfPath() / "database"].  The parsing is the library's and is
    not modelled: a [cmdline] holds what [main] reads after [po::notify],
    that is [argc], the options present in the variables map, and the
    values stored in the variables [text] and [index]; [after_notify]
    gives it from the options that [po::store] kept.  The theorems give
    the run of [main] for each command in a world in which the
    configuration directory exists or can be created ([conf_ready]), what
    happens when [getConfPath] cannot do its work, the exit status and the
    footprint of every run. *)

From S2P Require Import Prelude Lines Match DeleteLine Records Spec World Store.
From S2P Require Import Rules Frame Tree.

(** ** The parsed command line *)

Inductive option_name :=
  | opt_help | opt_init | opt_list | opt_add | opt_remove | opt_search | opt_clean.

#[export] Instance option_name_eq_dec : EqDecision option_name.
Proof. solve_decision. Defined.

(** What [main] reads once the command line is parsed: [argc], which
    options are in the variables map, and the variables [text] and [index]
    (lines 39 and 40).  The two [int]s are [Z]s: the library stores to
    [index] only values of an [int], and where a theorem needs the range
    it says so ([in_int]). *)
Record cmdline := Cmdline {
  argc : Z;
  vm_count : option_name → bool;   (* [vm.count(name) != 0] *)
  v_text : text;                   (* the variable [text] *)
  v_index : Z                      (* the variable [index] *)
}.

(** ** From the stored options to the variables *)

(** What [po::store] keeps for an option that was given: nothing for a
    flag, a string for [add] and [search] ([po::value<std::string>]), an
    [int] for [remove] ([po::value<int>]). *)
Inductive value :=
  | Flag
  | Text (t : text)
  | Int (i : Z).

(** The notifier of one option, lines 52-54: the value of [add] and the
    value of [search] are both stored to the variable [text], the value of
    [remove] to [index]; the other options store nothing. *)
Definition notify_step (vm : option_name → option value) (vars : text * Z)
    (o : option_name) : text * Z :=
  match o with
  | opt_add | opt_search =>
      match vm o with Some (Text t) => (t, vars.2) | _ => vars end
  | opt_remove =>
      match vm o with Some (Int i) => (vars.1, i) | _ => vars end
  | _ => vars
  end.

(** [po::notify(vm)], line 59, visiting the stored options in the order
    [order]. *)
Definition notify_in (order : list option_name) (vm : option_name → option value)
    (vars : text * Z) : text * Z :=
  foldl (notify_step vm) vars order.

(** The order in which [po::notify] visits the options, an assumption
    about the library and no code of the program: [po::variables_map] is a
    [std::map] from the names of the options to their values, and
    [notify] walks it from [begin()] to [end()], that is by name. *)
Definition map_order : list option_name :=
  [opt_add; opt_clean; opt_help; opt_init; opt_list; opt_remove; opt_search].

(** What [main] reads after line 59, from the stored options: [text] starts
    empty (line 39), [index] starts with the indeterminate value [index0]
    (line 40). *)
Definition after_notify (argc : Z) (vm : option_name → option value) (index0 : Z) :
    cmdline :=
  let vars := notify_in map_order vm ([], index0) in
  Cmdline argc (λ o, bool_decide (is_Some (vm o))) vars.1 vars.2.

(** [getConfPath() / "database"] *)
Definition db_path : prog string :=
  conf ← getConfPath; mret (path_append conf "database").

Section main.
(** The text that [std::cout << desc] prints: the library formats it. *)
Variable usage : text.

(** [main], lines 61-80. *)
Definition main (c : cmdline) : prog Z :=
  if bool_decide (argc c = 1%Z) || vm_count c opt_help then
    cout (usage ++ [nl]);; mret 0%Z
  else
    (if vm_count c opt_init then p ← db_path; initDB p
     else if vm_count c opt_list then p ← db_path; listDB p
     else if vm_count c opt_add then p ← db_path; addDB p (v_text c)
     else if vm_count c opt_remove then p ← db_path; removeDB p (v_index c)
     else if vm_count c opt_search then p ← db_path; searchDB p (v_text c)
     else if vm_count c opt_clean then p ← db_path; cleanDB p
     else skip);;
    mret 0%Z.

End main.

(** ** The dispatch, as a function of the parsed command line *)

Definition wants_help (c : cmdline) : bool :=
  bool_decide (argc c = 1%Z) || vm_count c opt_help.

(** The option that [main] acts on: the first one present, in the order
    of the [if ... else if] chain. *)
Definition selected (c : cmdline) : option option_name :=
  head (filter (λ o, vm_count c o = true)
               [opt_init; opt_list; opt_add; opt_remove; opt_search; opt_clean]).

Definition operation (c : cmdline) (o : option_name) (p : string) : prog unit :=
  match o with
  | opt_help => skip
  | opt_init => initDB p
  | opt_list => listDB p
  | opt_add => addDB p (v_text c)
  | opt_remove => removeDB p (v_index c)
  | opt_search => searchDB p (v_text c)
  | opt_clean => cleanDB p
  end.

(** The exit status and final world of [main] after an operation. *)
Definition finish (r : outcome unit * world) : outcome Z * world :=
  match r with
  | (Ret _, w') => (Ret 0%Z, w')
  | (Exit code, w') => (Exit code, w')
  | (Abort, w') => (Abort, w')
  | (Undef, w') => (Undef, w')
  end.

(** The configuration directory and the database path for given values of
    [HOME] and [XDG_CONFIG_HOME], and the world once [getConfPath] has made
    sure that the directory exists. *)
Definition database_path (home xdg : string) : string :=
  path_append (conf_dir home xdg) "database".

Definition with_conf (home xdg : string) (w : world) : world :=
  match fs w !! conf_dir home xdg with
  | None => set_fs <[conf_dir home xdg := Dir]> w
  | Some _ => w
  end.

(** [getConfPath] can return: when nothing is at the path of the
    configuration directory, the directory in which it is to be created
    exists. *)
Definition conf_usable (home xdg : string) (w : world) : Prop :=
  fs w !! conf_dir home xdg = None →
  fs w !! dirname (conf_dir home xdg) = Some Dir.

(** The configuration directory exists or can be created: [getConfPath]
    can return, and no regular file is at the path. *)
Definition conf_ready (home xdg : string) (w : world) : Prop :=
  match fs w !! conf_dir home xdg with
  | Some Dir => True
  | Some (File _) => False
  | None => fs w !! dirname (conf_dir home xdg) = Some Dir
  end.

#[export] Instance conf_usable_dec home xdg w : Decision (conf_usable home xdg w).
Proof. unfold conf_usable. apply _. Defined.

#[export] Instance conf_ready_dec home xdg w : Decision (conf_ready home xdg w).
Proof. unfold conf_ready. destruct (fs w !! conf_dir home xdg) as [[]|]; apply _. Defined.

(** The exit statuses of [main]: 0 from [return 0], 1 from [exit(1)]. *)
Definition exit_status_ok (o : outcome Z) : Prop :=
  match o with
  | Ret v => v = 0%Z
  | Exit code => code = 1%Z
  | _ => True
  end.

(** The paths that a run started in [w] may write to: the temporary file
    of [delete_line], the configuration directory, the database in it
    and, for a run that makes a directory of the database, what is in
    it. *)
Definition touched (w : world) (p : string) : Prop :=
  p = tmp_path ∨
  ∃ home xdg, env w !! "HOME" = Some home ∧ env w !! "XDG_CONFIG_HOME" = Some xdg ∧
    (p = conf_dir home xdg ∨ p = database_path home xdg ∨
     inside (database_path home xdg) p).

(** The paths at which a run started in [w] may change or remove what is
    there: the temporary file and the database. *)
Definition rewritten (w : world) (p : string) : Prop :=
  p = tmp_path ∨
  ∃ home xdg, env w !! "HOME" = Some home ∧ env w !! "XDG_CONFIG_HOME" = Some xdg ∧
    p = database_path home xdg.

(** ** Concrete command lines and worlds for the examples *)

(** A command line with one option. *)
Definition only (o : option_name) (t : string) (i : Z) : cmdline :=
  Cmdline 2 (λ o', bool_decide (o' = o)) (chars t) i.

Definition demo_env : gmap string string :=
  <["HOME" := "/home/u"]> (<["XDG_CONFIG_HOME" := ""]> ∅).

Definition demo_db : string := "/home/u/.todo/database".

(** The directories of a fresh system. *)
Definition demo_dirs : gmap string node :=
  {["/" := Dir; "/home" := Dir; "/home/u" := Dir; "/tmp" := Dir]}.

(** A world with a database of the records "buy milk" and "call mom" and
    with [inp] waiting on standard input. *)
Definition demo_world (inp : text) : world :=
  World (<[demo_db := File (encode [chars "buy milk"; chars "call mom"])]>
           (<["/home/u/.todo" := Dir]> demo_dirs))
        demo_env inp [].

(** A world with no database and no configuration directory. *)
Definition fresh_world : world := World demo_dirs demo_env [] [].

Definition demo_usage : text := chars "Available Options".

Section main_facts.
Variable usage : text.
Implicit Types (c : cmdline) (w : world).

Lemma main_unfold c w :
  main usage c w =
  if wants_help c then (Ret 0%Z, print (usage ++ [nl]) w)
  else match selected c with
       | Some o => finish ((db_path ≫= operation c o) w)
       | None => (Ret 0%Z, w)
       end.
Proof.
  unfold main, wants_help, selected.
  destruct (bool_decide (argc c = 1%Z) || vm_count c opt_help); [done|].
  rewrite bind_run, !filter_cons, filter_nil.
  destruct (vm_count c opt_init); [reflexivity|].
  destruct (vm_count c opt_list); [reflexivity|].
  destruct (vm_count c opt_add); [reflexivity|].
  destruct (vm_count c opt_remove); [reflexivity|].
  destruct (vm_count c opt_search); [reflexivity|].
  destruct (vm_count c opt_clean); reflexivity.
Qed.

(** The selected option is present, and it is not [help]. *)
Lemma selected_Some c o :
  selected c = Some o → vm_count c o = true ∧ o ≠ opt_help.
Proof.
  intros [l Hl]%head_Some.
  assert (o ∈ filter (λ o, vm_count c o = true)
            [opt_init; opt_list; opt_add; opt_remove; opt_search; opt_clean])
    as [Ho Hin]%list_elem_of_filter by (rewrite Hl; left).
  split; [done|]. intros ->. set_solver.
Qed.

Lemma conf_dir_last home xdg : last (chars (conf_dir home xdg)) = Some "o"%char.
Proof. unfold conf_dir. case_decide; by apply path_append_last. Qed.

Lemma conf_dir_ne_tmp home xdg : conf_dir home xdg ≠ tmp_path.
Proof. intros H. pose proof (conf_dir_last home xdg) as Hl. by rewrite H in Hl. Qed.

(** The database is an entry of the configuration directory. *)
Lemma dirname_database_path home xdg :
  dirname (database_path home xdg) = conf_dir home xdg.
Proof.
  apply (dirname_path_append _ _ "o"%char); [apply conf_dir_last|done|by_compute].
Qed.

Lemma conf_ready_usable home xdg w : conf_ready home xdg w → conf_usable home xdg w.
Proof. unfold conf_ready, conf_usable. intros H E. by rewrite E in H. Qed.

Section with_env.
Context (w : world) (home xdg : string).
Hypothesis Hhome : env w !! "HOME" = Some home.
Hypothesis Hxdg : env w !! "XDG_CONFIG_HOME" = Some xdg.

Lemma db_path_run :
  conf_usable home xdg w →
  db_path w = (Ret (database_path home xdg), with_conf home xdg w).
Proof.
  intros Hconf. unfold db_path, with_conf.
  rewrite bind_run, (getConfPath_run w home xdg) by done. unfold parent_dir.
  destruct (fs w !! conf_dir home xdg) eqn:E; [done|]. by rewrite (Hconf E).
Qed.

(** When the configuration directory cannot be created, the exception of
    [create_directory] ends the program. *)
Lemma db_path_abort :
  ¬ conf_usable home xdg w → db_path w = (Abort, w).
Proof.
  intros Hconf. unfold db_path.
  rewrite bind_run, (getConfPath_run w home xdg) by done. unfold parent_dir.
  destruct (fs w !! conf_dir home xdg) eqn:E.
  { destruct Hconf. intros ?. congruence. }
  destruct (fs w !! dirname (conf_dir home xdg)) as [[]|] eqn:E'; try done.
  destruct Hconf. by intros ?.
Qed.

(** After [getConfPath] the directory of the database exists, unless a
    regular file is in its place. *)
Lemma fs_with_conf_dir :
  conf_ready home xdg w →
  fs (with_conf home xdg w) !! dirname (database_path home xdg) = Some Dir.
Proof.
  rewrite dirname_database_path. unfold conf_ready, with_conf.
  destruct (fs w !! conf_dir home xdg) as [[]|] eqn:E; try done.
  intros _. simpl. by simplify_map_eq.
Qed.

Lemma fs_with_conf p :
  p ≠ conf_dir home xdg → fs (with_conf home xdg w) !! p = fs w !! p.
Proof.
  intros Hp. unfold with_conf. destruct (fs w !! conf_dir home xdg); [done|].
  simpl. by rewrite lookup_insert_ne.
Qed.

Lemma fs_with_conf_db :
  fs (with_conf home xdg w) !! database_path home xdg = fs w !! database_path home xdg.
Proof. apply fs_with_conf. by apply path_append_ne. Qed.

Lemma fs_with_conf_tmp : fs (with_conf home xdg w) !! tmp_path = fs w !! tmp_path.
Proof. apply fs_with_conf. apply not_eq_sym, conf_dir_ne_tmp. Qed.

(** Creating the configuration directory leaves the temporary file
    writable. *)
Lemma tmp_writable_with_conf : tmp_writable w → tmp_writable (with_conf home xdg w).
Proof.
  intros [Htmp Htd]. split; [by rewrite fs_with_conf_tmp|].
  unfold with_conf. destruct (fs w !! conf_dir home xdg) eqn:E; [done|].
  simpl. rewrite lookup_insert_ne; [done|]. intros Heq. by rewrite Heq, Htd in E.
Qed.

Lemma stdin_with_conf : stdin (with_conf home xdg w) = stdin w.
Proof. unfold with_conf. by destruct (fs w !! conf_dir home xdg). Qed.

Lemma stdout_with_conf : stdout (with_conf home xdg w) = stdout w.
Proof. unfold with_conf. by destruct (fs w !! conf_dir home xdg). Qed.

Lemma with_conf_present :
  is_Some (fs w !! conf_dir home xdg) → with_conf home xdg w = w.
Proof. intros [n Hn]. unfold with_conf. by rewrite Hn. Qed.

(** [main] with an option selected runs its operation on the database
    path, in the world that [getConfPath] leaves. *)
Lemma main_run c o :
  wants_help c = false → selected c = Some o → conf_usable home xdg w →
  main usage c w =
  finish (operation c o (database_path home xdg) (with_conf home xdg w)).
Proof.
  intros Hh Ho Hconf. by rewrite main_unfold, Hh, Ho, bind_run, db_path_run.
Qed.

Lemma main_abort c :
  wants_help c = false → is_Some (selected c) → ¬ conf_usable home xdg w →
  main usage c w = (Abort, w).
Proof.
  intros Hh [o Ho] Hconf. by rewrite main_unfold, Hh, Ho, bind_run, db_path_abort.
Qed.

End with_env.

(** ** The three ways in which [main] runs *)

(** [main] prints and returns, or stops at a variable that is not set or
    at a configuration directory that cannot be created, or runs the
    selected operation on the database path. *)
Lemma main_cases c w :
  (∃ t, main usage c w = (Ret 0%Z, print t w)) ∨
  (∃ r : outcome Z, main usage c w = (r, w) ∧ (r = Undef ∨ r = Abort)) ∨
  ∃ o home xdg,
    selected c = Some o ∧
    env w !! "HOME" = Some home ∧ env w !! "XDG_CONFIG_HOME" = Some xdg ∧
    conf_usable home xdg w ∧
    main usage c w =
    finish (operation c o (database_path home xdg) (with_conf home xdg w)).
Proof.
  destruct (wants_help c) eqn:Hh.
  { left. exists (usage ++ [nl]). by rewrite main_unfold, Hh. }
  destruct (selected c) as [o|] eqn:Ho.
  2: { left. exists []. by rewrite main_unfold, Hh, Ho, print_nil. }
  right. destruct (env w !! "HOME") as [home|] eqn:Hhome,
    (env w !! "XDG_CONFIG_HOME") as [xdg|] eqn:Hxdg.
  2-4: left; exists Undef; split; [|by left]; rewrite main_unfold, Hh, Ho;
    unfold db_path; rewrite bind_run, bind_run, getConfPath_unset_run; [done|auto].
  destruct (decide (conf_usable home xdg w)) as [Hconf|Hconf].
  - right. exists o, home, xdg. split_and!; [done..|by apply main_run].
  - left. exists Abort. split; [|by right]. by apply (main_abort w home xdg).
Qed.

Lemma finish_status r : status_ok (how r.1) → exit_status_ok (finish r).1.
Proof. by destruct r as [[[]| | |] w']. Qed.

Lemma finish_how r : how (finish r).1 = how r.1.
Proof. by destruct r as [[[]| | |] w']. Qed.

Lemma finish_world r : (finish r).2 = r.2.
Proof. by destruct r as [[[]| | |] w']. Qed.

(** What holds of the primitives holds of the operation that [main]
    selects, for the paths it is given. *)
Lemma always_operation `{Primitives R may_print may_throw may_create may_change}
    c o p :
  may_print → may_throw →
  may_create p → may_change p → may_create tmp_path → may_change tmp_path →
  (∀ q, inside p q → may_create q) → always R (operation c o p).
Proof.
  intros. destruct o; simpl;
    [apply (always_skip R)|by apply always_initDB|by apply always_listDB|
     by apply always_addDB|by apply always_removeDB|by apply always_searchDB|
     by apply always_cleanDB].
Qed.

(** Every run of [main] keeps the tree. *)
Lemma main_keeps_tree_run c w : tree w → tree (exec (main usage c) w).
Proof.
  intros Hw. unfold exec. rewrite main_unfold.
  destruct (wants_help c); [done|]. destruct (selected c) as [o|]; [|done].
  rewrite finish_world. revert Hw. apply (always_bind (however (kept tree))).
  - unfold db_path. apply (always_bind (however (kept tree))); [|auto with rules].
    by apply always_getConfPath.
  - intros p. by apply always_operation.
Qed.

(** The operations call what may throw before they print: an operation
    that is aborted has printed nothing. *)
Lemma quiet_abort_operation c o p : always quiet_abort (operation c o p).
Proof.
  destruct o; simpl;
    [apply quiet_abort_no_abort, (always_skip no_abort)
    |by apply quiet_abort_no_abort, always_initDB
    |by apply quiet_abort_no_abort, always_listDB
    |by apply quiet_abort_no_abort, always_addDB
    |by apply quiet_abort_quiet, always_removeDB
    |by apply quiet_abort_no_abort, always_searchDB|].
  unfold cleanDB.
  apply quiet_abort_bind; [apply always_require_db|intros _].
  apply quiet_abort_bind; [by apply prim_fs_remove|intros _].
  by apply quiet_abort_no_abort, prim_cout.
Qed.

Lemma preserves_with_conf (P : string → Prop) home xdg w :
  P (conf_dir home xdg) → preserves P w (with_conf home xdg w).
Proof.
  intros HP. unfold with_conf. destruct (fs w !! conf_dir home xdg); [done|].
  by apply preserves_insert.
Qed.

Lemma survives_with_conf (Q : string → Prop) home xdg w :
  survives Q w (with_conf home xdg w).
Proof.
  unfold with_conf. destruct (fs w !! conf_dir home xdg) eqn:E; [done|].
  apply survives_insert. by right.
Qed.

End main_facts.

(** ** What each command does *)

Section commands.
Variable usage : text.
Context (c : cmdline) (w : world).

(** With no argument at all, or with the option [help],
    [main] prints the description of the options and a newline, returns 0
    and touches neither the environment nor the file system, whatever
    other options are present. *)
Theorem main_help :
  wants_help c = true → main usage c w = (Ret 0%Z, print (usage ++ [nl]) w).
Proof. intros H. by rewrite main_unfold, H. Qed.

Context (home xdg : string).
Hypothesis Hhelp : wants_help c = false.
Hypothesis Hhome : env w !! "HOME" = Some home.
Hypothesis Hxdg : env w !! "XDG_CONFIG_HOME" = Some xdg.
Hypothesis Hconf : conf_ready home xdg w.

Abbreviation db := (database_path home xdg).
Abbreviation w0 := (with_conf home xdg w).

(** C14: every command but [init], run while no
    database exists, prints "Database not initialized!" and exits with
    status 1; the file system is as [getConfPath] left it. *)
Theorem main_not_initialized o :
  selected c = Some o → o ≠ opt_init → fs w !! db = None →
  main usage c w = (Exit 1, print not_initialized w0).
Proof.
  intros Ho Hne Hdb. rewrite (main_run usage w home xdg) with (o := o)
    by auto using conf_ready_usable.
  rewrite <-(fs_with_conf_db w home xdg) in Hdb.
  destruct (missing_run db w0 (v_text c) (v_index c) Hdb) as (Hl & Ha & Hr & Hs & Hc).
  apply selected_Some in Ho as [_ Hnh].
  by destruct o; simpl; rewrite ?Hl, ?Ha, ?Hr, ?Hs, ?Hc.
Qed.

(** C8: [list] on a database file prints one line "N. text"
    for each non-empty line of the file, in file order, numbered from 1,
    and returns 0; the file is not changed. *)
Theorem main_list s :
  selected c = Some opt_list → fs w !! db = Some (File s) →
  main usage c w = (Ret 0%Z, print (render (numbered (records s))) w0).
Proof.
  intros Ho Hdb. rewrite (main_run usage w home xdg) with (o := opt_list)
    by auto using conf_ready_usable.
  simpl. by rewrite (listDB_run _ _ s) by by rewrite fs_with_conf_db.
Qed.

(** C13: [search] prints, of the lines that [list] prints, exactly those
    whose text contains the pattern as a contiguous, case-sensitive
    sequence of characters, each with the number it has in the full
    listing, and in the order of the listing. *)
Theorem main_search s :
  selected c = Some opt_search → fs w !! db = Some (File s) →
  let found := matching (v_text c) (numbered (records s)) in
  main usage c w = (Ret 0%Z, print (render found) w0) ∧
  found `sublist_of` numbered (records s) ∧
  ∀ k t, (k, t) ∈ found ↔ (k, t) ∈ numbered (records s) ∧ infix_of (v_text c) t.
Proof.
  intros Ho Hdb. rewrite (main_run usage w home xdg) with (o := opt_search)
    by auto using conf_ready_usable.
  simpl. rewrite (searchDB_run _ _ s) by by rewrite fs_with_conf_db.
  split_and!; [done|apply matching_sublist|apply elem_of_matching].
Qed.

(** C9: [add] appends a newline followed by the text to the
    database file, whatever the file ends with, prints nothing and
    returns 0. *)
Theorem main_add s :
  selected c = Some opt_add → fs w !! db = Some (File s) →
  main usage c w =
  (Ret 0%Z, set_fs <[db := File (s ++ nl :: v_text c)]> w0).
Proof.
  intros Ho Hdb. rewrite (main_run usage w home xdg) with (o := opt_add)
    by auto using conf_ready_usable.
  simpl. by rewrite (addDB_run _ _ s) by by rewrite fs_with_conf_db.
Qed.

(** C7: [remove] with index [i] rewrites the database file
    with physical line [i + 1] dropped, as [delete_line_loop] drops it,
    through the temporary file [/tmp/tmptodo.txt], which keeps a copy of
    the new content. *)
Theorem main_remove s :
  selected c = Some opt_remove → fs w !! db = Some (File s) →
  tmp_writable w → in_int (v_index c + 1) →
  let s' := ofs (delete_line_loop (v_index c + 1) s) in
  main usage c w =
  (Ret 0%Z, set_fs (λ f, <[db := File s']> (<[tmp_path := File s']> f)) w0).
Proof.
  intros Ho Hdb Htmp Hi. rewrite (main_run usage w home xdg) with (o := opt_remove)
    by auto using conf_ready_usable.
  simpl. rewrite (removeDB_run _ _ s);
    auto using tmp_writable_with_conf, fs_with_conf_dir.
  - by rewrite fs_with_conf_db.
  - apply database_ne_tmp.
Qed.

(** C38: [remove] with index [INT_MAX] computes
    [index + 1] in [int]: the addition overflows and the behaviour is
    undefined. *)
Theorem main_remove_overflow :
  selected c = Some opt_remove → is_Some (fs w !! db) → v_index c = INT_MAX →
  main usage c w = (Undef, w0).
Proof.
  intros Ho Hdb Hi. rewrite (main_run usage w home xdg) with (o := opt_remove)
    by auto using conf_ready_usable.
  simpl. by rewrite Hi, removeDB_overflow_run by by rewrite fs_with_conf_db.
Qed.

(** C28: [clean] removes the database file, prints
    "Database cleaned!" and returns 0; it asks for no confirmation. *)
Theorem main_clean s :
  selected c = Some opt_clean → fs w !! db = Some (File s) →
  main usage c w = (Ret 0%Z, print cleaned_msg (set_fs (delete db) w0)).
Proof.
  intros Ho Hdb. rewrite (main_run usage w home xdg) with (o := opt_clean)
    by auto using conf_ready_usable.
  simpl. by rewrite (cleanDB_run _ _ s) by by rewrite fs_with_conf_db.
Qed.

(** C15: [init].  Where no database exists it creates an empty database
    file without asking and prints "Database initialized!".  On an existing
    database it asks for confirmation: when the character read is not a
    newline, [y] or [Y] (or the input is at its end) it returns 0 after
    the prompt and the database is unchanged; when it is, it truncates
    the file to empty and prints "Database re-initialized!". *)
Theorem main_init :
  selected c = Some opt_init →
  (fs w !! db = None →
   main usage c w =
   (Ret 0%Z, print (initialized_msg false) (set_fs <[db := File []]> w0))) ∧
  (is_Some (fs w !! db) → answer_yes (head (stdin w)) = false →
   main usage c w = (Ret 0%Z, prompted w0) ∧
   fs (prompted w0) !! db = fs w !! db) ∧
  (∀ s, fs w !! db = Some (File s) → answer_yes (head (stdin w)) = true →
   main usage c w =
   (Ret 0%Z, print (initialized_msg true) (set_fs <[db := File []]> (prompted w0)))).
Proof.
  intros Ho. rewrite (main_run usage w home xdg) with (o := opt_init)
    by auto using conf_ready_usable.
  simpl. split_and!.
  - intros Hdb. by rewrite initDB_fresh_run
      by (by rewrite ?fs_with_conf_db, ?fs_with_conf_dir).
  - intros Hdb Hno.
    rewrite initDB_declined_run by by rewrite ?fs_with_conf_db, ?stdin_with_conf.
    split; [done|]. simpl. apply fs_with_conf_db.
  - intros s Hdb Hyes. by rewrite (initDB_confirmed_run _ _ s)
      by by rewrite ?fs_with_conf_db, ?stdin_with_conf.
Qed.

End commands.

(** ** Two options for one variable *)

(** The variables after [po::notify]: [text] holds the value of [search]
    when [search] was given, else the value of [add]; [index] the value of
    [remove]. *)
Lemma after_notify_vars argc vm i0 :
  v_text (after_notify argc vm i0) =
    match vm opt_search, vm opt_add with
    | Some (Text y), _ => y
    | _, Some (Text x) => x
    | _, _ => []
    end ∧
  v_index (after_notify argc vm i0) =
    match vm opt_remove with Some (Int i) => i | _ => i0 end.
Proof.
  unfold after_notify, notify_in. simpl.
  by destruct (vm opt_add) as [[]|], (vm opt_remove) as [[]|],
    (vm opt_search) as [[]|].
Qed.

(** C25: [add] and [search] store their values to the same variable.  When
    both are given, [main] runs [addDB], since [add] comes first in its
    chain of tests, but the text it appends is the value of [search],
    which [po::notify] stored last: the item asked for is not added and
    the search pattern is. *)
Theorem main_add_and_search usage argc vm i0 w home xdg s x y :
  argc ≠ 1%Z → vm opt_help = None → vm opt_init = None → vm opt_list = None →
  vm opt_add = Some (Text x) → vm opt_search = Some (Text y) →
  env w !! "HOME" = Some home → env w !! "XDG_CONFIG_HOME" = Some xdg →
  conf_usable home xdg w → fs w !! database_path home xdg = Some (File s) →
  main usage (after_notify argc vm i0) w =
  (Ret 0%Z,
   set_fs <[database_path home xdg := File (s ++ nl :: y)]> (with_conf home xdg w)).
Proof.
  intros Hargc Hhelp Hinit Hlist Hadd Hsearch Hh Hx Hconf Hdb.
  destruct (after_notify_vars argc vm i0) as [Htext _].
  rewrite Hsearch in Htext.
  rewrite (main_run usage w home xdg Hh Hx _ opt_add).
  - cbn [operation]. rewrite Htext.
    by rewrite (addDB_run _ _ s) by by rewrite fs_with_conf_db.
  - unfold wants_help. simpl. by rewrite Hhelp, bool_decide_false.
  - unfold selected. rewrite !filter_cons. simpl. by rewrite Hinit, Hlist, Hadd.
  - done.
Qed.

(** ** Every run *)

(** C19: whatever the command line and the world, a run of [main] that
    ends does so by returning 0 or through [exit(1)]: no other status is
    ever produced.  A run that an exception of the library aborts has
    printed nothing: what throws is called before anything is printed,
    so that no output is lost with the buffer of the stream. *)
Theorem main_status usage c w :
  exit_status_ok (main usage c w).1 ∧
  ((main usage c w).1 = Abort → stdout (main usage c w).2 = stdout w).
Proof.
  destruct (main_cases usage c w)
    as [[t ->]|[(r & -> & [-> | ->])|(o & home & xdg & _ & _ & _ & _ & ->)]];
    [done..|].
  split.
  - by apply finish_status, (always_operation (R := however (preserves (λ _, True)))).
  - intros He. rewrite finish_world, <-(stdout_with_conf w home xdg).
    apply quiet_abort_operation. by rewrite <-finish_how, He.
Qed.

(** C20: whatever the command line and the world, a run of [main] writes
    to no path but the temporary file of [delete_line], the configuration
    directory, the database in it and, when [copy] makes a directory of
    the database, paths in that directory; it leaves the environment as
    it was, only adds to standard output and only consumes standard
    input.  What it writes outside the temporary file and the database is
    new: every other entry of the file system is after the run what it
    was before. *)
Theorem main_footprint usage c w :
  preserves (touched w) w (main usage c w).2 ∧
  survives (rewritten w) w (main usage c w).2.
Proof.
  destruct (main_cases usage c w)
    as [[t ->]|[(r & -> & _)|(o & home & xdg & _ & Hh & Hx & _ & ->)]];
    [split; [apply preserves_print|by apply survives_fs]|by split|].
  rewrite finish_world.
  assert (∀ p, p = conf_dir home xdg ∨ p = database_path home xdg ∨
    inside (database_path home xdg) p → touched w p)
    as Ht by (intros p Hp; right; eauto).
  assert (rewritten w (database_path home xdg)) by (right; eauto).
  split.
  - etrans; [apply preserves_with_conf; auto|].
    apply (always_operation (R := however (preserves (touched w)))); auto; by left.
  - etrans; [apply survives_with_conf|].
    apply (always_operation (R := however (survives (rewritten w)))); auto; by left.
Qed.


(** C21: when [getConfPath] cannot do its work, every command but [help]
    goes wrong before it does anything.  With [HOME] or [XDG_CONFIG_HOME]
    not set, a path or a string is built from a null pointer: the
    behaviour is undefined.  With nothing at the path of the configuration
    directory and the directory in which it is to be created missing,
    nothing catches the exception of [create_directory]: the program is
    aborted.  With a regular file at that path, [getConfPath] takes it for
    the directory: [init] opens no stream in it, yet prints "Database
    initialized!" and returns 0 with nothing created. *)
Theorem main_conf_unusable usage c w :
  wants_help c = false → is_Some (selected c) →
  (env w !! "HOME" = None ∨ env w !! "XDG_CONFIG_HOME" = None →
   main usage c w = (Undef, w)) ∧
  ∀ home xdg,
    env w !! "HOME" = Some home → env w !! "XDG_CONFIG_HOME" = Some xdg →
    (¬ conf_usable home xdg w → main usage c w = (Abort, w)) ∧
    (selected c = Some opt_init → tree w →
     is_Some (fs w !! conf_dir home xdg) → fs w !! conf_dir home xdg ≠ Some Dir →
     main usage c w = (Ret 0%Z, print (initialized_msg false) w)).
Proof.
  intros Hhelp Hsel. split.
  { intros Henv. destruct Hsel as [o Ho]. rewrite main_unfold, Hhelp, Ho.
    unfold db_path. by rewrite bind_run, bind_run, getConfPath_unset_run. }
  intros home xdg Hh Hx. split; [by apply main_abort|].
  intros Ho Hw [n Hn] Hfile.
  assert (fs w !! dirname (database_path home xdg) ≠ Some Dir) as Hdir
    by by rewrite dirname_database_path.
  rewrite (main_run usage w home xdg) with (o := opt_init);
    [|done..|by intros E; rewrite E in Hn].
  rewrite with_conf_present by by rewrite Hn.
  simpl. unfold initDB. pose proof (fs_tree_orphan _ _ Hw Hdir) as Hdb.
  destruct (fs w !! dirname (database_path home xdg)) as [[]|] eqn:E;
    by prog_simp.
Qed.

(** ** Concrete runs *)

Lemma main_conf_unusable_witness :
  let w := World {["/" := Dir; "/home" := Dir]} demo_env [] [] in
  main demo_usage (only opt_list "" 0) w = (Abort, w).
Proof.
  intros w.
  apply (proj2 (main_conf_unusable demo_usage (only opt_list "" 0) w
                  eq_refl ltac:(by_compute)) "/home/u" ""); by_compute.
Defined.


Lemma main_status_witness :
  let w := World (<[demo_db +:+ "/notes" := File []]>
                    (<[demo_db := Dir]> (<["/home/u/.todo" := Dir]> demo_dirs)))
             demo_env [] (chars "$ todo -c") in
  stdout (main demo_usage (only opt_clean "" 0) w).2 = stdout w.
Proof. intros w. apply (main_status demo_usage). by_compute. Defined.

Lemma main_help_witness :
  main demo_usage (only opt_help "" 0) fresh_world =
  (Ret 0%Z, print (demo_usage ++ [nl]) fresh_world).
Proof. apply main_help. by vm_compute. Defined.

Lemma main_not_initialized_witness :
  main demo_usage (only opt_add "buy milk" 0) fresh_world =
  (Exit 1, print not_initialized (with_conf "/home/u" "" fresh_world)).
Proof. apply (main_not_initialized demo_usage (only opt_add "buy milk" 0) (fresh_world) "/home/u" "" eq_refl eq_refl eq_refl eq_refl opt_add); by_compute. Defined.

Lemma main_list_witness :
  main demo_usage (only opt_list "" 0) (demo_world []) =
  (Ret 0%Z,
   print (render (numbered (records (encode [chars "buy milk"; chars "call mom"]))))
     (with_conf "/home/u" "" (demo_world []))).
Proof. apply (main_list demo_usage (only opt_list "" 0) (demo_world []) "/home/u" "" eq_refl eq_refl eq_refl); by_compute. Defined.

Lemma main_search_witness :
  main demo_usage (only opt_search "mom" 0) (demo_world []) =
  (Ret 0%Z,
   print (render (matching (chars "mom")
            (numbered (records (encode [chars "buy milk"; chars "call mom"])))))
     (with_conf "/home/u" "" (demo_world []))).
Proof.
  apply (main_search demo_usage (only opt_search "mom" 0) (demo_world [])
           "/home/u" "" eq_refl eq_refl eq_refl I); by_compute.
Defined.

Lemma main_add_witness :
  main demo_usage (only opt_add "feed cat" 0) (demo_world []) =
  (Ret 0%Z,
   set_fs <[demo_db := File (encode [chars "buy milk"; chars "call mom"] ++ nl :: chars "feed cat")]>
     (with_conf "/home/u" "" (demo_world []))).
Proof. apply (main_add demo_usage (only opt_add "feed cat" 0) (demo_world []) "/home/u" "" eq_refl eq_refl eq_refl); by_compute. Defined.

Lemma main_remove_witness :
  let s' := ofs (delete_line_loop (1 + 1) (encode [chars "buy milk"; chars "call mom"])) in
  main demo_usage (only opt_remove "" 1) (demo_world []) =
  (Ret 0%Z,
   set_fs (λ f, <[demo_db := File s']> (<[tmp_path := File s']> f))
     (with_conf "/home/u" "" (demo_world []))).
Proof.
  apply (main_remove demo_usage (only opt_remove "" 1) (demo_world []) "/home/u" "" eq_refl eq_refl eq_refl);
    by_compute.
Defined.

Lemma main_remove_overflow_witness :
  main demo_usage (only opt_remove "" INT_MAX) (demo_world []) =
  (Undef, with_conf "/home/u" "" (demo_world [])).
Proof. apply (main_remove_overflow demo_usage (only opt_remove "" INT_MAX) (demo_world []) "/home/u" "" eq_refl eq_refl eq_refl); by_compute. Defined.

Lemma main_clean_witness :
  main demo_usage (only opt_clean "" 0) (demo_world []) =
  (Ret 0%Z, print cleaned_msg (set_fs (delete demo_db) (with_conf "/home/u" "" (demo_world [])))).
Proof.
  apply (main_clean demo_usage (only opt_clean "" 0) (demo_world []) "/home/u" ""
           eq_refl eq_refl eq_refl I (encode [chars "buy milk"; chars "call mom"]));
    by_compute.
Defined.

Lemma main_init_witness :
  let c := only opt_init "" 0 in
  let w := demo_world (chars "Y") in
  let w0 := with_conf "/home/u" "" w in
  (fs w !! demo_db = None →
   main demo_usage c w =
   (Ret 0%Z, print (initialized_msg false) (set_fs <[demo_db := File []]> w0))) ∧
  (is_Some (fs w !! demo_db) → answer_yes (head (stdin w)) = false →
   main demo_usage c w = (Ret 0%Z, prompted w0) ∧
   fs (prompted w0) !! demo_db = fs w !! demo_db) ∧
  (∀ s, fs w !! demo_db = Some (File s) → answer_yes (head (stdin w)) = true →
   main demo_usage c w =
   (Ret 0%Z, print (initialized_msg true) (set_fs <[demo_db := File []]> (prompted w0)))).
Proof.
  apply (main_init demo_usage (only opt_init "" 0) (demo_world (chars "Y"))
           "/home/u" "" eq_refl eq_refl eq_refl I eq_refl).
Defined.

Lemma main_add_and_search_witness :
  let vm o :=
    match o with
    | opt_add => Some (Text (chars "buy milk"))
    | opt_search => Some (Text (chars "mom"))
    | _ => None
    end in
  main demo_usage (after_notify 5 vm 0) (demo_world []) =
  (Ret 0%Z,
   set_fs <[database_path "/home/u" "" :=
              File (encode [chars "buy milk"; chars "call mom"] ++ nl :: chars "mom")]>
     (with_conf "/home/u" "" (demo_world []))).
Proof. by apply (main_add_and_search _ _ _ _ _ _ _ _ (chars "buy milk")). Defined.
