(* ===== verification/Session.v ===== *)
(** * Session: runs of the program one after another

    The database lives between runs.  A session starts in a world with no
    database and is a sequence of runs of [main], each with its own command
    line and its own standard input.  [reachable] is the set of worlds that
    sessions reach, as an inductive predicate; the invariant [session_ok]
    (the two environment variables set, the configuration directory there
    or to be created, the database missing or a canonical file, the
    temporary file writable) holds in all of them, and all of them are
    trees, by induction on the session.  A session refines the list
    model of the contract: the records after any sequence of runs, what
    the runs print and how they end are what [model_run],
    [model_output] and [model_status] compute from the command lines and
    the inputs alone.  So no run goes wrong, and no world is a dead end:
    [can_reach] is the inductive predicate of the worlds from which some
    session leads to a given set, and every list of records can be
    reached from every world of a session.  The database grows by the
    texts of [add] only, which bounds its size after a session. *)

From S2P Require Import Prelude Lines DeleteLine Records Match Spec World Store.
From S2P Require Import Rules Frame Tree Refine Main.

(** ** Definitions *)

(** The command lines that the contract of the store covers: [add] with a
    text that is one record, [remove] with an index whose successor is an
    [int]. *)
Definition good_option (c : cmdline) (o : option_name) : Prop :=
  match o with
  | opt_add => good_text (v_text c)
  | opt_remove => in_int (v_index c + 1)
  | _ => True
  end.

Definition good_cmdline (c : cmdline) : Prop :=
  match selected c with
  | Some o => good_option c o
  | None => True
  end.

(** The command line with the one option [o] and the values [t] and [k]
    of the variables. *)
Definition cmd (o : option_name) (t : text) (k : Z) : cmdline :=
  Cmdline 2 (λ o', bool_decide (o' = o)) t k.

Section session.
Variable usage : text.
Context (home xdg : string).

Abbreviation db := (database_path home xdg).

(** The invariant of a session: the two variables are set, [getConfPath]
    can return, and in the world it leaves the invariant of the store
    holds (the directories of the database and of the temporary file
    exist, the database is missing or a canonical file, no directory is at
    the temporary path). *)
Definition session_ok (w : world) : Prop :=
  env w !! "HOME" = Some home ∧ env w !! "XDG_CONFIG_HOME" = Some xdg ∧
  conf_usable home xdg w ∧ file_ok db (with_conf home xdg w).

(** The command of the contract that a run of an operation performs on
    the store [m], with [inp] on standard input: none for [list],
    [search] and an [init] that is declined. *)
Definition effect (c : cmdline) (o : option_name) (m : option (list text))
    (inp : text) : option command :=
  match o with
  | opt_init =>
      if bool_decide (m = None) || answer_yes (head inp)
      then Some Initialize else None
  | opt_add => Some (Append (v_text c))
  | opt_remove => Some (DeleteAt (v_index c))
  | opt_clean => Some Wipe
  | _ => None
  end.

Definition command_of (c : cmdline) (m : option (list text)) (inp : text) :
    option command :=
  if wants_help c then None else selected c ≫= λ o, effect c o m inp.

(** The model after the command, if there is one. *)
Definition apply_command (cmd : option command) (m : option (list text)) :
    option (list text) :=
  match cmd with
  | Some cmd => step m cmd
  | None => m
  end.

(** One run of a session, given by its command line and its standard
    input: in the world, and in the list model of the contract. *)
Definition run_main (w : world) (r : cmdline * text) : world :=
  exec (main usage r.1) (set_stdin r.2 w).

Definition model_run (m : option (list text)) (r : cmdline * text) :
    option (list text) :=
  apply_command (command_of r.1 m r.2) m.

(** An operation other than [init] is refused on a store that is not
    initialized. *)
Definition refused (o : option_name) (m : option (list text)) : bool :=
  match o, m with
  | opt_help, _ | opt_init, _ | _, Some _ => false
  | _, None => true
  end.

(** What an operation prints on the store [m], with [inp] on standard
    input. *)
Definition op_output (c : cmdline) (o : option_name) (m : option (list text))
    (inp : text) : text :=
  match o, m with
  | opt_help, _ => []
  | opt_init, None => initialized_msg false
  | opt_init, Some _ =>
      (reinit_prompt ++ chars " [Y/n]: ") ++
      (if answer_yes (head inp) then initialized_msg true else [])
  | _, None => not_initialized
  | opt_list, Some rs => render (numbered rs)
  | opt_search, Some rs => render (matching (v_text c) (numbered rs))
  | opt_clean, Some _ => cleaned_msg
  | _, Some _ => []
  end.

(** How a run of [main] ends and what it prints, in the model. *)
Definition model_status (m : option (list text)) (c : cmdline) : outcome Z :=
  if wants_help c then Ret 0%Z
  else match selected c with
       | Some o => if refused o m then Exit 1 else Ret 0%Z
       | None => Ret 0%Z
       end.

Definition model_output (m : option (list text)) (r : cmdline * text) : text :=
  if wants_help r.1 then usage ++ [nl]
  else match selected r.1 with
       | Some o => op_output r.1 o m r.2
       | None => []
       end.

(** What a session prints, in the model. *)
Fixpoint model_outputs (m : option (list text)) (rs : list (cmdline * text)) : text :=
  match rs with
  | [] => []
  | r :: rs => model_output m r ++ model_outputs (model_run m r) rs
  end.

(** The number of characters of the database, in the world and in the
    model. *)
Definition db_size (w : world) : nat :=
  match fs w !! db with
  | Some (File s) => length s
  | _ => 0
  end.

Definition model_size (m : option (list text)) : nat :=
  from_option (length ∘ encode) 0 m.

(** The characters that a run can add to the database: with [add], the
    text and the newline before it. *)
Definition growth (c : cmdline) : nat :=
  if wants_help c then 0
  else match selected c with
       | Some opt_add => S (length (v_text c))
       | _ => 0
       end.

(** The outcomes of a run that did not go wrong. *)
Definition no_crash {A} (o : outcome A) : Prop :=
  match o with
  | Ret _ => True
  | Exit code => code = 1%Z
  | _ => False
  end.

(** A session: a start in a tree without a database, in which the
    configuration directory exists or can be created and the temporary
    file can be written, then runs of [main] on any covered command line,
    each with any standard input. *)
Inductive reachable : world → Prop :=
  | reachable_start w :
      env w !! "HOME" = Some home → env w !! "XDG_CONFIG_HOME" = Some xdg →
      tree w → conf_ready home xdg w → tmp_writable w → fs w !! db = None →
      reachable w
  | reachable_run w c inp :
      reachable w → good_cmdline c →
      reachable (exec (main usage c) (set_stdin inp w)).

(** Some session from [w] leads to a world in [P]. *)
Inductive can_reach (P : world → Prop) : world → Prop :=
  | can_reach_now w : P w → can_reach P w
  | can_reach_run w c inp :
      good_cmdline c →
      can_reach P (exec (main usage c) (set_stdin inp w)) →
      can_reach P w.

(** ** The invariant is kept by every run *)

Lemma session_ok_ext w w' :
  fs w' = fs w → env w' = env w → session_ok w → session_ok w'.
Proof.
  intros Hfs Henv (? & ? & Hconf & Hok). unfold session_ok, conf_usable.
  rewrite Henv, Hfs. split_and!; [done..|].
  apply (file_ok_fs db (with_conf home xdg w)); [|done].
  intros p _. unfold with_conf. rewrite Hfs.
  destruct (fs w !! conf_dir home xdg); simpl; by rewrite Hfs.
Qed.

(** A world in which the invariant of the store holds is a world of a
    session. *)
Lemma file_ok_session_ok w :
  env w !! "HOME" = Some home → env w !! "XDG_CONFIG_HOME" = Some xdg →
  file_ok db w → session_ok w.
Proof.
  intros Hh Hx Hok. pose proof Hok as (_ & Hdir & _).
  rewrite dirname_database_path in Hdir.
  split_and!; [done..|by intros E; rewrite E in Hdir|].
  by rewrite with_conf_present by by rewrite Hdir.
Qed.

Lemma file_ok_operation c o w :
  good_option c o → file_ok db w → file_ok db (exec (operation c o db) w).
Proof.
  intros Hgood Hok. pose proof (database_ne_tmp (conf_dir home xdg)) as Hne.
  destruct o; simpl in *.
  - done.
  - by apply file_ok_initDB.
  - apply file_ok_read_only; [by apply always_listDB|done].
  - by apply (@append_ok _ (file_store db Hne)).
  - by apply (@deleteAt_ok _ (file_store db Hne)).
  - apply file_ok_read_only; [by apply always_searchDB|done].
  - by apply (@wipe_ok _ (file_store db Hne)).
Qed.

Lemma session_ok_operation c o w :
  good_option c o → session_ok w →
  session_ok (exec (operation c o db) (with_conf home xdg w)).
Proof.
  intros Hgood (Hh & Hx & _ & Hok).
  destruct (always_operation (R := however (preserves (λ _, True))) c o db
    I I I I I I (λ _ _, I) (with_conf home xdg w)) as [_ (_ & Henv & _)].
  apply file_ok_session_ok; unfold exec; rewrite ?Henv;
    [by unfold with_conf; destruct (fs w !! conf_dir home xdg)..|].
  by apply file_ok_operation.
Qed.

Lemma session_ok_main c inp w :
  good_cmdline c → session_ok w →
  session_ok (exec (main usage c) (set_stdin inp w)).
Proof.
  intros Hgood Hok. apply (session_ok_ext w (set_stdin inp w)) in Hok; [|done..].
  unfold good_cmdline in Hgood. unfold exec.
  destruct (main_cases usage c (set_stdin inp w))
    as [[t ->]|[(r & -> & _)|(o & home' & xdg' & Ho & Hh & Hx & _ & ->)]];
    [by apply (session_ok_ext (set_stdin inp w))|done|].
  rewrite Ho in Hgood. pose proof Hok as (Hh' & Hx' & _). simplify_eq.
  rewrite finish_world. by apply session_ok_operation.
Qed.

(** C16: every world that a session reaches satisfies the invariant and
    is a tree: the environment variables are still set, the configuration
    directory exists or can be created, the database is missing or a
    canonical file in it, the temporary file can be written, and every
    entry of the file system lies in a directory. *)
Theorem reachable_ok w : reachable w → session_ok w ∧ tree w.
Proof.
  induction 1 as [w Hh Hx Hw Hconf Htmp Hdb|w c inp _ [IH Hw] Hgood].
  - split; [|done]. split_and!; [done|done|by apply conf_ready_usable|].
    split_and!; [by apply tmp_writable_with_conf|by apply fs_with_conf_dir|].
    by rewrite fs_with_conf_db, Hdb.
  - split; [by apply session_ok_main|]. by apply main_keeps_tree_run.
Qed.

(** ** A run performs the command of the contract *)

Lemma file_contents_fs w w' :
  fs w' !! db = fs w !! db → file_contents db w' = file_contents db w.
Proof. unfold file_contents. by intros ->. Qed.

Lemma contents_initDB c w :
  file_ok db w →
  file_contents db (exec (initDB db) w) =
  apply_command (effect c opt_init (file_contents db w) (stdin w)) (file_contents db w).
Proof.
  intros Hok. unfold exec, effect, file_contents.
  destruct (file_ok_cases db w Hok) as [Hc|(s & Hc & _)]; rewrite Hc.
  { pose proof Hok as (_ & Hdir & _).
    rewrite initDB_fresh_run by done. by simplify_map_eq. }
  rewrite bool_decide_false by done.
  destruct (answer_yes (head (stdin w))) eqn:Hyes; simpl.
  - rewrite (initDB_confirmed_run _ _ s) by done. by simplify_map_eq.
  - rewrite initDB_declined_run by (by rewrite ?Hc). simpl. by rewrite Hc.
Qed.

Lemma contents_operation c o w :
  good_option c o → file_ok db w →
  file_contents db (exec (operation c o db) w) =
  apply_command (effect c o (file_contents db w) (stdin w)) (file_contents db w).
Proof.
  intros Hgood Hok. pose proof (database_ne_tmp (conf_dir home xdg)) as Hne.
  destruct o; simpl operation.
  - done.
  - by apply contents_initDB.
  - apply file_contents_fs. by rewrite read_only_fs by by apply always_listDB.
  - by apply (step_contents (H := file_store db Hne) w (Append _)).
  - by apply (step_contents (H := file_store db Hne) w (DeleteAt _)).
  - apply file_contents_fs. by rewrite read_only_fs by by apply always_searchDB.
  - by apply (step_contents (H := file_store db Hne) w Wipe).
Qed.

Lemma main_contents c w :
  good_cmdline c → session_ok w →
  file_contents db (exec (main usage c) w) =
  apply_command (command_of c (file_contents db w) (stdin w)) (file_contents db w).
Proof.
  intros Hgood (Hh & Hx & Hconf & Hok). unfold good_cmdline in Hgood.
  unfold exec, command_of. rewrite main_unfold.
  destruct (wants_help c) eqn:Hhelp; [done|].
  destruct (selected c) as [o|] eqn:Ho; [|done]. simpl.
  rewrite bind_run, (db_path_run w home xdg), finish_world by done.
  fold (exec (operation c o db) (with_conf home xdg w)).
  rewrite (contents_operation c o) by done.
  by rewrite (file_contents_fs w), stdin_with_conf by by apply fs_with_conf_db.
Qed.

(** ** A run ends and prints as the model says *)

Lemma operation_observable c o w :
  good_option c o → file_ok db w →
  let m := file_contents db w in
  (operation c o db w).1 = (if refused o m then Exit 1 else Ret ()) ∧
  stdout (operation c o db w).2 = stdout w ++ op_output c o m (stdin w).
Proof.
  intros Hgood Hok. pose proof Hok as (Htmp & Hdir & _).
  pose proof (database_ne_tmp (conf_dir home xdg)) as Hne.
  unfold file_contents.
  destruct (file_ok_cases db w Hok) as [Hc|(s & Hc & _)]; rewrite Hc.
  { destruct (missing_run db w (v_text c) (v_index c) Hc) as (H1 & H2 & H3 & H4 & H5).
    destruct o; cbn [operation refused op_output];
      rewrite ?H1, ?H2, ?H3, ?H4, ?H5, ?initDB_fresh_run by done;
      split; try done; cbn [snd]; autorewrite with text; by rewrite ?app_nil_r. }
  destruct o; cbn [operation refused op_output];
    rewrite ?(listDB_run _ _ s), ?(addDB_run _ _ s), ?(removeDB_run _ _ s),
      ?(searchDB_run _ _ s), ?(cleanDB_run _ _ s) by done;
    [|destruct (answer_yes (head (stdin w))) eqn:Hyes;
      [rewrite (initDB_confirmed_run _ _ s) by done
      |rewrite initDB_declined_run by (by rewrite ?Hc)]; unfold prompted|..];
    (split; [done|]); cbn [snd]; autorewrite with text;
    by rewrite ?app_nil_r, <-?app_assoc.
Qed.

Lemma main_observable c w :
  good_cmdline c → session_ok w →
  let m := file_contents db w in
  (main usage c w).1 = model_status m c ∧
  stdout (main usage c w).2 = stdout w ++ model_output m (c, stdin w).
Proof.
  intros Hgood (Hh & Hx & Hconf & Hok). unfold good_cmdline in Hgood.
  unfold model_status, model_output. simpl. rewrite main_unfold.
  destruct (wants_help c); [done|].
  destruct (selected c) as [o|] eqn:Ho; [|by rewrite app_nil_r].
  rewrite bind_run, (db_path_run w home xdg) by done.
  destruct (operation_observable c o (with_conf home xdg w) Hgood Hok) as [Hs Hout].
  rewrite (file_contents_fs w), stdin_with_conf, stdout_with_conf in *
    by by apply fs_with_conf_db.
  destruct (operation c o db (with_conf home xdg w)) as [[[]| | |] w'];
    simpl in *; by destruct (refused o (file_contents db w)); simplify_eq.
Qed.

(** One run of a session keeps the invariant and is the run of the
    model. *)
Lemma run_main_refines r w :
  good_cmdline r.1 → session_ok w →
  session_ok (run_main w r) ∧
  file_contents db (run_main w r) = model_run (file_contents db w) r ∧
  stdout (run_main w r) = stdout w ++ model_output (file_contents db w) r.
Proof.
  intros Hgood Hok. split; [by apply session_ok_main|].
  assert (session_ok (set_stdin r.2 w)) as Hok' by by apply (session_ok_ext w).
  unfold run_main, model_run. split.
  - rewrite main_contents by done. by rewrite (file_contents_fs w).
  - destruct (main_observable r.1 (set_stdin r.2 w) Hgood Hok') as [_ Hout].
    unfold exec. rewrite Hout, (file_contents_fs w) by done. by destruct r.
Qed.

(** C2: a session refines the list model.  Started in a world that
    satisfies the invariant, any sequence of runs of [main], each with
    its command line and its standard input, keeps the invariant; the
    records of the database afterwards and everything the session has
    printed are what the model computes from the command lines and the
    inputs alone: [add] appends, [remove] deletes the record with the
    given number, [clean] uninitializes, [init] gives the empty store
    unless the store exists and the prompt is declined; help, [list],
    [search] and a declined [init] leave the records as they are; [list]
    and [search] print the numbered records, and an operation on a store
    that is not initialized prints that it is not. *)
Theorem session_refines rs w :
  Forall (λ r, good_cmdline r.1) rs → session_ok w →
  let m := file_contents db w in
  session_ok (foldl run_main w rs) ∧
  file_contents db (foldl run_main w rs) = foldl model_run m rs ∧
  stdout (foldl run_main w rs) = stdout w ++ model_outputs m rs.
Proof.
  intros Hrs. revert w. induction Hrs as [|r rs Hr _ IH]; intros w Hok; simpl.
  { by rewrite app_nil_r. }
  destruct (run_main_refines r w Hr Hok) as (Hok' & Hc & Hout).
  destruct (IH _ Hok') as (? & ? & ?). rewrite <-Hc, app_assoc, <-Hout. done.
Qed.

(** ** No run goes wrong *)

(** C17: in a world that satisfies the invariant, a run of [main] on a
    covered command line ends as the model says: it calls [exit] with
    status 1 when the command needs a store and there is none, and
    returns 0 otherwise.  So no run goes wrong: no exception of the
    library and no undefined behaviour occurs, that is no null pointer
    from [getenv] and no overflow of [index + 1].  The counters of the
    loops cannot overflow in the model: for them the statement is about
    databases of fewer than [INT_MAX] characters
    ([Store.listDB_counter_in_int],
    [DeleteLine.delete_line_loop_in_int]). *)
Theorem session_no_crash c w :
  good_cmdline c → session_ok w →
  (main usage c w).1 = model_status (file_contents db w) c ∧
  no_crash (main usage c w).1.
Proof.
  intros Hgood Hok. destruct (main_observable c w Hgood Hok) as [-> _].
  split; [done|]. unfold model_status.
  destruct (wants_help c); [done|]. destruct (selected c) as [o|]; [|done].
  by destruct (refused o _).
Qed.

(** ** The size of the database *)

Lemma db_size_contents w : session_ok w → db_size w = model_size (file_contents db w).
Proof.
  intros (_ & _ & _ & Hok). unfold db_size, file_contents.
  destruct (file_ok_cases db _ Hok) as [Hc|(s & Hc & Hcan)];
    rewrite fs_with_conf_db in Hc; rewrite Hc; [done|].
  simpl. by rewrite <-Hcan.
Qed.

Lemma model_run_size m r : model_size (model_run m r) ≤ model_size m + growth r.1.
Proof.
  unfold model_run, command_of, growth. destruct (wants_help r.1); [simpl; lia|].
  destruct (selected r.1) as [[]|]; simpl; try lia; destruct m as [rs|]; simpl;
    rewrite ?length_encode_snoc; try lia.
  - case_match; simpl; lia.
  - pose proof (length_encode_delete_record (v_index r.1) rs). lia.
Qed.

(** C36: the database grows by the texts of [add] only.  After
    a session the database has no more characters than it had at the
    start and the runs of [add] have appended, a newline and the text
    each.  So a session that starts below [INT_MAX] characters and adds
    fewer than are left to [INT_MAX] keeps the database, at every run,
    in the range in which no counter of [listDB], [searchDB] and
    [delete_line] overflows ([Store.listDB_counter_in_int],
    [DeleteLine.delete_line_loop_in_int]). *)
Theorem session_size rs w :
  Forall (λ r, good_cmdline r.1) rs → session_ok w →
  db_size (foldl run_main w rs) ≤ db_size w + sum_list (growth ∘ fst <$> rs).
Proof.
  intros Hrs. revert w. induction Hrs as [|r rs Hr _ IH]; intros w Hok; csimpl.
  { lia. }
  destruct (run_main_refines r w Hr Hok) as (Hok' & Hc & _).
  specialize (IH _ Hok'). pose proof (model_run_size (file_contents db w) r).
  rewrite (db_size_contents (run_main w r)), Hc in IH by done.
  rewrite (db_size_contents w) by done. lia.
Qed.

(** ** Every store can be reached *)

Lemma can_reach_trans (P Q : world → Prop) w :
  can_reach P w → (∀ w', P w' → can_reach Q w') → can_reach Q w.
Proof. induction 1; eauto using can_reach. Qed.

Lemma wants_help_cmd o t k : o ≠ opt_help → wants_help (cmd o t k) = false.
Proof. by destruct o. Qed.

Lemma selected_cmd o t k : o ≠ opt_help → selected (cmd o t k) = Some o.
Proof. by destruct o. Qed.

(** One run with the option [o], when it performs the command [m] of the
    contract. *)
Lemma can_reach_command o t k inp m w rs :
  o ≠ opt_help → good_option (cmd o t k) o →
  effect (cmd o t k) o rs inp = Some m →
  session_ok w → file_contents db w = rs →
  can_reach (λ w', session_ok w' ∧ file_contents db w' = step rs m) w.
Proof.
  intros Ho Hgood Hm Hok Hrs.
  assert (good_cmdline (cmd o t k)) as Hc
    by (unfold good_cmdline; by rewrite selected_cmd).
  apply (can_reach_run _ w (cmd o t k) inp), can_reach_now; [done|].
  destruct (run_main_refines (cmd o t k, inp) w Hc Hok) as (Hok' & Hrun & _).
  split; [done|]. etrans; [exact Hrun|]. unfold model_run, command_of. simpl.
  rewrite wants_help_cmd, selected_cmd by done. simpl. by rewrite Hrs, Hm.
Qed.

Lemma can_reach_adds ts w rs :
  session_ok w → file_contents db w = Some rs → Forall good_text ts →
  can_reach (λ w', session_ok w' ∧ file_contents db w' = Some (rs ++ ts)) w.
Proof.
  intros Hok Hrs Hts. revert w rs Hok Hrs.
  induction Hts as [|t ts Ht _ IH]; intros w rs Hok Hrs.
  { apply can_reach_now. by rewrite app_nil_r. }
  apply (can_reach_trans
           (λ w', session_ok w' ∧ file_contents db w' = Some (rs ++ [t]))).
  - by apply (can_reach_command opt_add t 0 [] (Append t) w (Some rs)).
  - intros w' [Hok' Hrs']. rewrite cons_middle, app_assoc. by apply IH.
Qed.

(** C18: no world of a session is a dead end: from every world that
    satisfies the invariant, whatever the database holds, some further
    runs of the program lead to a database with any given list of
    records ([init], confirmed, then one [add] for each record). *)
Theorem any_store_reachable w rs :
  session_ok w → Forall good_text rs →
  can_reach (λ w', session_ok w' ∧ file_contents db w' = Some rs) w.
Proof.
  intros Hok Hrs.
  apply (can_reach_trans (λ w', session_ok w' ∧ file_contents db w' = Some [])).
  - apply (can_reach_command opt_init [] 0 [nl] Initialize w (file_contents db w));
      try done.
    simpl. by rewrite orb_true_r.
  - intros w' [Hok' Hrs']. by apply (can_reach_adds rs w' []).
Qed.

End session.

(** ** Concrete sessions *)

Lemma reachable_ok_witness :
  let w := exec (main demo_usage (only opt_add "buy milk" 0))
             (set_stdin []
                (exec (main demo_usage (only opt_init "" 0)) (set_stdin [] fresh_world))) in
  session_ok "/home/u" "" w ∧ tree w.
Proof.
  apply (reachable_ok demo_usage).
  apply reachable_run; [apply reachable_run; [apply reachable_start|]|]; by_compute.
Defined.

Lemma session_refines_witness :
  let rs := [(only opt_remove "" 1, []); (only opt_add "feed cat" 0, []);
             (only opt_list "" 0, []); (only opt_init "" 0, chars "n");
             (only opt_clean "" 0, []); (only opt_list "" 0, [])] in
  let db := database_path "/home/u" "" in
  let w := foldl (run_main demo_usage) (demo_world []) rs in
  file_contents db w = foldl model_run (file_contents db (demo_world [])) rs ∧
  stdout w =
  stdout (demo_world []) ++ model_outputs demo_usage (file_contents db (demo_world [])) rs.
Proof.
  intros rs db w. apply (session_refines demo_usage "/home/u" ""); [|by_compute].
  repeat constructor; by_compute.
Defined.

Lemma session_no_crash_witness :
  (main demo_usage (only opt_list "" 0) fresh_world).1 = Exit 1.
Proof. apply (session_no_crash demo_usage "/home/u" ""); by_compute. Defined.

Lemma session_size_witness :
  let rs := [(only opt_add "feed cat" 0, []); (only opt_remove "" 1, []);
             (only opt_list "" 0, []); (only opt_add "walk" 0, [])] in
  db_size "/home/u" "" (foldl (run_main demo_usage) (demo_world []) rs) ≤
  db_size "/home/u" "" (demo_world []) + 14.
Proof.
  intros rs. apply (session_size demo_usage "/home/u" "" rs); [|by_compute].
  repeat constructor; by_compute.
Defined.

Lemma any_store_reachable_witness :
  can_reach demo_usage
    (λ w', session_ok "/home/u" "" w' ∧
           file_contents (database_path "/home/u" "") w' = Some [chars "call mom"])
    (demo_world []).
Proof.
  apply (any_store_reachable demo_usage "/home/u" ""); [by_compute|].
  repeat constructor; by_compute.
Defined.
